(** * Menu generation and validation pipeline of [server/index.mjs]

    A shallow embedding of the calorie model, the response extractor, the
    version sequencer and the [/api/generate-weekly-menu] handler, together
    with the properties that the specification states about them.

    Conventions of the model.

    - A JavaScript value that travels through JSON (request bodies, the
      provider's parsed reply, the records of [db.json], the response body)
      is a [value].  A property that is absent reads as [None]
      ([undefined]).  Objects are association lists in insertion order.
    - A JavaScript number is an exact rational ([Q]); the results of
      arithmetic additionally range over [NaN] and the two infinities
      ([number]).  A number literal stands for the binary64 number nearest
      to it.  The range of binary64 is modelled where numbers are computed
      or written: in the calorie model, in the profile that is stored and
      in what [JSON.stringify] writes, a number beyond the range is an
      infinity and is written as [null].  The version sequencer adds in
      binary64, rounding included.  Elsewhere the rounding of the last bit
      and the sign of zero are not modelled.
    - A JavaScript string is a [string]; text is processed as its list of
      characters.  ASCII text is modelled by itself, other text by the bytes
      of its UTF-8 encoding.
    - A [throw] is the [Throw] constructor of [result].
    - The file [db.json] is the state that the handler threads; what is
      written is what is read back (the menus that the handler stores are
      JSON values already).  The file holds what [JSON.stringify] wrote:
      none of its numbers is beyond the range of binary64.  Failures of the
      file system are not modelled.
    - The provider's answer and the clock are inputs of a request.  Of
      the prompt the model keeps the conversions to text, which can throw;
      the text itself reaches nothing but the provider.  The mail that is
      sent after the menu is stored influences neither the database nor the
      response and is left out.
    - A handler is one step on the file: its requests are served one after
      the other.  The [await]s inside the handlers, at which requests that
      overlap in time interleave, are not modelled. *)

From Stdlib Require Import List Bool Arith ZArith QArith Qround Lia Lqa Sorted.
From Stdlib Require Import Ascii String.
Import ListNotations.

Local Close Scope Q_scope.
Local Open Scope string_scope.
Local Open Scope list_scope.

(** ** Exceptions *)

Inductive error : Type :=
| Error (message : string)
| TypeError
| SyntaxError.

Inductive result (A : Type) : Type :=
| Ok (a : A)
| Throw (e : error).

Arguments Ok {A} a.
Arguments Throw {A} e.

Definition rbind {A B} (r : result A) (k : A -> result B) : result B :=
  match r with
  | Ok a => k a
  | Throw e => Throw e
  end.

Notation "'let!' x ':=' r 'in' k" := (rbind r (fun x => k))
  (at level 10, x name, r at level 100, k at level 200).

(** ** Numbers *)

Inductive number : Type :=
| NaN
| Fin (q : Q)
| PInf
| NInf.

Module Num.

Local Open Scope Q_scope.

Definition neg (a : number) : number :=
  match a with
  | NaN => NaN
  | Fin q => Fin (- q)
  | PInf => NInf
  | NInf => PInf
  end.

Definition add (a b : number) : number :=
  match a, b with
  | NaN, _ | _, NaN => NaN
  | Fin x, Fin y => Fin (x + y)
  | PInf, NInf | NInf, PInf => NaN
  | PInf, _ | _, PInf => PInf
  | NInf, _ | _, NInf => NInf
  end.

Definition sub (a b : number) : number := add a (neg b).

(** The sign of a rational: [Lt], [Eq] or [Gt] with respect to zero. *)
Definition sign (q : Q) : comparison := (q ?= 0)%Q.

Definition scale_inf (positive : bool) (q : Q) : number :=
  match sign q with
  | Eq => NaN
  | Gt => if positive then PInf else NInf
  | Lt => if positive then NInf else PInf
  end.

Definition mul (a b : number) : number :=
  match a, b with
  | NaN, _ | _, NaN => NaN
  | Fin x, Fin y => Fin (x * y)
  | PInf, Fin y | Fin y, PInf => scale_inf true y
  | NInf, Fin y | Fin y, NInf => scale_inf false y
  | PInf, PInf | NInf, NInf => PInf
  | PInf, NInf | NInf, PInf => NInf
  end.

Definition div (a b : number) : number :=
  match a, b with
  | NaN, _ | _, NaN => NaN
  | Fin x, Fin y =>
      match sign y with
      | Eq => scale_inf true x
      | _ => Fin (x / y)
      end
  | Fin _, (PInf | NInf) => Fin 0
  | PInf, Fin y => match sign y with Lt => NInf | _ => PInf end
  | NInf, Fin y => match sign y with Lt => PInf | _ => NInf end
  | _, _ => NaN
  end.

Definition isNaN (a : number) : bool :=
  match a with
  | NaN => true
  | _ => false
  end.

(** [Math.round]: the nearest integer, halves towards plus infinity. *)
Definition round (a : number) : number :=
  match a with
  | Fin q => Fin (inject_Z (Qfloor (q + (1 # 2))))
  | other => other
  end.

End Num.

(** ** The range and the rounding of binary64 *)

Module B64.

Local Open Scope Z_scope.

(** Half a step above the largest binary64 number: from here on a number
    rounds to an infinity. *)
Definition overflow : Z := 2 ^ 1024 - 2 ^ 970.

(** The number that a rational within one step of binary64 is: itself
    inside the range, an infinity beyond it. *)
Definition fit (q : Q) : number :=
  if Qle_bool (inject_Z overflow) q then PInf
  else if Qle_bool q (inject_Z (- overflow)) then NInf
  else Fin q.

Definition fits (q : Q) : bool :=
  match fit q with
  | Fin _ => true
  | _ => false
  end.

(** The result of an operation whose exact value is [n]. *)
Definition clip (n : number) : number :=
  match n with
  | Fin q => fit q
  | other => other
  end.

Definition add (a b : number) : number := clip (Num.add a b).
Definition sub (a b : number) : number := clip (Num.sub a b).
Definition mul (a b : number) : number := clip (Num.mul a b).
Definition div (a b : number) : number := clip (Num.div a b).

(** [2 ^ e] for an exponent of either sign. *)
Definition pow2 (e : Z) : Q :=
  if 0 <=? e then inject_Z (2 ^ e) else 1 # Z.to_pos (2 ^ (- e)).

(** The integer part of the binary logarithm of a positive rational. *)
Definition ilog2 (q : Q) : Z :=
  let l := Z.log2 (Qnum q) - Z.log2 (Z.pos (Qden q)) in
  if Qle_bool (pow2 l) q then l else l - 1.

(** The nearest integer, the even one of two that are equally near. *)
Definition nearestEven (q : Q) : Z :=
  let f := Qfloor q in
  match Qcompare (q - inject_Z f) (1 # 2) with
  | Lt => f
  | Gt => f + 1
  | Eq => if Z.even f then f else f + 1
  end.

(** A positive rational rounded to 53 significant bits, with the least
    exponent of binary64. *)
Definition roundPositive (q : Q) : Q :=
  let e := Z.max (ilog2 q - 52) (- 1074) in
  Qred (inject_Z (nearestEven (q / pow2 e)) * pow2 e).

(** The binary64 number nearest to a rational. *)
Definition round64 (q : Q) : number :=
  match Qcompare q 0 with
  | Eq => Fin 0
  | Gt => fit (roundPositive (Qred q))
  | Lt => fit (- roundPositive (Qred (- q)))
  end.

(** [q + 1] in binary64. *)
Definition plusOne (q : Q) : Q :=
  match round64 (q + 1) with
  | Fin r => r
  | _ => q
  end.

(** A bound far inside the range: sums and products of a few numbers
    below it stay in range. *)
Definition large : Q := inject_Z (10 ^ 300).

(** An integer below a bound. *)
Definition integerBelow (bound : Z) (q : Q) : Prop :=
  exists n : Z, (q == inject_Z n)%Q /\ n < bound.

End B64.

(** ** JSON values *)

#[warnings="-register-all"]
Inductive value : Type :=
| VNull
| VBool (b : bool)
| VNum (q : Q)
| VStr (s : string)
| VArr (items : list value)
| VObj (fields : list (string * value)).

Definition obj : Type := list (string * value).

Fixpoint assoc (k : string) (fields : obj) : option value :=
  match fields with
  | [] => None
  | (k', v) :: rest => if String.eqb k k' then Some v else assoc k rest
  end.

(** [o[k] = v]: an existing key keeps its position, a new key is appended. *)
Fixpoint set_field (k : string) (v : value) (fields : obj) : obj :=
  match fields with
  | [] => [(k, v)]
  | (k', v') :: rest =>
      if String.eqb k k' then (k', v) :: rest
      else (k', v') :: set_field k v rest
  end.

Definition has_key (k : string) (fields : obj) : bool :=
  match assoc k fields with
  | Some _ => true
  | None => false
  end.

(** Property read [v.k] for the property names of this program, none of
    which is inherited from a prototype.  Every receiver in the source is
    known to be neither [null] nor [undefined] where it is read. *)
Definition get (v : value) (k : string) : option value :=
  match v with
  | VObj fields => assoc k fields
  | _ => None
  end.

(** Truthiness, [!!v]. *)
Definition truthy (v : value) : bool :=
  match v with
  | VNull => false
  | VBool b => b
  | VNum q => negb (Qeq_bool q 0%Q)
  | VStr s => negb (String.eqb s "")
  | VArr _ | VObj _ => true
  end.

Definition truthy_opt (v : option value) : bool :=
  match v with
  | Some v => truthy v
  | None => false
  end.

(** [a || b] with a default [b]. *)
Definition or_else (a : option value) (b : value) : value :=
  match a with
  | Some v => if truthy v then v else b
  | None => b
  end.

(** [a === b].  Arrays and objects are compared by identity; the two sides
    of every comparison in the source are distinct objects, never aliases. *)
Definition strict_eq (a b : value) : bool :=
  match a, b with
  | VNull, VNull => true
  | VBool x, VBool y => Bool.eqb x y
  | VNum x, VNum y => Qeq_bool x y
  | VStr x, VStr y => String.eqb x y
  | _, _ => false
  end.

Definition is_str (a : option value) (s : string) : bool :=
  match a with
  | Some v => strict_eq v (VStr s)
  | None => false
  end.

Definition isArray (a : option value) : bool :=
  match a with
  | Some (VArr _) => true
  | _ => false
  end.

(** ** Text *)

Definition chars (s : string) : list ascii := list_ascii_of_string s.
Definition str (l : list ascii) : string := string_of_list_ascii l.

Definition quote : ascii := "034"%char.
Definition backslash : ascii := "\"%char.

(** Test data is written with apostrophes where the JSON text has double
    quotes; [dq] restores them. *)
Definition dq (s : string) : string :=
  str (map (fun c => if Ascii.eqb c "'" then quote else c) (chars s)).

Definition nl : string := String "010" "".

Module Str.

Definition lower (c : ascii) : ascii :=
  let n := nat_of_ascii c in
  if ((65 <=? n) && (n <=? 90))%nat then ascii_of_nat (n + 32) else c.

Definition same (ci : bool) (a b : ascii) : bool :=
  if ci then Ascii.eqb (lower a) (lower b) else Ascii.eqb a b.

Fixpoint startsWith (ci : bool) (pat s : list ascii) : bool :=
  match pat, s with
  | [], _ => true
  | _ :: _, [] => false
  | p :: pat', c :: s' => same ci p c && startsWith ci pat' s'
  end.

(** [s.includes(pat)] *)
Fixpoint includes (pat s : list ascii) : bool :=
  startsWith false pat s ||
  match s with
  | [] => false
  | _ :: s' => includes pat s'
  end.

(** [s.replace(/pat/g, '')] (and [/pat/gi] when [ci]) for a literal,
    non-empty pattern: matches are found left to right and do not
    overlap.  [skip] counts the characters of the current match that are
    still to be dropped. *)
Fixpoint remove_from (skip : nat) (ci : bool) (pat s : list ascii) : list ascii :=
  match s with
  | [] => []
  | c :: s' =>
      match skip with
      | S k => remove_from k ci pat s'
      | O =>
          if startsWith ci pat s then remove_from (List.length pat - 1) ci pat s'
          else c :: remove_from 0 ci pat s'
      end
  end.

Definition removeAll (ci : bool) (pat s : list ascii) : list ascii :=
  remove_from 0 ci pat s.

(** White space of [trim] and of numeric strings (the ASCII part). *)
Definition isSpace (c : ascii) : bool :=
  let n := nat_of_ascii c in
  (((9 <=? n) && (n <=? 13)) || (n =? 32))%nat.

Fixpoint trimStart (s : list ascii) : list ascii :=
  match s with
  | c :: s' => if isSpace c then trimStart s' else s
  | [] => []
  end.

Definition trimEnd (s : list ascii) : list ascii := rev (trimStart (rev s)).

Definition trim (s : list ascii) : list ascii := trimEnd (trimStart s).

(** [s.indexOf(c)], [None] for -1. *)
Fixpoint indexOf (c : ascii) (s : list ascii) : option nat :=
  match s with
  | [] => None
  | x :: s' =>
      if Ascii.eqb x c then Some 0
      else option_map S (indexOf c s')
  end.

(** [s.lastIndexOf(c)], [None] for -1. *)
Fixpoint lastIndexOf (c : ascii) (s : list ascii) : option nat :=
  match s with
  | [] => None
  | x :: s' =>
      match lastIndexOf c s' with
      | Some i => Some (S i)
      | None => if Ascii.eqb x c then Some 0 else None
      end
  end.

(** [s.slice(from, to)] for indices within the string. *)
Definition slice (from to : nat) (s : list ascii) : list ascii :=
  firstn (to - from) (skipn from s).

(** The text after a first character [c], if [s] starts with it. *)
Definition eat (c : ascii) (s : list ascii) : option (list ascii) :=
  match s with
  | x :: s' => if Ascii.eqb x c then Some s' else None
  | [] => None
  end.

(** The text after the prefix [w], if [s] starts with it. *)
Fixpoint strip (w s : list ascii) : option (list ascii) :=
  match w, s with
  | [], _ => Some s
  | _ :: _, [] => None
  | c :: w', x :: s' => if Ascii.eqb x c then strip w' s' else None
  end.

(** [s.split(c)] for a one-character separator. *)
Fixpoint split (c : ascii) (s : list ascii) : list (list ascii) :=
  match s with
  | [] => [[]]
  | x :: s' =>
      match split c s' with
      | part :: parts =>
          if Ascii.eqb x c then [] :: part :: parts
          else (x :: part) :: parts
      | [] => [[x]]
      end
  end.

End Str.

(** ** Numeric literals *)

Module Lit.

Local Open Scope char_scope.
Local Open Scope Z_scope.

Definition digitIn (radix : Z) (c : ascii) : option Z :=
  let n := Z.of_nat (nat_of_ascii c) in
  let d :=
    if (48 <=? n) && (n <=? 57) then n - 48
    else if (97 <=? n) && (n <=? 102) then n - 87
    else if (65 <=? n) && (n <=? 70) then n - 55
    else radix in
  if d <? radix then Some d else None.

(** The longest run of digits at the head of [s]: its value on top of
    [acc], the number of digits read on top of [count], and the rest. *)
Fixpoint digits (radix acc : Z) (count : nat) (s : list ascii)
  : Z * nat * list ascii :=
  match s with
  | c :: s' =>
      match digitIn radix c with
      | Some d => digits radix (radix * acc + d) (S count) s'
      | None => (acc, count, s)
      end
  | [] => (acc, count, s)
  end.

(** [m * 10^e] *)
Definition decimal (m e : Z) : Q :=
  if 0 <=? e then inject_Z (m * 10 ^ e)
  else Qred (m # Z.to_pos (10 ^ (- e))).

(** An optional sign. *)
Definition sign (s : list ascii) : bool * list ascii :=
  match Str.eat "-" s, Str.eat "+" s with
  | Some r, _ => (true, r)
  | None, Some r => (false, r)
  | None, None => (false, s)
  end.

(** An optional exponent part [e+12], [E-3], [e7].  [None] when an [e]
    is not followed by digits. *)
Definition exponent (s : list ascii) : option (Z * list ascii) :=
  match Str.eat "e" s, Str.eat "E" s with
  | None, None => Some (0, s)
  | Some r, _ | None, Some r =>
      let '(negative, r1) := sign r in
      match digits 10 0 0 r1 with
      | (_, O, _) => None
      | (e, _, r2) => Some (if negative then - e else e, r2)
      end
  end.

(** [StringToNumber] of ECMA-262, the conversion behind [Number(s)]. *)
Definition radixLiteral (radix : Z) (s : list ascii) : number :=
  match digits radix 0 0 s with
  | (_, O, _) => NaN
  | (n, _, []) => Fin (inject_Z n)
  | _ => NaN
  end.

Definition decimalLiteral (s : list ascii) : number :=
  let '(negative, s1) := sign s in
  if list_eq_dec ascii_dec s1 (chars "Infinity") then
    if negative then NInf else PInf
  else
    let '(m1, k1, r1) := digits 10 0 0 s1 in
    let '(m2, k2, r2) :=
      match r1 with
      | "." :: r => digits 10 m1 0 r
      | _ => (m1, O, r1)
      end in
    match (k1 + k2)%nat with
    | O => NaN
    | _ =>
        match exponent r2 with
        | Some (e, []) =>
            let v := decimal m2 (e - Z.of_nat k2) in
            Fin (if negative then Qopp v else v)
        | _ => NaN
        end
    end.

Definition StringToNumber (s : list ascii) : number :=
  match Str.trim s with
  | [] => Fin 0
  | "0" :: ("x" | "X") :: r => radixLiteral 16 r
  | "0" :: ("o" | "O") :: r => radixLiteral 8 r
  | "0" :: ("b" | "B") :: r => radixLiteral 2 r
  | t => decimalLiteral t
  end.

(** The number grammar of JSON: no leading [+], no leading zeros, digits
    on both sides of the point. *)
Definition jsonNumber (s : list ascii) : option (Q * list ascii) :=
  let '(negative, s1) :=
    match Str.eat "-" s with
    | Some r => (true, r)
    | None => (false, s)
    end in
  let int :=
    match Str.eat "0" s1 with
    | Some r => Some (0, r)
    | None =>
        match digits 10 0 0 s1 with
        | (_, O, _) => None
        | (m, _, r) => Some (m, r)
        end
    end in
  match int with
  | None => None
  | Some (m1, r1) =>
      let frac :=
        match Str.eat "." r1 with
        | Some r =>
            match digits 10 m1 0 r with
            | (_, O, _) => None
            | found => Some found
            end
        | None => Some (m1, O, r1)
        end in
      match frac with
      | None => None
      | Some (m2, k2, r2) =>
          match exponent r2 with
          | None => None
          | Some (e, r3) =>
              let v := decimal m2 (e - Z.of_nat k2) in
              Some (if negative then Qopp v else v, r3)
          end
      end
  end.

End Lit.

(** ** [JSON.parse] *)

Module JSON.

Local Open Scope char_scope.

Definition isSpace (c : ascii) : bool :=
  match c with
  | " " | "009" | "010" | "013" => true
  | _ => false
  end.

Fixpoint skip (s : list ascii) : list ascii :=
  match s with
  | c :: s' => if isSpace c then skip s' else s
  | [] => []
  end.

(** The text after white space and the character [c], if that is how [s]
    starts. *)
Definition expect (c : ascii) (s : list ascii) : option (list ascii) :=
  Str.eat c (skip s).

(** A code unit written as [\uXXXX], as the bytes that stand for it. *)
Definition unit_bytes (u : Z) : list ascii :=
  let byte (n : Z) := ascii_of_nat (Z.to_nat n) in
  (if u <? 128 then [byte u]
   else if u <? 2048 then [byte (192 + u / 64); byte (128 + u mod 64)]
   else [byte (224 + u / 4096); byte (128 + (u / 64) mod 64);
         byte (128 + u mod 64)])%Z.

Definition hex4 (a b c d : ascii) : option Z :=
  match Lit.digitIn 16 a, Lit.digitIn 16 b, Lit.digitIn 16 c, Lit.digitIn 16 d with
  | Some x, Some y, Some z, Some w => Some (((x * 16 + y) * 16 + z) * 16 + w)%Z
  | _, _, _, _ => None
  end.

Definition escape (c : ascii) : option ascii :=
  match c with
  | "034" => Some "034"
  | "\" => Some "\"
  | "/" => Some "/"
  | "b" => Some "008"
  | "f" => Some "012"
  | "n" => Some "010"
  | "r" => Some "013"
  | "t" => Some "009"
  | _ => None
  end.

(** The characters of a string literal after its opening quote, up to
    and without the closing quote. *)
Fixpoint stringBody (s : list ascii) : option (list ascii * list ascii) :=
  match s with
  | [] => None
  | c :: r =>
      if Ascii.eqb c quote then Some ([], r)
      else if Ascii.eqb c backslash then
        match r with
        | [] => None
        | e :: r1 =>
            if Ascii.eqb e "u" then
              match r1 with
              | a :: b :: c' :: d :: r2 =>
                  match hex4 a b c' d, stringBody r2 with
                  | Some u, Some (body, rest) => Some (unit_bytes u ++ body, rest)
                  | _, _ => None
                  end
              | _ => None
              end
            else
              match escape e, stringBody r1 with
              | Some x, Some (body, rest) => Some (x :: body, rest)
              | _, _ => None
              end
        end
      else if (nat_of_ascii c <? 32)%nat then None
      else
        match stringBody r with
        | Some (body, rest) => Some (c :: body, rest)
        | None => None
        end
  end.

(** [true], [false], [null] or a number. *)
Definition keyword (s : list ascii) : option (value * list ascii) :=
  match Str.strip (chars "true") s, Str.strip (chars "false") s,
        Str.strip (chars "null") s with
  | Some r, _, _ => Some (VBool true, r)
  | None, Some r, _ => Some (VBool false, r)
  | None, None, Some r => Some (VNull, r)
  | None, None, None =>
      match Lit.jsonNumber s with
      | Some (n, r) => Some (VNum n, r)
      | None => None
      end
  end.

(** Recursive descent.  [budget] bounds the depth of the calls; see
    [parse] for the budget that is always enough. *)
Fixpoint parseValue (budget : nat) (s : list ascii) {struct budget}
  : option (value * list ascii) :=
  match budget with
  | O => None
  | S n =>
      match expect "{" s, expect "[" s, expect quote s with
      | Some r, _, _ =>
          match expect "}" r with
          | Some r' => Some (VObj [], r')
          | None => parseMembers n [] r
          end
      | None, Some r, _ =>
          match expect "]" r with
          | Some r' => Some (VArr [], r')
          | None => parseItems n [] r
          end
      | None, None, Some r =>
          match stringBody r with
          | Some (body, rest) => Some (VStr (str body), rest)
          | None => None
          end
      | None, None, None => keyword (skip s)
      end
  end
with parseMembers (budget : nat) (acc : obj) (s : list ascii) {struct budget}
  : option (value * list ascii) :=
  match budget with
  | O => None
  | S n =>
      match expect quote s with
      | Some r =>
          match stringBody r with
          | Some (key, r1) =>
              match expect ":" r1 with
              | Some r2 =>
                  match parseValue n r2 with
                  | Some (v, r3) =>
                      let acc' := set_field (str key) v acc in
                      match expect "," r3, expect "}" r3 with
                      | Some r4, _ => parseMembers n acc' r4
                      | None, Some r4 => Some (VObj acc', r4)
                      | None, None => None
                      end
                  | None => None
                  end
              | None => None
              end
          | None => None
          end
      | None => None
      end
  end
with parseItems (budget : nat) (acc : list value) (s : list ascii) {struct budget}
  : option (value * list ascii) :=
  match budget with
  | O => None
  | S n =>
      match parseValue n s with
      | Some (v, r1) =>
          match expect "," r1, expect "]" r1 with
          | Some r2, _ => parseItems n (v :: acc) r2
          | None, Some r2 => Some (VArr (rev (v :: acc)), r2)
          | None, None => None
          end
      | None => None
      end
  end.

Definition parseWith (budget : nat) (s : list ascii) : result value :=
  match parseValue budget s with
  | Some (v, rest) =>
      match skip rest with
      | [] => Ok v
      | _ :: _ => Throw SyntaxError
      end
  | None => Throw SyntaxError
  end.

(** [JSON.parse(s)].  A value takes a call for itself and one for the
    array or object it is in, and it has at least one character, so twice
    the length of the text, and one, is a budget that no text exhausts. *)
Definition parse (s : string) : result value :=
  parseWith (2 * List.length (chars s) + 1) (chars s).

End JSON.

(** ** [Number(v)] *)

(** The values whose conversion to text throws: an object with an own
    [toString] property (a JSON value, which cannot be called), or an array
    that holds one. *)
Fixpoint unprintable (v : value) : bool :=
  match v with
  | VObj fields => has_key "toString" fields
  | VArr items => existsb unprintable items
  | _ => false
  end.

(** [ToNumber] of a JSON value.  An array converts through its
    comma-joined text, an object through ["[object Object]"]; an object
    with an own [toString] property, which cannot be called, makes the
    conversion throw. *)
Fixpoint ToNumber (v : value) : result number :=
  match v with
  | VNull => Ok (Fin 0)
  | VBool b => Ok (Fin (if b then 1 else 0))
  | VNum n => Ok (Fin n)
  | VStr s => Ok (Lit.StringToNumber (chars s))
  | VObj fields => if has_key "toString" fields then Throw TypeError else Ok NaN
  | VArr items =>
      if existsb unprintable items then Throw TypeError
      else
        match items with
        | [] => Ok (Fin 0)
        | [VNull] => Ok (Fin 0)
        | [VBool _] => Ok NaN
        | [x] => ToNumber x
        | _ :: _ :: _ => Ok NaN
        end
  end.

(** * The program *)

(** ** The JSON "database" *)

Record db : Type := mkDb {
  users : list obj;
  menus : list obj
}.

(** The file [db.json]: absent, present but not readable as JSON, or
    holding a database. *)
Inductive dbfile : Type :=
| Missing
| Unreadable
| Stored (d : db).

(** Code that reads and writes the file and may throw. *)
Definition M (A : Type) : Type := dbfile -> result A * dbfile.

Definition ret {A} (a : A) : M A := fun f => (Ok a, f).

Definition throw {A} (e : error) : M A := fun f => (Throw e, f).

Definition bind {A B} (m : M A) (k : A -> M B) : M B :=
  fun f =>
    match m f with
    | (Ok a, f') => k a f'
    | (Throw e, f') => (Throw e, f')
    end.

Definition lift {A} (r : result A) : M A := fun f => (r, f).

Notation "x <- m ;; k" := (bind m (fun x => k))
  (at level 61, m at next level, right associativity).
Notation "m ;;; k" := (bind m (fun _ => k))
  (at level 61, right associativity).

Definition emptyDb : db := mkDb [] [].

(** [readDb], lines 68-84: a missing file is created empty, an unreadable
    one is read as empty and left alone. *)
Definition readDb : M db :=
  fun f =>
    match f with
    | Stored d => (Ok d, f)
    | Missing => (Ok emptyDb, Stored emptyDb)
    | Unreadable => (Ok emptyDb, Unreadable)
    end.

Definition writeDb (d : db) : M unit :=
  fun _ => (Ok tt, Stored d).

(** [(r) => r.email === email] *)
Definition hasEmail (email : value) (record : obj) : bool :=
  match assoc "email" record with
  | Some e => strict_eq e email
  | None => false
  end.

(** [findUser], lines 90-93. *)
Definition findUser (email : value) : M (option obj) :=
  d <- readDb ;;
  ret (find (hasEmail email) (users d)).

(** [a > b] on numbers that are not [NaN]. *)
Definition gt (a b : Q) : bool :=
  match (a ?= b)%Q with
  | Gt => true
  | _ => false
  end.

(** [(max, m) => (typeof m.version === 'number' && m.version > max ?
    m.version : max)] *)
Definition laterVersion (max : Q) (m : obj) : Q :=
  match assoc "version" m with
  | Some (VNum v) => if gt v max then v else max
  | _ => max
  end.

(** The [reduce] of [getNextMenuVersion]. *)
Definition maxVersion (menus : list obj) : Q :=
  fold_left laterVersion menus 0%Q.

(** [getNextMenuVersion], lines 103-111. *)
Definition getNextMenuVersion (email : value) : M Q :=
  d <- readDb ;;
  let menus := filter (hasEmail email) (menus d) in
  ret (B64.plusOne (maxVersion menus)).

(** [saveMenu], lines 113-117. *)
Definition saveMenu (menu : obj) : M unit :=
  d <- readDb ;;
  writeDb (mkDb (users d) (menus d ++ [menu])).

(** ** Calorie helpers *)

Declare Scope num_scope.
Delimit Scope num_scope with num.
Bind Scope num_scope with number.
Infix "+" := Num.add : num_scope.
Infix "-" := Num.sub : num_scope.
Infix "*" := Num.mul : num_scope.
Infix "/" := Num.div : num_scope.

(** [approximateAge], lines 121-133.  A truthy [ageRange] that is not a
    string has no [includes] to call, or, when it is an array that includes
    ["-"], no [split]. *)
Definition approximateAge (ageRange : option value) : result number :=
  if negb (truthy_opt ageRange) then Ok (Fin 30)
  else
    match ageRange with
    | Some (VStr s) =>
        if Str.includes (chars "-") (chars s) then
          match Str.split "-" (chars s) with
          | from :: to :: _ =>
              if String.eqb (str to) "+" then
                Ok (Lit.StringToNumber from + Fin 5)%num
              else
                let f := Lit.StringToNumber from in
                let t := Lit.StringToNumber to in
                if negb (Num.isNaN f) && negb (Num.isNaN t) then
                  Ok (Num.round ((f + t) / Fin 2))%num
                else Ok (Fin 30)
          | _ =>
              (* [to] is [undefined] and converts to [NaN] *)
              Ok (Fin 30)
          end
        else Ok (Fin 30)
    | Some (VArr items) =>
        if existsb (fun x => strict_eq x (VStr "-")) items then Throw TypeError
        else Ok (Fin 30)
    | _ => Throw TypeError
    end.

(** [activityFactor], lines 135-150. *)
Definition activityFactor (level : option value) : Q :=
  if is_str level "Sedentary - 0 hours/week" then 1.2
  else if is_str level "Light - 0-1 hour/week" then 1.375
  else if is_str level "Moderate - 1-2 hours/week" then 1.55
  else if is_str level "Active - 2-4 hours/week" then 1.725
  else if is_str level "Very Active - 4+ hours/week" then 1.9
  else 1.4.

Declare Scope b64_scope.
Delimit Scope b64_scope with b64.
Arguments B64.add (a b)%_b64.
Arguments B64.sub (a b)%_b64.
Arguments B64.mul (a b)%_b64.
Arguments B64.div (a b)%_b64.
Infix "+" := B64.add : b64_scope.
Infix "-" := B64.sub : b64_scope.
Infix "*" := B64.mul : b64_scope.
Infix "/" := B64.div : b64_scope.

(** The arithmetic of [calculateDailyCalories] for a weight, a height and
    an age that have been read: every operation within the range of
    binary64. *)
Definition caloriesOf (profile : value) (weight height age : number) : number :=
  let gender := or_else (get profile "gender") (VStr "Other") in
  let bmr :=
    (if strict_eq gender (VStr "Male") then
       Fin 10 * weight + Fin 6.25 * height - Fin 5 * age + Fin 5
     else if strict_eq gender (VStr "Female") then
       Fin 10 * weight + Fin 6.25 * height - Fin 5 * age - Fin 161
     else
       let male := Fin 10 * weight + Fin 6.25 * height - Fin 5 * age + Fin 5 in
       let female := Fin 10 * weight + Fin 6.25 * height - Fin 5 * age - Fin 161 in
       (male + female) / Fin 2)%b64 in
  let calories := (bmr * Fin (activityFactor (get profile "activityLevel")))%b64 in
  let calories :=
    (if is_str (get profile "goal") "Lose weight" then calories * Fin 0.8
     else if is_str (get profile "goal") "Gain weight" then calories * Fin 1.15
     else calories)%b64 in
  B64.clip (Num.round calories).

(** [calculateDailyCalories], lines 152-175.  No property of [null] can be
    read. *)
Definition calculateDailyCalories (profile : value) : result number :=
  match profile with
  | VNull => Throw TypeError
  | _ =>
      let! age := approximateAge (get profile "ageRange") in
      let! weight := ToNumber (or_else (get profile "weightKg") (VNum 70)) in
      let! height := ToNumber (or_else (get profile "heightCm") (VNum 170)) in
      Ok (caloriesOf profile (B64.clip weight) (B64.clip height) (B64.clip age))
  end.

(** ** Response extractor *)

Definition stripFences (s : list ascii) : list ascii :=
  Str.removeAll false (chars "```") (Str.removeAll true (chars "```json") s).

(** [text.replace(/```json/gi, '').replace(/```/g, '').trim()] *)
Definition cleanedText (s : string) : list ascii :=
  Str.trim (stripFences (chars s)).

(** The delimiter of a Markdown code fence. *)
Definition fence : list ascii := chars "```".

(** [extractJsonFromText], lines 178-190: extract JSON between the first
    opening and the last closing brace. *)
Definition extractJsonFromText (text : value) : result value :=
  match text with
  | VStr s =>
      if String.eqb s "" then Throw (Error "AI response is empty or not a string")
      else
        let cleaned := cleanedText s in
        match Str.indexOf "{" cleaned, Str.lastIndexOf "}" cleaned with
        | Some first, Some last =>
            if (last <=? first)%nat then
              Throw (Error "Could not locate JSON object in AI response")
            else
              let jsonStr := Str.slice first (last + 1) cleaned in
              JSON.parse (str jsonStr)
        | _, _ => Throw (Error "Could not locate JSON object in AI response")
        end
  | _ => Throw (Error "AI response is empty or not a string")
  end.

(** ** Menu generation *)

Definition meal (type name description : string) (calories : Q) : value :=
  VObj [("type", VStr type); ("name", VStr name);
        ("description", VStr description); ("calories", VNum calories)].

Definition item (product quantity : string) : value :=
  VObj [("product", VStr product); ("quantity", VStr quantity)].

Definition day (dayIndex : Q) (label : string) (meals shoppingItems : list value)
  : value :=
  VObj [("dayIndex", VNum dayIndex); ("label", VStr label);
        ("meals", VArr meals); ("shoppingItems", VArr shoppingItems)].

(** The literal of the [catch (aiErr)] block, lines 488-554. *)
Definition fallbackDays : list value :=
  [ day 1 "Day 1"
      [ meal "Breakfast" "Oatmeal with berries"
          "Wholegrain oats with milk and frozen berries." 400;
        meal "Lunch" "Grilled chicken salad"
          "Chicken breast with mixed salad and olive oil." 550;
        meal "Dinner" "Salmon with vegetables"
          "Baked salmon with broccoli and potatoes." 650 ]
      [ item "Oats" "500 g"; item "Milk" "1 L";
        item "Chicken breast" "300 g"; item "Mixed salad" "1 pack";
        item "Salmon fillet" "300 g"; item "Broccoli" "400 g" ];
    day 2 "Day 2"
      [ meal "Breakfast" "Greek yogurt with granola"
          "Low-fat yogurt with granola and banana." 400;
        meal "Lunch" "Turkey wrap with veggies"
          "Tortilla wrap with turkey and vegetables." 550;
        meal "Dinner" "Stir-fried tofu with rice"
          "Tofu with vegetables and brown rice." 650 ]
      [ item "Greek yogurt" "500 g"; item "Granola" "200 g";
        item "Banana" "3 pcs"; item "Turkey slices" "200 g";
        item "Tortillas" "4 pcs"; item "Tofu" "200 g";
        item "Brown rice" "500 g" ] ].

Definition fallbackWarning : string :=
  "Using fallback menu because Gemini API request failed. Check your GEMINI_API_KEY, model name and quota.".

(** The provider as one request sees it: [None] when the client [ai] is
    [null] (no [GEMINI_API_KEY]); otherwise the outcome of awaiting
    [ai.models.generateContent], a rejection or a response whose [text] is a
    string or [undefined].  The prompt, which embeds the profile, the
    calorie target, the version and a random tag, reaches nothing but the
    provider. *)
Definition provider : Type := option (result (option string)).

(** The check and the two assignments that follow
    [extractJsonFromText] inside the inner [try], lines 474-481; the
    second component is [parsed.version] when it is a number. *)
Definition acceptParsed (parsed : value) : result (list value * option Q) :=
  if negb (truthy parsed) then
    Throw (Error (dq "Parsed JSON has no 'days' array."))
  else
    match get parsed "days" with
    | Some (VArr days) =>
        Ok (days,
            match get parsed "version" with
            | Some (VNum v) => Some v
            | _ => None
            end)
    | _ => Throw (Error (dq "Parsed JSON has no 'days' array."))
    end.

(** [String(rawText || '')] for a [rawText] that is a string or
    [undefined]. *)
Definition stringOrEmpty (rawText : option string) : string :=
  match rawText with
  | Some t => t
  | None => ""
  end.

(** The body of the inner [try], lines 462-481. *)
Definition askProvider (reply : result (option string))
  : result (list value * option Q) :=
  let! rawText := reply in
  let! parsed := extractJsonFromText (VStr (stringOrEmpty rawText)) in
  acceptParsed parsed.

(** A number as [JSON.stringify] writes it, in [db.json] and in the
    response: [NaN] and the infinities become [null]. *)
Definition jsonOfNumber (n : number) : value :=
  match n with
  | Fin x => VNum x
  | _ => VNull
  end.

(** [const { [k]: _ignored, ...rest } = o] *)
Definition without (k : string) (o : obj) : obj :=
  filter (fun kv => negb (String.eqb (fst kv) k)) o.

Inductive response : Type :=
| Reply (status : nat) (body : value).

Definition errorBody (message : string) : value :=
  VObj [("error", VStr message)].

(** A value as [JSON.stringify] writes it, in [db.json] and in the
    response: a number beyond the range of binary64, which is an infinity,
    becomes [null]. *)
Fixpoint storedValue (v : value) : value :=
  match v with
  | VNum q => jsonOfNumber (B64.fit q)
  | VArr items => VArr (map storedValue items)
  | VObj fields => VObj (map (fun kv => (fst kv, storedValue (snd kv))) fields)
  | other => other
  end.

(** A value all of whose numbers are within the range of binary64. *)
Fixpoint inRange (v : value) : bool :=
  match v with
  | VNum q => B64.fits q
  | VArr items => forallb inRange items
  | VObj fields => forallb (fun kv => inRange (snd kv)) fields
  | _ => true
  end.

(** A value whose conversion to text throws, or [false] for
    [undefined]. *)
Definition unprintable_opt (v : option value) : bool :=
  match v with
  | Some x => unprintable x
  | None => false
  end.

(** The template literal [prompt], lines 384-452: its text reaches the
    provider only, but the conversion to text of the six profile fields
    that it quotes can throw. *)
Definition promptFields : list string :=
  ["goal"; "ageRange"; "gender"; "heightCm"; "weightKg"; "activityLevel"].

Definition prompt (profile : value) : result unit :=
  if existsb (fun k => unprintable_opt (get profile k)) promptFields
  then Throw TypeError
  else Ok tt.

(** The inner [try]/[catch]: the days, the final version and the warning
    that the handler goes on with. *)
Definition planMenu (reply : result (option string)) (version : Q)
  : list value * Q * option string :=
  match askProvider reply with
  | Ok (days, Some v) => (days, v, None)
  | Ok (days, None) => (days, version, None)
  | Throw aiErr => (fallbackDays, version, Some fallbackWarning)
  end.

(** The object literal [menu] and the optional [menu.warning], lines
    557-564, as it is written to the file and to the response. *)
Definition buildMenu (email : value) (plan : list value * Q * option string)
  (dailyCalories : number) (now : Q) : obj :=
  let '(days, finalVersion, warning) := plan in
  [("email", email); ("version", jsonOfNumber (B64.fit finalVersion));
   ("dailyCalories", jsonOfNumber dailyCalories);
   ("days", VArr (map storedValue days)); ("generatedAt", VNum now)]
  ++ match warning with
     | Some w => [("warning", VStr w)]
     | None => []
     end.

(** The body of the outer [try] of [app.post('/api/generate-weekly-menu')],
    lines 370-577.  [now] is the value of [Date.now()]. *)
Definition generateWeeklyMenuTry (ai : provider) (now : Q) (body : value)
  : M response :=
  match get body "email", get body "profile" with
  | Some email, Some profile =>
      if negb (truthy email) || negb (truthy profile) then
        ret (Reply 400 (errorBody "Email and profile are required."))
      else
        user <- findUser email ;;
        match user with
        | None => ret (Reply 404 (errorBody "User not found."))
        | Some _ =>
            dailyCalories <- lift (calculateDailyCalories profile) ;;
            version <- getNextMenuVersion email ;;
            lift (prompt profile) ;;;
            match ai with
            | None =>
                throw (Error "AI client is not configured (missing GEMINI_API_KEY).")
            | Some reply =>
                let menu :=
                  buildMenu email (planMenu reply version) dailyCalories now in
                saveMenu menu ;;;
                let clientMenu := without "email" menu in
                ret (Reply 200 (VObj clientMenu))
            end
        end
  | _, _ => ret (Reply 400 (errorBody "Email and profile are required."))
  end.

(** The handler with its outer [catch], lines 578-581: whatever is thrown
    is answered with status 500. *)
Definition generateWeeklyMenu (ai : provider) (now : Q) (body : value)
  (f : dbfile) : response * dbfile :=
  match generateWeeklyMenuTry ai now body f with
  | (Ok res, f') => (res, f')
  | (Throw err, f') =>
      (Reply 500 (errorBody "Server error generating weekly menu."), f')
  end.

(** What the file holds for the program: the result of [readDb]. *)
Definition contents (f : dbfile) : db :=
  match f with
  | Stored d => d
  | _ => emptyDb
  end.

Definition menusOf (email : value) (f : dbfile) : list obj :=
  filter (hasEmail email) (menus (contents f)).

(** A sequence of generation requests, served one after the other. *)
Record request : Type := mkRequest {
  req_ai : provider;
  req_now : Q;
  req_body : value
}.

Fixpoint serve (rs : list request) (f : dbfile) : list response * dbfile :=
  match rs with
  | [] => ([], f)
  | r :: rs' =>
      let '(res, f1) := generateWeeklyMenu (req_ai r) (req_now r) (req_body r) f in
      let '(ress, f2) := serve rs' f1 in
      (res :: ress, f2)
  end.

(** ** Scenarios and the properties under test *)

(** The profile of the specification's end-to-end scenario A. *)
Definition scenarioA : value :=
  VObj [("goal", VStr "Lose weight"); ("ageRange", VStr "25-34");
        ("gender", VStr "Male"); ("heightCm", VNum 180);
        ("weightKg", VNum 80);
        ("activityLevel", VStr "Moderate - 1-2 hours/week")].

(** A database with one registered user and no menu. *)
Definition alice : value := VStr "alice@example.org".

Definition registered : dbfile :=
  Stored (mkDb [[("email", alice); ("passwordHash", VStr "$2a$10$hash");
                 ("profile", VNull); ("createdAt", VNum 1700000000000)]] []).

Definition requestA : value :=
  VObj [("email", alice); ("profile", scenarioA)].

(** A provider reply with the given text. *)
Definition replies (t : string) : provider := Some (Ok (Some t)).

(** A provider whose call is rejected. *)
Definition rejects : provider := Some (Throw (Error "fetch failed")).

(** The calorie target is a positive integer. *)
Definition positiveInteger (r : result number) : Prop :=
  exists k : Z, (0 < k)%Z /\ r = Ok (Fin (inject_Z k)).

(** A profile field that is missing (or falsy, which the code treats
    alike) or a number satisfying [P]. *)
Definition missingOr (P : Q -> Prop) (field : option value) : Prop :=
  truthy_opt field = false \/ exists x, field = Some (VNum x) /\ P x.

Definition versionOf (menu : obj) : option Q :=
  match assoc "version" menu with
  | Some (VNum v) => Some v
  | _ => None
  end.

Definition versionsIn (ms : list obj) : list Q :=
  flat_map (fun m => match versionOf m with Some v => [v] | None => [] end) ms.

(** The numeric versions stored for a key, oldest first. *)
Definition storedVersions (email : value) (f : dbfile) : list Q :=
  versionsIn (menusOf email f).

(** The version sequencer in the words of the specification: 1 for a key
    without prior menus, the maximum stored version plus 1 otherwise. *)
Definition specNextVersion (email : value) (f : dbfile) : Q :=
  match storedVersions email f with
  | [] => 1
  | v :: vs => fold_left (fun a b => if gt b a then b else a) vs v + 1
  end%Q.

(** The version the provider's parsed reply carries, if the reply is
    accepted and has a numeric [version]. *)
Definition providerVersion (ai : provider) : option Q :=
  match ai with
  | Some reply =>
      match askProvider reply with
      | Ok (_, v) => v
      | Throw _ => None
      end
  | None => None
  end.

(** The invariant of the data model: a new menu's version exceeds every
    version stored before for the same key. *)
Definition exceedsStored (email : value) (before : dbfile) (menu : obj) : Prop :=
  exists v', versionOf menu = Some v' /\
    forall v, In v (storedVersions email before) -> (v < v')%Q.

Definition daysOf (menu : obj) : option (list value) :=
  match assoc "days" menu with
  | Some (VArr days) => Some days
  | _ => None
  end.

Definition sevenDays (menu : obj) : Prop :=
  exists days, daysOf menu = Some days /\ List.length days = 7.

(** The menu that a request appended to the file, if it did. *)
Definition persisted (before after : dbfile) (menu : obj) : Prop :=
  menus (contents after) = menus (contents before) ++ [menu] /\
  users (contents after) = users (contents before).

(** The menu that a request stores for a registered key. *)
Definition menuFor (email : value) (reply : result (option string))
  (dailyCalories : number) (now : Q) (f : dbfile) : obj :=
  buildMenu email (planMenu reply (B64.plusOne (maxVersion (menusOf email f))))
            dailyCalories now.

(** * The rest of the server *)

(** ** User records *)

(** [a === b] where either side may be [undefined]. *)
Definition strict_eq_opt (a b : option value) : bool :=
  match a, b with
  | Some x, Some y => strict_eq x y
  | None, None => true
  | _, _ => false
  end.

(** [l.findIndex(p)], [None] for -1. *)
Fixpoint findIndex {A} (p : A -> bool) (l : list A) : option nat :=
  match l with
  | [] => None
  | x :: l' => if p x then Some 0 else option_map S (findIndex p l')
  end.

(** [l[i] = x] for an index within the list. *)
Fixpoint setAt {A} (i : nat) (x : A) (l : list A) : list A :=
  match l, i with
  | [], _ => []
  | _ :: l', O => x :: l'
  | y :: l', S i' => y :: setAt i' x l'
  end.

(** [(u) => u.email === user.email] *)
Definition sameEmail (user u : obj) : bool :=
  strict_eq_opt (assoc "email" u) (assoc "email" user).

(** The users after [saveUser]: the first record with the user's email is
    replaced, or the user is added at the end. *)
Definition upsert (user : obj) (users : list obj) : list obj :=
  match findIndex (sameEmail user) users with
  | None => users ++ [user]
  | Some idx => setAt idx user users
  end.

(** [saveUser], lines 95-101. *)
Definition saveUser (user : obj) : M unit :=
  d <- readDb ;;
  writeDb (mkDb (upsert user (users d)) (menus d)).

(** ** Account routes *)

(** A property of an object literal that [JSON.stringify] leaves out when
    its value is [undefined]. *)
Definition field (k : string) (v : option value) : obj :=
  match v with
  | Some x => [(k, x)]
  | None => []
  end.

(** [{ user: { email: user.email, profile } }] *)
Definition userBody (user : obj) (profile : value) : value :=
  VObj [("user", VObj (field "email" (assoc "email" user) ++ [("profile", profile)]))].

(** Runs the body of a route inside its [try]; whatever is thrown is
    answered with status 500 and the route's message. *)
Definition route (message : string) (body : M response) (f : dbfile)
  : response * dbfile :=
  match body f with
  | (Ok res, f') => (res, f')
  | (Throw err, f') => (Reply 500 (errorBody message), f')
  end.

(** [Number(v)] for a [v] that may be [undefined]. *)
Definition ToNumberOpt (v : option value) : result number :=
  match v with
  | Some x => ToNumber x
  | None => Ok NaN
  end.

(** The object assigned to [user.profile] in [PUT /api/profile], lines
    342-349, as it is written to the file and to the response. *)
Definition profileRecord (profile : value) : result value :=
  let! heightCm := ToNumberOpt (get profile "heightCm") in
  let! weightKg := ToNumberOpt (get profile "weightKg") in
  let written k := option_map storedValue (get profile k) in
  Ok (VObj (field "goal" (written "goal")
            ++ field "ageRange" (written "ageRange")
            ++ field "gender" (written "gender")
            ++ [("heightCm", jsonOfNumber (B64.clip heightCm));
                ("weightKg", jsonOfNumber (B64.clip weightKg))]
            ++ field "activityLevel" (written "activityLevel"))).

Section Accounts.

(** [bcrypt.hash(password, 10)] and [bcrypt.compare(password, hash)], each
    a value or a rejection. *)
Variable hash : value -> result string.
Variable compare : value -> option value -> result bool.

(** [app.post('/api/auth/register')], lines 244-275. *)
Definition register (now : Q) (body : value) : dbfile -> response * dbfile :=
  route "Server error during registration."
    (if negb (truthy_opt (get body "email")) || negb (truthy_opt (get body "password"))
     then ret (Reply 400 (errorBody "Email and password are required."))
     else
       match get body "email", get body "password" with
       | Some email, Some password =>
           existing <- findUser email ;;
           match existing with
           | Some _ =>
               ret (Reply 400 (errorBody "User with this email already exists."))
           | None =>
               passwordHash <- lift (hash password) ;;
               let user :=
                 [("email", email); ("passwordHash", VStr passwordHash);
                  ("profile", VNull); ("createdAt", VNum now)] in
               saveUser user ;;;
               ret (Reply 201 (userBody user VNull))
           end
       | _, _ => ret (Reply 400 (errorBody "Email and password are required."))
       end).

(** [app.post('/api/auth/login')], lines 278-305. *)
Definition login (body : value) : dbfile -> response * dbfile :=
  route "Server error during login."
    (if negb (truthy_opt (get body "email")) || negb (truthy_opt (get body "password"))
     then ret (Reply 400 (errorBody "Email and password are required."))
     else
       match get body "email", get body "password" with
       | Some email, Some password =>
           user <- findUser email ;;
           match user with
           | None => ret (Reply 401 (errorBody "Invalid email or password."))
           | Some user =>
               ok <- lift (compare password (assoc "passwordHash" user)) ;;
               if negb ok then
                 ret (Reply 401 (errorBody "Invalid email or password."))
               else
                 ret (Reply 200 (userBody user (or_else (assoc "profile" user) VNull)))
           end
       | _, _ => ret (Reply 400 (errorBody "Email and password are required."))
       end).

End Accounts.

(** [app.get('/api/auth/user')], lines 308-328; [email] is
    [req.query.email]. *)
Definition getUser (email : option value) : dbfile -> response * dbfile :=
  route "Server error loading user."
    (match email with
     | Some email =>
         if negb (truthy email) then
           ret (Reply 400 (errorBody "Email query parameter is required."))
         else
           user <- findUser email ;;
           match user with
           | None => ret (Reply 404 (errorBody "User not found."))
           | Some user =>
               ret (Reply 200 (userBody user (or_else (assoc "profile" user) VNull)))
           end
     | None => ret (Reply 400 (errorBody "Email query parameter is required."))
     end).

(** [app.put('/api/profile')], lines 331-363. *)
Definition updateProfile (body : value) : dbfile -> response * dbfile :=
  route "Server error updating profile."
    (match get body "email", get body "profile" with
     | Some email, Some profile =>
         if negb (truthy email) || negb (truthy profile) then
           ret (Reply 400 (errorBody "Email and profile are required."))
         else
           user <- findUser email ;;
           match user with
           | None => ret (Reply 404 (errorBody "User not found."))
           | Some user =>
               stored <- lift (profileRecord profile) ;;
               let user := set_field "profile" stored user in
               saveUser user ;;;
               ret (Reply 200 (userBody user stored))
           end
     | _, _ => ret (Reply 400 (errorBody "Email and profile are required."))
     end).

(** ** Requests to the server *)

Inductive call : Type :=
| Register (now : Q) (body : value)
| Login (body : value)
| GetUser (email : option value)
| UpdateProfile (body : value)
| GenerateWeeklyMenu (ai : provider) (now : Q) (body : value).

Section Server.

Variable hash : value -> result string.
Variable compare : value -> option value -> result bool.

Definition handle (c : call) : dbfile -> response * dbfile :=
  match c with
  | Register now body => register hash now body
  | Login body => login compare body
  | GetUser email => getUser email
  | UpdateProfile body => updateProfile body
  | GenerateWeeklyMenu ai now body => generateWeeklyMenu ai now body
  end.

(** Requests that are served one after the other, none starting before
    the one before it has been answered. *)
Fixpoint run (cs : list call) (f : dbfile) : list response * dbfile :=
  match cs with
  | [] => ([], f)
  | c :: cs' =>
      let '(res, f1) := handle c f in
      let '(ress, f2) := run cs' f1 in
      (res :: ress, f2)
  end.

End Server.

(** The email of a registration is written to the file as it is: it
    holds no number beyond the range of binary64, which is written as
    [null]. *)
Definition emailAsWritten (c : call) : Prop :=
  match c with
  | Register _ body =>
      match get body "email" with
      | Some email => storedValue email = email
      | None => True
      end
  | _ => True
  end.

(** No two user records have the same email. *)
Definition distinctEmails (users : list obj) : Prop :=
  ForallOrdPairs (fun a b => sameEmail a b = false) users.

(** The password hash stored for an email, if the email is registered. *)
Definition credentials (email : value) (f : dbfile) : option (option value) :=
  option_map (assoc "passwordHash") (find (hasEmail email) (users (contents f))).

(** The status of a response. *)
Definition status (r : response) : nat :=
  match r with
  | Reply s _ => s
  end.

Definition bodyOf (r : response) : value :=
  match r with
  | Reply _ b => b
  end.

(** The requests to the routes that only read: login and user lookup. *)
Definition readOnly (c : call) : bool :=
  match c with
  | Login _ | GetUser _ => true
  | _ => false
  end.

(** A request that stores a menu: a generation request answered with
    status 200. *)
Definition stores (c : call) (r : response) : bool :=
  match c with
  | GenerateWeeklyMenu _ _ _ => Nat.eqb (status r) 200
  | _ => false
  end.

(** The number of requests of [cs], answered with [rs], that store a
    menu. *)
Definition stored (cs : list call) (rs : list response) : nat :=
  List.length (filter (fun cr => stores (fst cr) (snd cr)) (combine cs rs)).

(** The email of a generation request. *)
Definition requester (c : call) : option value :=
  match c with
  | GenerateWeeklyMenu _ _ body => get body "email"
  | _ => None
  end.

(** The property names of an object. *)
Definition keys (v : value) : list string :=
  match v with
  | VObj fields => map fst fields
  | _ => []
  end.

(** A provider reply [s] inside a Markdown code fence with the language
    tag [tag]. *)
Definition fenced (tag s : string) : string :=
  String.append "```"
    (String.append tag
       (String.append nl (String.append s (String.append nl "```")))).

(** ** The calorie target in closed form *)

(** The constant of the Mifflin-St Jeor formula: 5 for "Male", -161 for
    "Female", their mean otherwise. *)
Definition genderOffset (gender : option value) : Q :=
  let gender := or_else gender (VStr "Other") in
  if strict_eq gender (VStr "Male") then 5
  else if strict_eq gender (VStr "Female") then -161
  else -78.

Definition goalFactor (goal : option value) : Q :=
  if is_str goal "Lose weight" then 0.8
  else if is_str goal "Gain weight" then 1.15
  else 1.

(** The target before rounding, for a weight, a height and an age that
    are numbers. *)
Definition rawCalories (profile : value) (w h a : Q) : Q :=
  ((10 * w + 6.25 * h - 5 * a + genderOffset (get profile "gender"))
   * activityFactor (get profile "activityLevel")
   * goalFactor (get profile "goal"))%Q.

(** A profile with the field [k] set to [v]. *)
Definition withField (k : string) (v : value) (fields : obj) : value :=
  VObj (set_field k v fields).

(** A value that is not an array or an object, or no value at all. *)
Definition primitive (v : option value) : Prop :=
  match v with
  | Some (VArr _) | Some (VObj _) => False
  | _ => True
  end.

(** * The client, [src/App.jsx] *)

(** ** Profile form *)

(** The options of the four [select] elements of [renderProfile]. *)
Definition goalOptions : list string :=
  ["Lose weight"; "Maintain weight"; "Gain weight"].

Definition ageRangeOptions : list string :=
  ["18-24"; "25-34"; "35-44"; "45-54"; "55-64"; "65+"].

Definition genderOptions : list string := ["Male"; "Female"; "Other"].

Definition activityLevelOptions : list string :=
  ["Sedentary - 0 hours/week"; "Light - 0-1 hour/week";
   "Moderate - 1-2 hours/week"; "Active - 2-4 hours/week";
   "Very Active - 4+ hours/week"].

(** [Number(s)] for the text of an input. *)
Definition numberOf (s : string) : number :=
  B64.clip (Lit.StringToNumber (chars s)).

(** The profile that [handleSaveProfile] and [handleGenerateMenu] send, as
    the server reads it from the request body; nothing is sent while a field
    of the form is empty. *)
Definition formProfile (goal ageRange gender height weight activityLevel : string)
  : option value :=
  if String.eqb goal "" || String.eqb ageRange "" || String.eqb gender ""
     || String.eqb height "" || String.eqb weight ""
     || String.eqb activityLevel ""
  then None
  else
    Some (VObj [("goal", VStr goal); ("ageRange", VStr ageRange);
                ("gender", VStr gender);
                ("heightCm", jsonOfNumber (numberOf height));
                ("weightKg", jsonOfNumber (numberOf weight));
                ("activityLevel", VStr activityLevel)]).

(** What the form accepts: an option of each [select], a height between
    the [min] and [max] of its input, and a weight between those of its
    own. *)
Definition formAccepts (goal ageRange gender height weight activityLevel : string)
  (h w : Q) : Prop :=
  In goal goalOptions /\ In ageRange ageRangeOptions /\
  In gender genderOptions /\ In activityLevel activityLevelOptions /\
  numberOf height = Fin h /\ (120 <= h <= 230)%Q /\
  numberOf weight = Fin w /\ (30 <= w <= 250)%Q.

(** ** Menu state *)

(** [v.k] for a property name [k] that no prototype defines: a property
    of [null] cannot be read. *)
Definition prop (v : value) (k : string) : result (option value) :=
  match v with
  | VNull => Throw TypeError
  | _ => Ok (get v k)
  end.

(** The decimal digits of [n] in front of [acc]. *)
Fixpoint decimalDigits (fuel n : nat) (acc : string) : string :=
  match fuel with
  | O => acc
  | S fuel' =>
      let acc' := String (ascii_of_nat (48 + n mod 10)) acc in
      if (n <? 10)%nat then acc' else decimalDigits fuel' (n / 10) acc'
  end.

(** The property name of the index [n]. *)
Definition indexKey (n : nat) : string := decimalDigits (S n) n "".

Definition indexed (items : list value) : obj :=
  combine (map indexKey (seq 0 (List.length items))) items.

(** The characters of a string, each a string of its own.  Text is held
    as bytes, so these are the characters of ASCII text. *)
Definition characters (s : string) : list value :=
  map (fun c => VStr (String c "")) (chars s).

(** The own properties that [{ ...v }] copies: those of an object, the
    elements of an array and the characters of a string under their
    indices, and nothing for any other value. *)
Definition spread (v : value) : obj :=
  match v with
  | VObj fields => fields
  | VArr items => indexed items
  | VStr s => indexed (characters s)
  | _ => []
  end.

(** [l.map(f)] for an [f] that may throw. *)
Fixpoint mapResult {A B} (f : A -> result B) (l : list A) : result (list B) :=
  match l with
  | [] => Ok []
  | x :: l' =>
      let! y := f x in
      let! ys := mapResult f l' in
      Ok (y :: ys)
  end.

(** [v.map(f)]: only an array has a [map] to call. *)
Definition mapArray (v : value) (f : value -> result value)
  : result (list value) :=
  match v with
  | VArr items => mapResult f items
  | _ => Throw TypeError
  end.

(** [{ ...item, bought: false }] *)
Definition unbought (item : value) : value :=
  VObj (set_field "bought" (VBool false) (spread item)).

(** The function mapped over the days in [handleGenerateMenu], lines
    841-847. *)
Definition enhanceDay (day : value) : result value :=
  let! shoppingItems := prop day "shoppingItems" in
  let! items :=
    mapArray (or_else shoppingItems (VArr [])) (fun item => Ok (unbought item)) in
  Ok (VObj (set_field "shoppingItems" (VArr items) (spread day))).

(** The menu that [handleGenerateMenu] puts into the state for the
    response [data], lines 840-852. *)
Definition enhance (data : value) : result value :=
  let! days := prop data "days" in
  let! enhancedDays := mapArray (or_else days (VArr [])) enhanceDay in
  Ok (VObj (set_field "days" (VArr enhancedDays) (spread data))).

(** [[...v]]: the elements of an array or the characters of a string;
    nothing else that is truthy can be iterated. *)
Definition iterate (v : value) : result (list value) :=
  match v with
  | VArr items => Ok items
  | VStr s => Ok (characters s)
  | _ => Throw TypeError
  end.

(** [{ ...d, shoppingItems: [...(d.shoppingItems || [])] }], as the
    copied properties and the copied items. *)
Definition cloneDay (d : value) : result (obj * list value) :=
  let! shoppingItems := prop d "shoppingItems" in
  let! items := iterate (or_else shoppingItems (VArr [])) in
  Ok (spread d, items).

(** The object that a copied day is. *)
Definition dayObject (d : obj * list value) : value :=
  VObj (set_field "shoppingItems" (VArr (snd d)) (fst d)).

(** [{ ...item, bought: !item.bought }] for an [item] that is truthy. *)
Definition toggled (item : value) : value :=
  VObj (set_field "bought" (VBool (negb (truthy_opt (get item "bought"))))
                  (spread item)).

(** [toggleBought], lines 866-889, for the state [menu] ([null] when there
    is no menu): the state that [setMenu] is called with, or [None] where
    the function returns without calling it.  [dayIndex] is compared with
    [===]: the model covers a [dayIndex] that is not an array or an
    object, which would be compared by identity. *)
Definition toggleBought (dayIndex : option value) (itemIndex : nat)
  (menu : value) : result (option value) :=
  if negb (truthy menu) then Ok None
  else
    let! days := prop menu "days" in
    let! days :=
      match days with
      | Some (VArr days) => mapResult cloneDay days
      | _ => Throw TypeError
      end in
    match findIndex (fun d => strict_eq_opt (get (dayObject d) "dayIndex") dayIndex)
                    days with
    | None => Ok None
    | Some dayPos =>
        match nth_error days dayPos with
        | Some (fields, items) =>
            match nth_error items itemIndex with
            | Some item =>
                if negb (truthy item) then Ok None
                else
                  let items := setAt itemIndex (toggled item) items in
                  let days := setAt dayPos (fields, items) days in
                  Ok (Some (VObj (set_field "days" (VArr (map dayObject days))
                                            (spread menu))))
            | None => Ok None
            end
        | None => Ok None
        end
    end.

(** An item with a [bought] flag that satisfies [P]. *)
Definition itemWith (P : bool -> Prop) (item : value) : Prop :=
  exists fields b,
    item = VObj fields /\ assoc "bought" fields = Some (VBool b) /\ P b.

(** A day that is an object with an array of such items. *)
Definition dayWith (P : bool -> Prop) (day : value) : Prop :=
  exists fields items,
    day = VObj fields /\ assoc "shoppingItems" fields = Some (VArr items) /\
    Forall (itemWith P) items.

(** A menu that is an object with an array of such days. *)
Definition menuWith (P : bool -> Prop) (menu : value) : Prop :=
  exists fields days,
    menu = VObj fields /\ assoc "days" fields = Some (VArr days) /\
    Forall (dayWith P) days.

(** The menus of the state: every shopping item has a flag. *)
Definition ready (menu : value) : Prop := menuWith (fun _ => True) menu.

(** The items of a day that is ready, with the properties of the day. *)
Definition copyOf (day : value) : obj * list value :=
  match day with
  | VObj fields =>
      (fields,
       match assoc "shoppingItems" fields with
       | Some (VArr items) => items
       | _ => []
       end)
  | _ => ([], [])
  end.

(** [!!item.bought], as [renderShopping] reads it at line 1268, for the
    item at [itemIndex] of the day at [dayPos]. *)
Definition flagAt (dayPos itemIndex : nat) (menu : value) : option bool :=
  match get menu "days" with
  | Some (VArr days) =>
      match nth_error days dayPos with
      | Some day =>
          match get day "shoppingItems" with
          | Some (VArr items) =>
              match nth_error items itemIndex with
              | Some item => Some (truthy_opt (get item "bought"))
              | None => None
              end
          | _ => None
          end
      | None => None
      end
  | _ => None
  end.

(** The position of the first day with the index [dayIndex]. *)
Definition dayPosition (dayIndex : option value) (menu : value) : option nat :=
  match get menu "days" with
  | Some (VArr days) =>
      findIndex (fun d => strict_eq_opt (get d "dayIndex") dayIndex) days
  | _ => None
  end.

(** [v || []] is an array. *)
Definition listLike (v : option value) : bool :=
  negb (truthy_opt v) || isArray v.

(** A day that [handleGenerateMenu] can take into the state: it is not
    [null], and its [shoppingItems] are missing, falsy or an array. *)
Definition shownDay (day : value) : bool :=
  match day with
  | VNull => false
  | _ => listLike (get day "shoppingItems")
  end.

(** A menu for the examples: one day, one item. *)
Definition oneItemMenu (bought : bool) : value :=
  VObj [("version", VNum 1);
        ("days", VArr [VObj [("dayIndex", VNum 1);
                             ("shoppingItems",
                              VArr [VObj [("product", VStr "Oats");
                                          ("bought", VBool bought)]])]])].

(** Closes a goal about a route that answered with an error and wrote
    nothing. *)
Ltac refused :=
  cbn [fst snd status bodyOf ret];
  first [ split; [first [reflexivity | assumption]
                 | split; [discriminate | eexists; reflexivity]]
        | split; [discriminate | eexists; reflexivity] ].

(** A stand-in for bcrypt in the examples: the hash of a string is the
    string behind a dollar sign, anything else is an illegal argument. *)
Definition plainHash (password : value) : result string :=
  match password with
  | VStr s => Ok (String.append "$" s)
  | _ => Throw (Error "Illegal arguments")
  end.

Definition plainCompare (password : value) (hash : option value) : result bool :=
  match password, hash with
  | VStr s, Some (VStr h) => Ok (String.eqb (String.append "$" s) h)
  | _, _ => Throw (Error "Illegal arguments")
  end.

Definition credentialsOf (email password : string) : value :=
  VObj [("email", VStr email); ("password", VStr password)].

(** Closes a goal about a request that was answered without storing. *)
Ltac unchanged :=
  let H := fresh in
  intros H; injection H as _ _ <-; intros _; reflexivity.

(** Closes a goal that names the answer of a request that stored nothing. *)
Ltac answered :=
  do 3 eexists; split; [reflexivity | split; [discriminate | reflexivity]].

(** * Properties *)

(** ** The budget of the parser *)

Lemma eat_length (c : ascii) (s r : list ascii) :
  Str.eat c s = Some r -> List.length s = S (List.length r).
Proof.
  destruct s as [| x s]; simpl; [discriminate |].
  destruct (Ascii.eqb x c); [| discriminate].
  intros H. injection H as <-. reflexivity.
Qed.

Lemma strip_length (w s r : list ascii) :
  Str.strip w s = Some r -> List.length s = List.length w + List.length r.
Proof.
  revert s. induction w as [| c w IH]; intros s; simpl.
  - intros H. injection H as <-. reflexivity.
  - destruct s as [| x s]; [discriminate |].
    destruct (Ascii.eqb x c); [| discriminate].
    intros H. apply IH in H. simpl. lia.
Qed.

Lemma skip_length (s : list ascii) :
  List.length (JSON.skip s) <= List.length s.
Proof.
  induction s as [| c s IH]; simpl; [lia |].
  destruct (JSON.isSpace c); simpl; lia.
Qed.

Lemma expect_length (c : ascii) (s r : list ascii) :
  JSON.expect c s = Some r -> List.length r < List.length s.
Proof.
  unfold JSON.expect. intros H. apply eat_length in H.
  pose proof (skip_length s). lia.
Qed.

Lemma digits_length (radix : Z) (s : list ascii) :
  forall acc count m k r,
    Lit.digits radix acc count s = (m, k, r) ->
    List.length r + k = List.length s + count.
Proof.
  induction s as [| c s IH]; intros acc count m k r; simpl.
  - intros H. injection H as <- <- <-. reflexivity.
  - destruct (Lit.digitIn radix c).
    + intros H. apply IH in H. lia.
    + intros H. injection H as <- <- <-. reflexivity.
Qed.

Lemma sign_length (s r : list ascii) (negative : bool) :
  Lit.sign s = (negative, r) -> List.length r <= List.length s.
Proof.
  unfold Lit.sign.
  destruct (Str.eat "-" s) as [r1 |] eqn:E1.
  - intros H. injection H as <- <-. apply eat_length in E1. lia.
  - destruct (Str.eat "+" s) as [r2 |] eqn:E2; intros H; injection H as <- <-.
    + apply eat_length in E2. lia.
    + lia.
Qed.

Lemma exponent_length (s r : list ascii) (e : Z) :
  Lit.exponent s = Some (e, r) -> List.length r <= List.length s.
Proof.
  unfold Lit.exponent.
  assert (Hafter : forall r0,
             List.length r0 < List.length s ->
             (let '(negative, r1) := Lit.sign r0 in
              match Lit.digits 10 0 0 r1 with
              | (_, O, _) => None
              | (e, _, r2) => Some (if negative then (- e)%Z else e, r2)
              end) = Some (e, r) ->
             List.length r <= List.length s).
  { intros r0 Hr0.
    destruct (Lit.sign r0) as [negative r1] eqn:Es. apply sign_length in Es.
    destruct (Lit.digits 10 0 0 r1) as [[m k] r2] eqn:Ed.
    apply digits_length in Ed.
    destruct k; [discriminate |].
    intros H. injection H as _ <-. lia. }
  destruct (Str.eat "e" s) as [r1 |] eqn:E1.
  - apply eat_length in E1. apply Hafter. lia.
  - destruct (Str.eat "E" s) as [r2 |] eqn:E2.
    + apply eat_length in E2. apply Hafter. lia.
    + intros H. injection H as _ <-. lia.
Qed.

Lemma jsonNumber_length (s r : list ascii) (x : Q) :
  Lit.jsonNumber s = Some (x, r) -> List.length r < List.length s.
Proof.
  unfold Lit.jsonNumber.
  destruct (match Str.eat "-" s with
            | Some r0 => (true, r0)
            | None => (false, s)
            end) as [negative s1] eqn:Es.
  assert (Hs1 : List.length s1 <= List.length s).
  { destruct (Str.eat "-" s) as [r0 |] eqn:E; injection Es as <- <-;
      [apply eat_length in E |]; lia. }
  clear Es.
  destruct (match Str.eat "0" s1 with
            | Some r0 => Some (0%Z, r0)
            | None =>
                match Lit.digits 10 0 0 s1 with
                | (_, O, _) => None
                | (m, _, r0) => Some (m, r0)
                end
            end) as [[m1 r1] |] eqn:Ei; [| discriminate].
  assert (Hr1 : List.length r1 < List.length s1).
  { destruct (Str.eat "0" s1) as [r0 |] eqn:E.
    - injection Ei as <- <-. apply eat_length in E. lia.
    - destruct (Lit.digits 10 0 0 s1) as [[m k] r0] eqn:Ed.
      apply digits_length in Ed.
      destruct k; [discriminate |]. injection Ei as <- <-. lia. }
  clear Ei.
  destruct (match Str.eat "." r1 with
            | Some r0 =>
                match Lit.digits 10 m1 0 r0 with
                | (_, O, _) => None
                | found => Some found
                end
            | None => Some (m1, 0, r1)
            end) as [[[m2 k2] r2] |] eqn:Ef; [| discriminate].
  assert (Hr2 : List.length r2 <= List.length r1).
  { destruct (Str.eat "." r1) as [r0 |] eqn:E.
    - apply eat_length in E.
      destruct (Lit.digits 10 m1 0 r0) as [[m k] r3] eqn:Ed.
      apply digits_length in Ed.
      destruct k; [discriminate |]. injection Ef as <- <- <-. lia.
    - injection Ef as <- <- <-. lia. }
  clear Ef.
  destruct (Lit.exponent r2) as [[e r3] |] eqn:Ee; [| discriminate].
  apply exponent_length in Ee.
  intros H. injection H as _ <-. lia.
Qed.

Lemma stringBody_length (n : nat) :
  forall s body r,
    List.length s <= n ->
    JSON.stringBody s = Some (body, r) -> List.length r < List.length s.
Proof.
  induction n as [| n IH]; intros s body r Hn.
  - destruct s; [discriminate | simpl in Hn; lia].
  - destruct s as [| c s]; [discriminate |].
    cbn [JSON.stringBody]. simpl in Hn.
    destruct (Ascii.eqb c quote).
    { intros H. injection H as _ <-. simpl. lia. }
    destruct (Ascii.eqb c backslash).
    + destruct s as [| e r1]; [discriminate |].
      destruct (Ascii.eqb e "u").
      * destruct r1 as [| a [| b [| c' [| d r2]]]]; try discriminate.
        destruct (JSON.hex4 a b c' d); [| discriminate].
        destruct (JSON.stringBody r2) as [[body' rest] |] eqn:E; [| discriminate].
        apply IH in E; [| simpl in Hn; lia].
        intros H. injection H as _ <-. simpl. lia.
      * destruct (JSON.escape e); [| discriminate].
        destruct (JSON.stringBody r1) as [[body' rest] |] eqn:E; [| discriminate].
        apply IH in E; [| simpl in Hn; lia].
        intros H. injection H as _ <-. simpl. lia.
    + destruct (nat_of_ascii c <? 32)%nat; [discriminate |].
      destruct (JSON.stringBody s) as [[body' rest] |] eqn:E; [| discriminate].
      apply IH in E; [| lia].
      intros H. injection H as _ <-. simpl. lia.
Qed.

Lemma keyword_length (s r : list ascii) (v : value) :
  JSON.keyword s = Some (v, r) -> List.length r < List.length s.
Proof.
  unfold JSON.keyword.
  destruct (Str.strip (chars "true") s) as [r1 |] eqn:E1.
  { intros H. injection H as _ <-. apply strip_length in E1. simpl in E1. lia. }
  destruct (Str.strip (chars "false") s) as [r2 |] eqn:E2.
  { intros H. injection H as _ <-. apply strip_length in E2. simpl in E2. lia. }
  destruct (Str.strip (chars "null") s) as [r3 |] eqn:E3.
  { intros H. injection H as _ <-. apply strip_length in E3. simpl in E3. lia. }
  destruct (Lit.jsonNumber s) as [[x r4] |] eqn:E4; [| discriminate].
  intros H. injection H as _ <-. now apply jsonNumber_length in E4.
Qed.

(** A parse that succeeds with some budget leaves less text than it was
    given, and succeeds with every budget above twice the length of the
    text. *)
Lemma parse_budget (m : nat) :
  (forall s v r,
      JSON.parseValue m s = Some (v, r) ->
      List.length r < List.length s /\
      forall n, 2 * List.length s < n -> JSON.parseValue n s = Some (v, r)) /\
  (forall acc s v r,
      JSON.parseMembers m acc s = Some (v, r) ->
      List.length r < List.length s /\
      forall n, 2 * List.length s + 1 < n ->
                JSON.parseMembers n acc s = Some (v, r)) /\
  (forall acc s v r,
      JSON.parseItems m acc s = Some (v, r) ->
      List.length r < List.length s /\
      forall n, 2 * List.length s + 1 < n ->
                JSON.parseItems n acc s = Some (v, r)).
Proof.
  induction m as [| m (IHv & IHm & IHi)];
    [repeat split; intros; discriminate |].
  split; [| split].
  - intros s v r. cbn [JSON.parseValue].
    destruct (JSON.expect "{" s) as [r1 |] eqn:E1.
    { pose proof (expect_length _ _ _ E1).
      destruct (JSON.expect "}" r1) as [r2 |] eqn:E2.
      - pose proof (expect_length _ _ _ E2).
        intros Hres. injection Hres as <- <-. split; [lia |].
        intros [| n] Hn; [lia |]. cbn [JSON.parseValue]. now rewrite E1, E2.
      - intros Hres. apply IHm in Hres. destruct Hres as [Hl Hb]. split; [lia |].
        intros [| n] Hn; [lia |]. cbn [JSON.parseValue]. rewrite E1, E2.
        apply Hb. lia. }
    destruct (JSON.expect "[" s) as [r1 |] eqn:E2.
    { pose proof (expect_length _ _ _ E2).
      destruct (JSON.expect "]" r1) as [r2 |] eqn:E3.
      - pose proof (expect_length _ _ _ E3).
        intros Hres. injection Hres as <- <-. split; [lia |].
        intros [| n] Hn; [lia |]. cbn [JSON.parseValue]. now rewrite E1, E2, E3.
      - intros Hres. apply IHi in Hres. destruct Hres as [Hl Hb]. split; [lia |].
        intros [| n] Hn; [lia |]. cbn [JSON.parseValue]. rewrite E1, E2, E3.
        apply Hb. lia. }
    destruct (JSON.expect quote s) as [r1 |] eqn:E3.
    { pose proof (expect_length _ _ _ E3).
      destruct (JSON.stringBody r1) as [[body rest] |] eqn:Eb; [| discriminate].
      pose proof (stringBody_length _ _ _ _ (le_n _) Eb).
      intros Hres. injection Hres as <- <-. split; [lia |].
      intros [| n] Hn; [lia |]. cbn [JSON.parseValue]. now rewrite E1, E2, E3, Eb. }
    intros Hres. pose proof (keyword_length _ _ _ Hres). pose proof (skip_length s).
    split; [lia |].
    intros [| n] Hn; [lia |]. cbn [JSON.parseValue]. now rewrite E1, E2, E3.
  - intros acc s v r. cbn [JSON.parseMembers].
    destruct (JSON.expect quote s) as [r0 |] eqn:E0; [| discriminate].
    pose proof (expect_length _ _ _ E0).
    destruct (JSON.stringBody r0) as [[key r1] |] eqn:Ek; [| discriminate].
    pose proof (stringBody_length _ _ _ _ (le_n _) Ek).
    destruct (JSON.expect ":" r1) as [r2 |] eqn:Ec; [| discriminate].
    pose proof (expect_length _ _ _ Ec).
    destruct (JSON.parseValue m r2) as [[x r3] |] eqn:Ev; [| discriminate].
    apply IHv in Ev. destruct Ev as [Hl3 Hb3].
    destruct (JSON.expect "," r3) as [r4 |] eqn:E4.
    + pose proof (expect_length _ _ _ E4).
      intros Hres. apply IHm in Hres. destruct Hres as [Hl Hb]. split; [lia |].
      intros [| n] Hn; [lia |]. cbn [JSON.parseMembers].
      rewrite E0, Ek, Ec, (Hb3 n) by lia. rewrite E4. apply Hb. lia.
    + destruct (JSON.expect "}" r3) as [r4 |] eqn:E5; [| discriminate].
      pose proof (expect_length _ _ _ E5).
      intros Hres. injection Hres as <- <-. split; [lia |].
      intros [| n] Hn; [lia |]. cbn [JSON.parseMembers].
      rewrite E0, Ek, Ec, (Hb3 n) by lia. now rewrite E4, E5.
  - intros acc s v r. cbn [JSON.parseItems].
    destruct (JSON.parseValue m s) as [[x r1] |] eqn:Ev; [| discriminate].
    apply IHv in Ev. destruct Ev as [Hl1 Hb1].
    destruct (JSON.expect "," r1) as [r2 |] eqn:E2.
    + pose proof (expect_length _ _ _ E2).
      intros Hres. apply IHi in Hres. destruct Hres as [Hl Hb]. split; [lia |].
      intros [| n] Hn; [lia |]. cbn [JSON.parseItems].
      rewrite (Hb1 n) by lia. rewrite E2. apply Hb. lia.
    + destruct (JSON.expect "]" r1) as [r2 |] eqn:E3; [| discriminate].
      pose proof (expect_length _ _ _ E3).
      intros Hres. injection Hres as <- <-. split; [lia |].
      intros [| n] Hn; [lia |]. cbn [JSON.parseItems].
      rewrite (Hb1 n) by lia. now rewrite E2, E3.
Qed.

(** The budget of [JSON.parse] is never what makes a text fail: what any
    budget parses, [JSON.parse] parses to the same value. *)
Lemma parse_budget_enough (m : nat) (s : string) (v : value) :
  JSON.parseWith m (chars s) = Ok v -> JSON.parse s = Ok v.
Proof.
  unfold JSON.parse, JSON.parseWith.
  destruct (JSON.parseValue m (chars s)) as [[x r] |] eqn:E; [| discriminate].
  destruct (parse_budget m) as (Hv & _).
  apply Hv in E. destruct E as [_ Hb].
  rewrite Hb by lia. auto.
Qed.

Lemma parse_fails_whatever_budget (s : string) :
  JSON.parse s = Throw SyntaxError ->
  forall budget, JSON.parseWith budget (chars s) = Throw SyntaxError.
Proof.
  intros H budget.
  destruct (JSON.parseWith budget (chars s)) as [v | e] eqn:E.
  - apply parse_budget_enough in E. congruence.
  - unfold JSON.parseWith in E.
    destruct (JSON.parseValue budget (chars s)) as [[x r] |];
      [destruct (JSON.skip r) |]; congruence.
Qed.

(** ** Binary64 *)

Lemma fit_finite (q z : Q) : B64.fit q = Fin z -> z = q.
Proof.
  unfold B64.fit.
  destruct (Qle_bool _ q); [discriminate |].
  destruct (Qle_bool q _); [discriminate |].
  now intros [= <-].
Qed.

Lemma clip_finite (n : number) (z : Q) : B64.clip n = Fin z -> n = Fin z.
Proof.
  destruct n as [| q | |]; simpl; try discriminate.
  intros H. now rewrite (fit_finite _ _ H).
Qed.

(** The bound below which the numbers of the model are taken. *)
Lemma large_fits (q : Q) :
  (- (100 * B64.large) <= q <= 100 * B64.large)%Q -> B64.fit q = Fin q.
Proof.
  intros [Hlo Hhi]. unfold B64.fit.
  assert (Hl : (100 * B64.large < inject_Z B64.overflow)%Q) by reflexivity.
  assert (Ho : (inject_Z (- B64.overflow) == - inject_Z B64.overflow)%Q)
    by reflexivity.
  set (T := inject_Z B64.overflow) in *.
  set (T' := inject_Z (- B64.overflow)) in *.
  set (L := B64.large) in *.
  clearbody T T' L.
  destruct (Qle_bool T q) eqn:E1.
  { apply Qle_bool_iff in E1. lra. }
  destruct (Qle_bool q T') eqn:E2.
  { apply Qle_bool_iff in E2. lra. }
  reflexivity.
Qed.

Lemma nearestEven_integer (q : Q) (m : Z) :
  (q == inject_Z m)%Q -> B64.nearestEven q = m.
Proof.
  intros H. unfold B64.nearestEven.
  assert (Hf : Qfloor q = m) by (rewrite H; apply Qfloor_Z).
  rewrite Hf.
  assert (Hc : (q - inject_Z m ?= 1 # 2)%Q = Lt).
  { apply Qlt_alt. rewrite H. setoid_replace (inject_Z m - inject_Z m)%Q with 0%Q by ring. reflexivity. }
  now rewrite Hc.
Qed.

Lemma pow2_positive (e : Z) : (0 < B64.pow2 e)%Q.
Proof.
  unfold B64.pow2. destruct (0 <=? e)%Z eqn:E.
  - apply Z.leb_le in E. change 0%Q with (inject_Z 0). rewrite <- Zlt_Qlt.
    now apply Z.pow_pos_nonneg.
  - reflexivity.
Qed.

Lemma pow2_neg (k : Z) :
  (0 <= k)%Z -> (B64.pow2 (- k) * inject_Z (2 ^ k) == 1)%Q.
Proof.
  intros Hk. unfold B64.pow2.
  assert (Hp : (0 < 2 ^ k)%Z) by now apply Z.pow_pos_nonneg.
  destruct (0 <=? - k)%Z eqn:E.
  - apply Z.leb_le in E. assert (k = 0%Z) by lia. subst k. reflexivity.
  - rewrite Z.opp_involutive. unfold Qeq, Qmult, inject_Z.
    destruct (2 ^ k)%Z as [| p | p] eqn:Ep; try lia.
    reflexivity.
Qed.

Lemma Qred_integer (q : Q) (n : Z) : (q == inject_Z n)%Q -> Qred q = inject_Z n.
Proof.
  intros H. apply Qred_complete in H. rewrite H.
  unfold inject_Z, Qred. simpl.
  destruct (Z.ggcd n 1) as [g [a b]] eqn:E.
  pose proof (Z.ggcd_gcd n 1) as Hg. pose proof (Z.ggcd_correct_divisors n 1) as Hd.
  rewrite E in Hg, Hd. simpl in Hg, Hd. rewrite Z.gcd_1_r in Hg. subst g.
  destruct Hd as [Hn Hb]. cbn [snd].
  assert (b = 1%Z) by lia. assert (a = n) by lia. subst a b. reflexivity.
Qed.

Lemma ilog2_integer (n : Z) :
  (0 < n)%Z -> B64.ilog2 (inject_Z n) = Z.log2 n.
Proof.
  intros Hn. unfold B64.ilog2, inject_Z. simpl.
  rewrite Z.sub_0_r.
  pose proof (Z.log2_spec n Hn) as [Hlo _].
  pose proof (Z.log2_nonneg n) as Hl.
  unfold B64.pow2. apply Z.leb_le in Hl. rewrite Hl.
  replace (Qle_bool (inject_Z (2 ^ Z.log2 n)) (n # 1)%Q) with true; [reflexivity |].
  symmetry. apply Qle_bool_iff. change (n # 1)%Q with (inject_Z n).
  now rewrite <- Zle_Qle.
Qed.

(** A positive integer below [2 ^ 53] is a binary64 number. *)
Lemma roundPositive_integer (n : Z) :
  (0 < n < 2 ^ 53)%Z -> B64.roundPositive (inject_Z n) = inject_Z n.
Proof.
  intros [Hn Hhi]. unfold B64.roundPositive.
  rewrite ilog2_integer by assumption.
  assert (Hl : (0 <= Z.log2 n < 53)%Z).
  { split; [apply Z.log2_nonneg |]. apply Z.log2_lt_pow2; assumption. }
  rewrite Z.max_l by lia.
  set (k := (52 - Z.log2 n)%Z).
  replace (Z.log2 n - 52)%Z with (- k)%Z by (unfold k; lia).
  assert (Hk : (0 <= k)%Z) by (unfold k; lia).
  pose proof (pow2_neg k Hk) as Hp.
  pose proof (pow2_positive (- k)) as Hpos.
  assert (Hq : (inject_Z n / B64.pow2 (- k) == inject_Z (n * 2 ^ k))%Q
               /\ (inject_Z (n * 2 ^ k) * B64.pow2 (- k) == inject_Z n)%Q).
  { rewrite inject_Z_mult.
    set (P := B64.pow2 (- k)) in *. set (I := inject_Z (2 ^ k)) in *.
    clearbody P I. split.
    - transitivity (inject_Z n * (P * I) / P)%Q.
      + rewrite Hp. field. lra.
      + field. lra.
    - transitivity (inject_Z n * (P * I))%Q.
      + ring.
      + rewrite Hp. ring. }
  destruct Hq as [Hq Hq'].
  rewrite (nearestEven_integer _ _ Hq).
  now apply Qred_integer.
Qed.

(** Adding 1 to a safe integer that is not negative is exact, up to
    [2 ^ 53] itself. *)
Lemma plusOne_exact (q : Q) (n : Z) :
  (q == inject_Z n)%Q -> (0 <= n < 2 ^ 53)%Z ->
  B64.plusOne q = inject_Z (n + 1).
Proof.
  intros Hq [Hlo Hhi]. unfold B64.plusOne, B64.round64.
  assert (H1 : (q + 1 == inject_Z (n + 1))%Q).
  { rewrite inject_Z_plus, Hq. reflexivity. }
  assert (Hpos : (q + 1 ?= 0)%Q = Gt).
  { apply Qgt_alt. rewrite H1. change 0%Q with (inject_Z 0).
    rewrite <- Zlt_Qlt. lia. }
  rewrite Hpos, (Qred_integer _ _ H1).
  destruct (Z.eq_dec (n + 1) (2 ^ 53)) as [E | E].
  - rewrite E. reflexivity.
  - rewrite roundPositive_integer by lia.
    unfold B64.fit.
    replace (Qle_bool (inject_Z B64.overflow) (inject_Z (n + 1))) with false.
    + replace (Qle_bool (inject_Z (n + 1)) (inject_Z (- B64.overflow))) with false;
        [reflexivity |].
      symmetry. apply not_true_iff_false. rewrite Qle_bool_iff, <- Zle_Qle.
      assert (0 < B64.overflow)%Z by reflexivity. lia.
    + symmetry. apply not_true_iff_false. rewrite Qle_bool_iff, <- Zle_Qle.
      assert (2 ^ 53 < B64.overflow)%Z by reflexivity. lia.
Qed.

Lemma fit_integer (n : Z) :
  (0 <= n <= 2 ^ 53)%Z -> B64.fit (inject_Z n) = Fin (inject_Z n).
Proof.
  intros Hn. unfold B64.fit.
  replace (Qle_bool (inject_Z B64.overflow) (inject_Z n)) with false.
  - replace (Qle_bool (inject_Z n) (inject_Z (- B64.overflow))) with false;
      [reflexivity |].
    symmetry. apply not_true_iff_false. rewrite Qle_bool_iff, <- Zle_Qle.
    assert (0 < B64.overflow)%Z by reflexivity. lia.
  - symmetry. apply not_true_iff_false. rewrite Qle_bool_iff, <- Zle_Qle.
    assert (2 ^ 53 < B64.overflow)%Z by reflexivity. lia.
Qed.

(** At [2 ^ 53] adding 1 changes nothing. *)
Lemma plusOne_saturates (q : Q) :
  (q == inject_Z (2 ^ 53))%Q -> B64.plusOne q = inject_Z (2 ^ 53).
Proof.
  intros Hq. unfold B64.plusOne, B64.round64.
  assert (H1 : (q + 1 == inject_Z (2 ^ 53 + 1))%Q).
  { rewrite inject_Z_plus, Hq. reflexivity. }
  assert (Hpos : (q + 1 ?= 0)%Q = Gt) by (rewrite H1; reflexivity).
  rewrite Hpos, (Qred_integer _ _ H1). now vm_compute.
Qed.

(** ** Calorie model *)

Lemma includes_char (c : ascii) (s : list ascii) :
  Str.includes [c] s = true <-> In c s.
Proof.
  induction s as [| x s IH]; simpl.
  - split; [discriminate | tauto].
  - unfold Str.same. rewrite andb_true_r, orb_true_iff, IH.
    split; (intros [H | H]; [left | now right]).
    + apply Ascii.eqb_eq in H. now symmetry.
    + apply Ascii.eqb_eq. now symmetry.
Qed.

Lemma split_no_separator (c : ascii) (s : list ascii) :
  ~ In c s -> Str.split c s = [s].
Proof.
  induction s as [| x s IH]; intros Hn; simpl; [reflexivity |].
  rewrite IH by (intros Hin; apply Hn; now right).
  destruct (Ascii.eqb_spec x c) as [-> | _]; [| reflexivity].
  exfalso. apply Hn. now left.
Qed.

Lemma split_first (c : ascii) (a b : list ascii) :
  ~ In c a -> ~ In c b -> Str.split c (a ++ c :: b) = [a; b].
Proof.
  intros Ha Hb. induction a as [| x a IH]; simpl.
  - rewrite split_no_separator by assumption. now rewrite Ascii.eqb_refl.
  - rewrite IH by (intros Hin; apply Ha; now right).
    destruct (Ascii.eqb_spec x c) as [-> | _]; [| reflexivity].
    exfalso. apply Ha. now left.
Qed.

Lemma chars_str (l : list ascii) : chars (str l) = l.
Proof. apply list_ascii_of_string_of_list_ascii. Qed.

(** A string without dash resolves to the default age, whatever it ends
    with. *)
Lemma approximateAge_no_dash (s : string) :
  ~ In "-"%char (chars s) -> approximateAge (Some (VStr s)) = Ok (Fin 30).
Proof.
  intros Hn. unfold approximateAge.
  destruct (negb (truthy_opt (Some (VStr s)))); [reflexivity |].
  destruct (Str.includes (chars "-") (chars s)) eqn:E; [| reflexivity].
  apply includes_char in E. contradiction.
Qed.

(** Two bounds that convert to numbers, around one dash, resolve to their
    rounded midpoint. *)
Lemma approximateAge_midpoint (a b : list ascii) (x y : Q) :
  ~ In "-"%char a -> ~ In "-"%char b -> str b <> "+" ->
  Lit.StringToNumber a = Fin x -> Lit.StringToNumber b = Fin y ->
  approximateAge (Some (VStr (str (a ++ "-"%char :: b))))
  = Ok (Num.round (Fin ((x + y) / 2))).
Proof.
  intros Ha Hb Hplus Hx Hy. unfold approximateAge.
  replace (truthy_opt (Some (VStr (str (a ++ "-"%char :: b))))) with true
    by (destruct a; reflexivity).
  cbn [negb]. rewrite chars_str.
  replace (Str.includes (chars "-") (a ++ "-"%char :: b)) with true
    by (symmetry; apply includes_char, in_elt).
  rewrite split_first by assumption.
  destruct (String.eqb_spec (str b) "+"); [contradiction |].
  rewrite Hx, Hy. reflexivity.
Qed.

(** A bound that converts to a number, a dash and a plus resolve to the
    bound plus 5. *)
Lemma approximateAge_dash_plus (a : list ascii) (x : Q) :
  ~ In "-"%char a -> Lit.StringToNumber a = Fin x ->
  approximateAge (Some (VStr (str (a ++ chars "-+")))) = Ok (Fin (x + 5)).
Proof.
  intros Ha Hx. unfold approximateAge.
  replace (truthy_opt (Some (VStr (str (a ++ chars "-+"))))) with true
    by (destruct a; reflexivity).
  cbn [negb]. rewrite chars_str.
  replace (Str.includes (chars "-") (a ++ chars "-+")) with true
    by (symmetry; apply includes_char, in_elt).
  change (chars "-+") with ("-"%char :: chars "+").
  rewrite split_first; [| assumption | simpl; intuition discriminate].
  cbn [str chars list_ascii_of_string string_of_list_ascii String.eqb Ascii.eqb Bool.eqb].
  rewrite Hx. reflexivity.
Qed.

(** C4 (code evaluated at the failing input).  The age bucket "65+", the
    one the profile form offers, contains no dash, so the branch for an
    open upper bound is not reached and the age resolves to the default 30,
    not to 70; so does every bucket without dash.  The branch is reached
    only by the spelling "65-+".  The closed buckets resolve to their
    rounded midpoints. *)
Theorem approximateAge_open_bucket :
  approximateAge (Some (VStr "65+")) = Ok (Fin 30) /\
  approximateAge (Some (VStr "65-+")) = Ok (Fin 70) /\
  map (fun bucket => approximateAge (Some (VStr bucket)))
      ["18-24"; "25-34"; "35-44"; "45-54"; "55-64"]
  = map (fun age => Ok (Fin age)) [21; 30; 40; 50; 60]%Q /\
  (forall s, ~ In "-"%char (chars s) ->
             approximateAge (Some (VStr s)) = Ok (Fin 30)) /\
  (forall a x, ~ In "-"%char a -> Lit.StringToNumber a = Fin x ->
               approximateAge (Some (VStr (str (a ++ chars "-+"))))
               = Ok (Fin (x + 5))) /\
  (forall a b x y,
      ~ In "-"%char a -> ~ In "-"%char b -> str b <> "+" ->
      Lit.StringToNumber a = Fin x -> Lit.StringToNumber b = Fin y ->
      approximateAge (Some (VStr (str (a ++ "-"%char :: b))))
      = Ok (Num.round (Fin ((x + y) / 2)))).
Proof.
  split; [reflexivity |].
  split; [reflexivity |].
  split; [vm_compute; reflexivity |].
  split; [exact approximateAge_no_dash |].
  split; [exact approximateAge_dash_plus | exact approximateAge_midpoint].
Qed.

(** C4 at the bucket "75+", which has no dash, and at "18-24". *)
Lemma approximateAge_open_bucket_witness :
  approximateAge (Some (VStr "75+")) = Ok (Fin 30) /\
  approximateAge (Some (VStr "18-24"))
  = Ok (Num.round (Fin ((18 + 24) / 2))).
Proof.
  destruct approximateAge_open_bucket as (_ & _ & _ & Hnone & _ & Hmid).
  split.
  - apply Hnone. simpl. intuition discriminate.
  - apply (Hmid (chars "18") (chars "24") 18%Q 24%Q).
    + simpl. intuition discriminate.
    + simpl. intuition discriminate.
    + discriminate.
    + reflexivity.
    + reflexivity.
Defined.

(** C5 (as stated, refuted).  For scenario A the calorie target is not
    2270. *)
Lemma scenarioA_not_2270 :
  calculateDailyCalories scenarioA <> Ok (Fin 2270).
Proof. vm_compute. discriminate. Qed.

(** C5 (amended).  For scenario A the age resolves to 30 and the calorie
    target is 2207, the rounding of 1780 x 1.55 x 0.8 = 2207.2. *)
Theorem scenarioA_calories :
  approximateAge (get scenarioA "ageRange") = Ok (Fin 30) /\
  calculateDailyCalories scenarioA = Ok (Fin 2207) /\
  Num.round (Fin ((10 * 80 + 6.25 * 180 - 5 * 30 + 5) * 1.55 * 0.8)) = Fin 2207.
Proof. repeat split; vm_compute; reflexivity. Qed.

(** The bound is far above the sizes of a person. *)
Lemma large_positive : (1000 <= B64.large)%Q.
Proof. now vm_compute. Qed.

Lemma mul_large (x y : Q) :
  (- (100 * B64.large) <= x * y <= 100 * B64.large)%Q ->
  (Fin x * Fin y)%b64 = Fin (x * y).
Proof. apply large_fits. Qed.

Lemma add_large (x y : Q) :
  (- (100 * B64.large) <= x + y <= 100 * B64.large)%Q ->
  (Fin x + Fin y)%b64 = Fin (x + y).
Proof. apply large_fits. Qed.

Lemma sub_large (x y : Q) :
  (- (100 * B64.large) <= x - y <= 100 * B64.large)%Q ->
  (Fin x - Fin y)%b64 = Fin (x - y).
Proof. apply large_fits. Qed.

Lemma half_large (x : Q) :
  (- (100 * B64.large) <= x <= 100 * B64.large)%Q ->
  (Fin x / Fin 2)%b64 = Fin (x / 2).
Proof.
  intros H. apply large_fits.
  assert (x / 2 == x * (1 # 2))%Q by field.
  pose proof large_positive. lra.
Qed.

Lemma round_large (x : Q) :
  (- (99 * B64.large) <= x <= 99 * B64.large)%Q ->
  B64.clip (Num.round (Fin x)) = Fin (inject_Z (Qfloor (x + (1 # 2)))).
Proof.
  intros H. apply large_fits.
  pose proof large_positive.
  pose proof (Qfloor_le (x + (1 # 2))).
  pose proof (Qlt_floor (x + (1 # 2))) as Hlt.
  rewrite inject_Z_plus in Hlt. change (inject_Z 1) with 1%Q in Hlt.
  lra.
Qed.

(** The arithmetic of the calorie model is that of the closed form when
    weight, height and age are far inside the range of binary64. *)
Lemma caloriesOf_large (profile : value) (w h a : Q) :
  (- B64.large <= w <= B64.large)%Q ->
  (- B64.large <= h <= B64.large)%Q ->
  (- B64.large <= a <= B64.large)%Q ->
  exists x, (x == rawCalories profile w h a)%Q /\
            caloriesOf profile (Fin w) (Fin h) (Fin a)
            = Fin (inject_Z (Qfloor (x + (1 # 2)))).
Proof.
  intros Hw Hh Ha. pose proof large_positive as HL.
  unfold caloriesOf, rawCalories, genderOffset, goalFactor, activityFactor.
  cbv zeta.
  destruct (strict_eq (or_else (get profile "gender") (VStr "Other")) (VStr "Male"));
    [| destruct (strict_eq (or_else (get profile "gender") (VStr "Other"))
                           (VStr "Female"))];
    (destruct (is_str (get profile "goal") "Lose weight");
     [| destruct (is_str (get profile "goal") "Gain weight")]);
    repeat match goal with
           | |- context [if ?c then _ else _] => destruct c
           end;
    repeat first [rewrite mul_large by lra | rewrite add_large by lra
                 | rewrite sub_large by lra | rewrite half_large by lra];
    try match goal with
        | |- context [(?x / 2)%Q] =>
            assert (x / 2 == x * (1 # 2))%Q by field
        end;
    repeat (rewrite mul_large by lra);
    rewrite round_large by lra;
    eexists; (split; [| reflexivity]); field.
Qed.

(** The calorie model reads the fields of every profile but [null]. *)
Lemma calories_unfold (profile : value) :
  profile <> VNull ->
  calculateDailyCalories profile
  = (let! age := approximateAge (get profile "ageRange") in
     let! weight := ToNumber (or_else (get profile "weightKg") (VNum 70)) in
     let! height := ToNumber (or_else (get profile "heightCm") (VNum 170)) in
     Ok (caloriesOf profile (B64.clip weight) (B64.clip height) (B64.clip age))).
Proof. intros H. destruct profile; try reflexivity. congruence. Qed.

(** With a weight, a height and an age that are numbers far inside the
    range of binary64, the target is the rounding of the closed form. *)
Lemma calories_closed (profile : value) (a w h : Q) :
  profile <> VNull ->
  approximateAge (get profile "ageRange") = Ok (Fin a) ->
  ToNumber (or_else (get profile "weightKg") (VNum 70)) = Ok (Fin w) ->
  ToNumber (or_else (get profile "heightCm") (VNum 170)) = Ok (Fin h) ->
  (- B64.large <= a <= B64.large)%Q ->
  (- B64.large <= w <= B64.large)%Q ->
  (- B64.large <= h <= B64.large)%Q ->
  exists x, (x == rawCalories profile w h a)%Q /\
            calculateDailyCalories profile
            = Ok (Fin (inject_Z (Qfloor (x + (1 # 2))))).
Proof.
  intros Hp Ha Hw Hh Ba Bw Bh. pose proof large_positive as HL.
  rewrite calories_unfold by assumption.
  rewrite Ha. cbn [rbind]. rewrite Hw. cbn [rbind]. rewrite Hh. cbn [rbind].
  cbn [B64.clip]. rewrite !large_fits by lra.
  destruct (caloriesOf_large profile w h a Bw Bh Ba) as (x & Hx & ->).
  now exists x.
Qed.

Lemma activityFactor_bounds (level : option value) :
  (1.2 <= activityFactor level <= 1.9)%Q.
Proof.
  unfold activityFactor.
  repeat (match goal with |- context [if ?b then _ else _] => destruct b end);
    split; unfold Qle; simpl; lia.
Qed.

Lemma goalFactor_bounds (goal : option value) :
  (0.8 <= goalFactor goal <= 1.15)%Q.
Proof.
  unfold goalFactor.
  repeat (match goal with |- context [if ?b then _ else _] => destruct b end);
    split; unfold Qle; simpl; lia.
Qed.

Lemma genderOffset_bounds (gender : option value) :
  (-161 <= genderOffset gender <= 5)%Q.
Proof.
  unfold genderOffset.
  repeat (match goal with |- context [if ?b then _ else _] => destruct b end);
    split; unfold Qle; simpl; lia.
Qed.

Lemma Qmult_le_compat_nonneg_r (x y z : Q) :
  (x <= y)%Q -> (0 <= z)%Q -> (x * z <= y * z)%Q.
Proof. intros. now apply Qmult_le_compat_r. Qed.

Lemma Qfloor_positive (x : Q) : (1 <= x)%Q -> (0 < Qfloor x)%Z.
Proof.
  intros H.
  apply Qfloor_resp_le in H.
  change 1%Q with (inject_Z 1) in H.
  rewrite Qfloor_Z in H. lia.
Qed.

Lemma round_positive (x : Q) :
  (1 <= x)%Q -> positiveInteger (Ok (Num.round (Fin x))).
Proof.
  intros H. exists (Qfloor (x + (1 # 2))). split.
  - apply Qfloor_positive. lra.
  - reflexivity.
Qed.

(** A height or weight that is missing or a number converts to a number:
    the default or the number given. *)
Lemma number_or_default (P : Q -> Prop) (d : Q) (field : option value) :
  missingOr P field ->
  exists x, ToNumber (or_else field (VNum d)) = Ok (Fin x) /\ (x = d \/ P x).
Proof.
  intros [Hnone | [x [-> Hx]]].
  - exists d. split; [| now left].
    destruct field as [v |]; simpl in *; [rewrite Hnone |]; reflexivity.
  - simpl. destruct (negb (Qeq_bool x 0)).
    + exists x. split; [reflexivity | now right].
    + exists d. split; [reflexivity | now left].
Qed.

(** C6 (as stated, refuted).  The calorie target is not a positive integer
    for every profile: a weight that is a non-numeric string gives [NaN], an
    age range that is a number makes the computation throw, and small
    numbers give a negative target. *)
Lemma calories_not_always_positive_integer :
  ~ positiveInteger (calculateDailyCalories (VObj [("weightKg", VStr "abc")])) /\
  ~ positiveInteger (calculateDailyCalories (VObj [("ageRange", VNum 30)])) /\
  ~ positiveInteger
      (calculateDailyCalories
         (VObj [("gender", VStr "Female"); ("heightCm", VNum 1);
                ("weightKg", VNum 1)])).
Proof.
  repeat split; intros [k [Hk H]]; vm_compute in H; try discriminate.
  injection H as H. lia.
Qed.

(** When the age range resolves to an age between 0 and 120 and height and
    weight are each missing or a number of at least 120 cm and 30 kg, far
    inside the range of binary64, the calorie target of a profile that is
    not [null] is a positive integer. *)
Lemma calories_positive (profile : value) (age : Q) :
  profile <> VNull ->
  approximateAge (get profile "ageRange") = Ok (Fin age) ->
  (0 <= age <= 120)%Q ->
  missingOr (fun w => 30 <= w <= B64.large)%Q (get profile "weightKg") ->
  missingOr (fun h => 120 <= h <= B64.large)%Q (get profile "heightCm") ->
  positiveInteger (calculateDailyCalories profile).
Proof.
  intros Hp Hage [Hage0 Hage1] Hw Hh. pose proof large_positive as HL.
  apply (number_or_default _ 70) in Hw. destruct Hw as [w [Hw Hw30]].
  apply (number_or_default _ 170) in Hh. destruct Hh as [h [Hh Hh120]].
  assert (30 <= w <= B64.large)%Q by (destruct Hw30 as [-> |]; [lra | assumption]).
  assert (120 <= h <= B64.large)%Q by (destruct Hh120 as [-> |]; [lra | assumption]).
  destruct (calories_closed profile age w h Hp Hage Hw Hh) as (x & Hx & Hc);
    try lra.
  rewrite Hc. apply round_positive. rewrite Hx. unfold rawCalories.
  pose proof (genderOffset_bounds (get profile "gender")) as [Ho _].
  pose proof (activityFactor_bounds (get profile "activityLevel")) as [Hf _].
  pose proof (goalFactor_bounds (get profile "goal")) as [Hg _].
  set (bmr := (10 * w + 6.25 * h - 5 * age + genderOffset (get profile "gender"))%Q).
  assert (Hb : (289 <= bmr)%Q) by (unfold bmr; lra).
  assert (H1 : (289 * 1.2 <= bmr * activityFactor (get profile "activityLevel"))%Q).
  { apply Qle_trans with (289 * activityFactor (get profile "activityLevel"))%Q;
      [lra | apply Qmult_le_compat_nonneg_r; lra]. }
  apply Qle_trans
    with (289 * 1.2 * goalFactor (get profile "goal"))%Q;
    [lra | apply Qmult_le_compat_nonneg_r; lra].
Qed.

Lemma assoc_set_same (k : string) (v : value) (fields : obj) :
  assoc k (set_field k v fields) = Some v.
Proof.
  induction fields as [| [k' v'] fields IH]; simpl.
  - now rewrite String.eqb_refl.
  - destruct (String.eqb_spec k k') as [-> | Hk]; simpl.
    + now rewrite String.eqb_refl.
    + destruct (String.eqb_spec k k'); [contradiction | exact IH].
Qed.

Lemma assoc_set_other (k k' : string) (v : value) (fields : obj) :
  k' <> k -> assoc k' (set_field k v fields) = assoc k' fields.
Proof.
  intros Hk. induction fields as [| [k0 v0] fields IH]; simpl.
  - destruct (String.eqb_spec k' k); [contradiction | reflexivity].
  - destruct (String.eqb_spec k k0) as [-> | Hk0]; simpl.
    + destruct (String.eqb_spec k' k0); [contradiction | reflexivity].
    + now rewrite IH.
Qed.

Lemma or_else_missing (field : option value) (d : value) :
  truthy_opt field = false -> or_else field d = d.
Proof.
  destruct field as [v |]; simpl; [intros -> |]; reflexivity.
Qed.

(** A profile without a field computes as the profile with the default in
    that field. *)
Lemma calories_default (k : string) (d : value) (fields : obj) :
  (k, d) = ("weightKg", VNum 70) \/ (k, d) = ("heightCm", VNum 170) \/
  (k, d) = ("gender", VStr "Other") ->
  truthy_opt (assoc k fields) = false ->
  calculateDailyCalories (VObj fields)
  = calculateDailyCalories (VObj (set_field k d fields)).
Proof.
  intros Hk Hmissing. rewrite !calories_unfold by discriminate.
  unfold caloriesOf. cbn [get].
  destruct Hk as [Hk | [Hk | Hk]]; injection Hk as -> ->;
    rewrite !assoc_set_same, !assoc_set_other by discriminate;
    rewrite (or_else_missing _ _ Hmissing); reflexivity.
Qed.

(** C6 (amended).  For a profile that is not [null], when the age range
    resolves to an age between 0 and 120 and height and weight are each
    missing or a number (at least 120 cm and 30 kg, the least the profile
    form accepts, and at most 10^300, far inside the range of binary64),
    the calorie target is a positive integer, whatever the goal, gender
    and activity level are.  A missing (or falsy) weight, height or gender
    computes as 70, 170 or "Other", and a missing (or falsy) age range
    resolves to 30.  For the profile [null] the computation throws. *)
Theorem calories_positive_integer :
  (forall profile age,
      profile <> VNull ->
      approximateAge (get profile "ageRange") = Ok (Fin age) ->
      (0 <= age <= 120)%Q ->
      missingOr (fun w => 30 <= w <= B64.large)%Q (get profile "weightKg") ->
      missingOr (fun h => 120 <= h <= B64.large)%Q (get profile "heightCm") ->
      positiveInteger (calculateDailyCalories profile))
  /\ (forall k d fields,
        In (k, d) [("weightKg", VNum 70); ("heightCm", VNum 170);
                   ("gender", VStr "Other")] ->
        truthy_opt (assoc k fields) = false ->
        calculateDailyCalories (VObj fields)
        = calculateDailyCalories (VObj (set_field k d fields)))
  /\ (forall ageRange,
        truthy_opt ageRange = false -> approximateAge ageRange = Ok (Fin 30))
  /\ calculateDailyCalories VNull = Throw TypeError
  /\ B64.large = inject_Z (10 ^ 300).
Proof.
  split; [exact calories_positive |].
  split.
  - intros k d fields Hin. apply calories_default.
    simpl in Hin. intuition (symmetry; assumption).
  - split; [| split; reflexivity].
    intros ageRange H. unfold approximateAge. now rewrite H.
Qed.

(** C6 at a profile with an age range and a weight and nothing else. *)
Lemma calories_positive_integer_witness :
  let profile := VObj [("ageRange", VStr "25-34"); ("weightKg", VNum 80)] in
  approximateAge (get profile "ageRange") = Ok (Fin 30) /\
  positiveInteger (calculateDailyCalories profile) /\
  calculateDailyCalories profile
  = calculateDailyCalories
      (VObj [("ageRange", VStr "25-34"); ("weightKg", VNum 80);
             ("heightCm", VNum 170)]).
Proof.
  destruct calories_positive_integer as (Hpos & Hdefault & _).
  split; [reflexivity |]. split.
  - apply (Hpos _ 30%Q).
    + discriminate.
    + reflexivity.
    + split; discriminate.
    + right. exists 80%Q. split; [reflexivity | split; now vm_compute].
    + left. reflexivity.
  - apply (Hdefault "heightCm" (VNum 170)).
    + right. left. reflexivity.
    + reflexivity.
Defined.

(** ** Response extractor *)

Section TextFacts.

Variable c : ascii.

Lemma lastIndexOf_none (s : list ascii) :
  ~ In c s -> Str.lastIndexOf c s = None.
Proof.
  induction s as [| x s IH]; intros Hn; [reflexivity |].
  simpl. rewrite IH by (intros Hin; apply Hn; now right).
  destruct (Ascii.eqb_spec x c) as [-> | _]; [| reflexivity].
  exfalso. apply Hn. now left.
Qed.

(** The first occurrence lies behind a prefix without occurrence. *)
Lemma indexOf_after (a b : list ascii) (i : nat) :
  ~ In c a -> Str.indexOf c (a ++ b) = Some i -> List.length a <= i.
Proof.
  revert i. induction a as [| x a IH]; intros i Hn Hi; simpl in *; [lia |].
  destruct (Ascii.eqb_spec x c) as [-> | _].
  - exfalso. apply Hn. now left.
  - destruct (Str.indexOf c (a ++ b)) as [j |] eqn:E; [| discriminate].
    injection Hi as <-.
    specialize (IH j (fun Hin => Hn (or_intror Hin)) eq_refl). lia.
Qed.

(** The last occurrence lies before a suffix without occurrence. *)
Lemma lastIndexOf_before (a b : list ascii) (j : nat) :
  ~ In c b -> Str.lastIndexOf c (a ++ b) = Some j -> j < List.length a.
Proof.
  intros Hn. revert j. induction a as [| x a IH]; intros j Hj; simpl in *.
  - rewrite lastIndexOf_none in Hj by assumption. discriminate.
  - destruct (Str.lastIndexOf c (a ++ b)) as [k |] eqn:E.
    + injection Hj as <-. specialize (IH k eq_refl). lia.
    + destruct (Ascii.eqb x c); [| discriminate].
      injection Hj as <-. lia.
Qed.

Lemma indexOf_first (a b : list ascii) :
  ~ In c a -> Str.indexOf c (a ++ c :: b) = Some (List.length a).
Proof.
  induction a as [| x a IH]; intros Hn; simpl.
  - now rewrite Ascii.eqb_refl.
  - destruct (Ascii.eqb_spec x c) as [-> | _].
    + exfalso. apply Hn. now left.
    + rewrite IH; [reflexivity |]. intros Hin. apply Hn. now right.
Qed.

Lemma lastIndexOf_last (a b : list ascii) :
  ~ In c b -> Str.lastIndexOf c (a ++ c :: b) = Some (List.length a).
Proof.
  intros Hn. induction a as [| x a IH]; simpl.
  - rewrite lastIndexOf_none by assumption. now rewrite Ascii.eqb_refl.
  - now rewrite IH.
Qed.

(** Deleting matches and trimming only take characters away. *)
Lemma remove_from_subset (ci : bool) (pat s : list ascii) (skip : nat) :
  In c (Str.remove_from skip ci pat s) -> In c s.
Proof.
  revert skip. induction s as [| x s IH]; intros skip Hin; simpl in *; [assumption |].
  destruct skip as [| k].
  - destruct (Str.startsWith ci pat (x :: s)).
    + right. eapply IH, Hin.
    + destruct Hin as [-> | Hin]; [now left | right; eapply IH, Hin].
  - right. eapply IH, Hin.
Qed.

Lemma trimStart_subset (s : list ascii) :
  In c (Str.trimStart s) -> In c s.
Proof.
  induction s as [| x s IH]; simpl; [tauto |].
  destruct (Str.isSpace x); [| tauto].
  intros Hin. right. now apply IH.
Qed.

Lemma trim_subset (s : list ascii) : In c (Str.trim s) -> In c s.
Proof.
  unfold Str.trim, Str.trimEnd. intros Hin.
  apply trimStart_subset.
  apply in_rev in Hin. apply trimStart_subset in Hin.
  now apply in_rev in Hin.
Qed.

Lemma cleanedText_subset (s : string) :
  In c (cleanedText s) -> In c (chars s).
Proof.
  unfold cleanedText, stripFences, Str.removeAll. intros Hin.
  apply trim_subset in Hin.
  now do 2 apply remove_from_subset in Hin.
Qed.

End TextFacts.

Lemma slice_between (pre mid post : list ascii) (x : ascii) :
  Str.slice (List.length pre) (List.length pre + S (List.length mid) + 1)
            (pre ++ x :: mid ++ post) = x :: firstn (S (List.length mid)) (mid ++ post).
Proof.
  unfold Str.slice.
  rewrite skipn_app, skipn_all, Nat.sub_diag. simpl.
  replace (List.length pre + S (List.length mid) + 1 - List.length pre)
    with (S (S (List.length mid))) by lia.
  reflexivity.
Qed.

(** Text in which every closing brace comes before every opening brace,
    or that lacks one of them, holds no object. *)
Lemma extract_no_object (s : string) (a b : list ascii) :
  s <> "" ->
  cleanedText s = a ++ b ->
  ~ In "{"%char a -> ~ In "}"%char b ->
  extractJsonFromText (VStr s)
  = Throw (Error "Could not locate JSON object in AI response").
Proof.
  intros Hs Hc Ha Hb. unfold extractJsonFromText.
  destruct (String.eqb_spec s "") as [-> | _]; [congruence |].
  cbv zeta. rewrite Hc.
  destruct (Str.indexOf "{" (a ++ b)) as [first |] eqn:Ef; [| reflexivity].
  destruct (Str.lastIndexOf "}" (a ++ b)) as [last |] eqn:El; [| reflexivity].
  apply indexOf_after in Ef; [| assumption].
  apply lastIndexOf_before in El; [| assumption].
  destruct (Nat.leb_spec last first); [reflexivity | lia].
Qed.

(** Otherwise the text from the first opening brace to the last closing
    brace is what is parsed. *)
Lemma extract_slice (s : string) (pre mid post : list ascii) :
  s <> "" ->
  cleanedText s = pre ++ "{"%char :: mid ++ "}"%char :: post ->
  ~ In "{"%char pre -> ~ In "}"%char post ->
  extractJsonFromText (VStr s) = JSON.parse (str ("{"%char :: mid ++ ["}"%char])).
Proof.
  intros Hs Hc Hpre Hpost. unfold extractJsonFromText.
  destruct (String.eqb_spec s "") as [-> | _]; [congruence |].
  cbv zeta. rewrite Hc.
  rewrite indexOf_first by assumption.
  replace (pre ++ "{"%char :: mid ++ "}"%char :: post)
    with ((pre ++ "{"%char :: mid) ++ "}"%char :: post)
    by (rewrite <- app_assoc; reflexivity).
  rewrite lastIndexOf_last by assumption.
  rewrite length_app. simpl List.length.
  destruct (Nat.leb_spec (List.length pre + S (List.length mid)) (List.length pre));
    [lia |].
  rewrite <- app_assoc. simpl app.
  rewrite slice_between.
  replace ("}"%char :: post) with (["}"%char] ++ post) by reflexivity.
  rewrite app_assoc.
  rewrite firstn_app.
  rewrite length_app. simpl List.length.
  replace (S (List.length mid) - (List.length mid + 1)) with 0 by lia.
  rewrite firstn_all2 by (rewrite length_app; simpl; lia).
  simpl firstn. rewrite app_nil_r. reflexivity.
Qed.

Lemma extract_without_braces (s : string) :
  ~ In "{"%char (chars s) \/ ~ In "}"%char (chars s) ->
  exists message, extractJsonFromText (VStr s) = Throw (Error message).
Proof.
  intros H.
  destruct (String.eqb_spec s "") as [-> | Hs]; [eexists; reflexivity |].
  eexists. destruct H as [H | H].
  - apply (extract_no_object s (cleanedText s) []); auto using app_nil_r.
    intros Hin. apply H. now apply cleanedText_subset.
  - apply (extract_no_object s [] (cleanedText s)); auto.
    intros Hin. apply H. now apply cleanedText_subset.
Qed.

(** *** Fence stripping *)

Lemma fence_removed (s : list ascii) :
  Str.removeAll false fence (fence ++ s) = Str.removeAll false fence s.
Proof. reflexivity. Qed.

Lemma startsWith_fence (s : list ascii) :
  Str.startsWith false fence s = true -> exists r, s = fence ++ r.
Proof.
  destruct s as [| a [| b [| c r]]]; cbn -[Ascii.eqb]; try discriminate;
    try (rewrite ?andb_false_r; discriminate).
  destruct (Ascii.eqb_spec "`" a) as [<- |]; [| discriminate].
  destruct (Ascii.eqb_spec "`" b) as [<- |]; [| discriminate].
  destruct (Ascii.eqb_spec "`" c) as [<- |]; [| discriminate].
  intros _. now exists r.
Qed.

Lemma fence_kept (x : ascii) (s : list ascii) :
  Str.startsWith false fence (x :: s) = false ->
  Str.removeAll false fence (x :: s) = x :: Str.removeAll false fence s.
Proof.
  intros H. unfold Str.removeAll. cbn [Str.remove_from]. now rewrite H.
Qed.

Lemma startsWith_fence_cons (x : ascii) (s : list ascii) :
  Str.startsWith false fence (x :: s)
  = Ascii.eqb "`" x &&
    match s with
    | y :: z :: _ => Ascii.eqb "`" y && Ascii.eqb "`" z
    | _ => false
    end.
Proof.
  destruct s as [| y [| z r]]; cbn -[Ascii.eqb];
    rewrite ?andb_true_r, ?andb_false_r; reflexivity.
Qed.

(** Where no fence starts before the stripping, none starts after it. *)
Lemma no_fence_at_head (x : ascii) (s : list ascii) :
  Str.startsWith false fence (x :: s) = false ->
  Str.startsWith false fence (x :: Str.removeAll false fence s) = false.
Proof.
  intros H.
  rewrite startsWith_fence_cons in *.
  destruct (Ascii.eqb "`" x); [| reflexivity]. cbn [andb] in *.
  destruct s as [| y s]; [reflexivity |].
  destruct (Str.startsWith false fence (y :: s)) eqn:Hy.
  - (* a fence starts at [y]: the text would start with four backquotes *)
    rewrite startsWith_fence_cons in Hy.
    destruct s as [| z r]; [rewrite andb_false_r in Hy; discriminate |].
    apply andb_prop in Hy. destruct Hy as [Hy Hz].
    destruct r as [| w r]; [discriminate |].
    apply andb_prop in Hz. destruct Hz as [Hz _].
    rewrite Hy, Hz in H. discriminate.
  - rewrite fence_kept by assumption.
    destruct (Ascii.eqb "`" y) eqn:Ey; cbn [andb] in *.
    + destruct s as [| z s]; [reflexivity |].
      assert (Hz : Str.startsWith false fence (z :: s) = false)
        by (rewrite startsWith_fence_cons, H; reflexivity).
      rewrite fence_kept by assumption. exact H.
    + destruct (Str.removeAll false fence s); reflexivity.
Qed.

Lemma removeAll_fence_bounded (n : nat) (s : list ascii) :
  List.length s <= n ->
  Str.includes fence (Str.removeAll false fence s) = false.
Proof.
  revert s. induction n as [| n IH]; intros s Hn.
  - destruct s; [reflexivity | simpl in Hn; lia].
  - destruct s as [| x s]; [reflexivity |].
    destruct (Str.startsWith false fence (x :: s)) eqn:Hx.
    + apply startsWith_fence in Hx. destruct Hx as [r Hr].
      rewrite Hr, fence_removed. apply IH.
      apply (f_equal (@List.length ascii)) in Hr.
      rewrite length_app in Hr. simpl in Hr, Hn. lia.
    + rewrite fence_kept by assumption.
      cbn [Str.includes].
      rewrite no_fence_at_head by assumption.
      apply IH. simpl in Hn. lia.
Qed.

(** After the stripping no fence is left anywhere in the text. *)
Lemma stripFences_no_fence (s : list ascii) :
  Str.includes fence (stripFences s) = false.
Proof.
  unfold stripFences. eapply removeAll_fence_bounded. reflexivity.
Qed.

Lemma chars_append (a b : string) :
  chars (String.append a b) = chars a ++ chars b.
Proof.
  unfold chars. induction a as [| c a IH]; simpl; [| rewrite IH]; reflexivity.
Qed.

Lemma same_backquote (ci : bool) (x : ascii) :
  Str.same ci "`" x = Ascii.eqb "`" x.
Proof.
  destruct ci; [| reflexivity].
  destruct x as [[] [] [] [] [] [] [] []]; reflexivity.
Qed.

(** A pattern that starts with a fence matches only where a fence
    starts. *)
Lemma fence_pattern_starts (ci : bool) (tail s : list ascii) :
  Str.startsWith false fence s = false ->
  Str.startsWith ci (fence ++ tail) s = false.
Proof.
  intros H.
  destruct s as [| x [| y [| z s]]]; try reflexivity;
    cbn [fence chars list_ascii_of_string app Str.startsWith] in *;
    rewrite ?same_backquote; cbn [Str.same] in H;
    try (destruct (Ascii.eqb "`" x); [| reflexivity]);
    try (destruct (Ascii.eqb "`" y); [| reflexivity]);
    try (destruct (Ascii.eqb "`" z); [| reflexivity]);
    try reflexivity; try discriminate.
Qed.

(** A text without a fence has no fence starting in it when a line
    break follows it. *)
Lemma no_fence_before_newline (x : ascii) (t rest : list ascii) :
  Str.startsWith false fence (x :: t) = false ->
  Str.startsWith false fence (x :: t ++ "010"%char :: rest) = false.
Proof.
  rewrite !startsWith_fence_cons.
  destruct (Ascii.eqb "`" x); [| reflexivity]. cbn [andb].
  destruct t as [| y [| z t]]; cbn [app]; intros H.
  - destruct rest; reflexivity.
  - destruct (Ascii.eqb "`" y); reflexivity.
  - exact H.
Qed.

Lemma includes_cons (pat : list ascii) (x : ascii) (t : list ascii) :
  Str.includes pat (x :: t) = false ->
  Str.startsWith false pat (x :: t) = false /\ Str.includes pat t = false.
Proof.
  cbn [Str.includes]. intros H. now apply orb_false_iff in H.
Qed.

(** Stripping a pattern that starts with a fence leaves a text without
    fences as it is, up to the line break that follows it. *)
Lemma remove_until_newline (ci : bool) (tail t rest : list ascii) :
  Str.includes fence t = false ->
  Str.removeAll ci (fence ++ tail) (t ++ "010"%char :: rest)
  = t ++ "010"%char :: Str.removeAll ci (fence ++ tail) rest.
Proof.
  unfold Str.removeAll. induction t as [| x t IH]; intros H.
  - cbn [app Str.remove_from].
    now rewrite (fence_pattern_starts ci tail ("010"%char :: rest) eq_refl).
  - apply includes_cons in H. destruct H as [Hx Ht].
    cbn [app Str.remove_from].
    rewrite (fence_pattern_starts ci tail _ (no_fence_before_newline x t rest Hx)).
    now rewrite (IH Ht).
Qed.

Lemma remove_nothing (ci : bool) (tail t : list ascii) :
  Str.includes fence t = false ->
  Str.removeAll ci (fence ++ tail) t = t.
Proof.
  unfold Str.removeAll. induction t as [| x t IH]; intros H; [reflexivity |].
  apply includes_cons in H. destruct H as [Hx Ht].
  cbn [Str.remove_from].
  rewrite (fence_pattern_starts ci tail _ Hx). now rewrite (IH Ht).
Qed.

Lemma stripFences_nothing (t : list ascii) :
  Str.includes fence t = false -> stripFences t = t.
Proof.
  intros H. unfold stripFences.
  change (Str.removeAll false (fence ++ [])
            (Str.removeAll true (fence ++ chars "json") t) = t).
  rewrite (remove_nothing true (chars "json") t H).
  exact (remove_nothing false [] t H).
Qed.

Lemma trimStart_snoc (t : list ascii) (c : ascii) :
  Str.isSpace c = true ->
  Str.trimStart (t ++ [c])
  = match Str.trimStart t with
    | [] => []
    | x :: l => x :: l ++ [c]
    end.
Proof.
  intros Hc. induction t as [| x t IH]; cbn [app Str.trimStart].
  - now rewrite Hc.
  - destruct (Str.isSpace x); [exact IH | reflexivity].
Qed.

Lemma trimEnd_snoc (l : list ascii) (c : ascii) :
  Str.isSpace c = true -> Str.trimEnd (l ++ [c]) = Str.trimEnd l.
Proof.
  intros Hc. unfold Str.trimEnd. rewrite rev_unit.
  cbn [Str.trimStart]. now rewrite Hc.
Qed.

(** A line break before and after a text does not change its trimming. *)
Lemma trim_between_newlines (t : list ascii) :
  Str.trim ("010"%char :: t ++ ["010"%char]) = Str.trim t.
Proof.
  unfold Str.trim.
  change (Str.trimStart ("010"%char :: t ++ ["010"%char]))
    with (Str.trimStart (t ++ ["010"%char])).
  rewrite trimStart_snoc by reflexivity.
  destruct (Str.trimStart t) as [| x l]; [reflexivity |].
  now apply (trimEnd_snoc (x :: l)).
Qed.

(** The two passes of the stripping over a text without fences that is
    followed by a line break and a closing fence. *)
Lemma strip_closing_fence (t : list ascii) :
  Str.includes fence t = false ->
  Str.removeAll true (fence ++ chars "json")
    ("010"%char :: t ++ "010"%char :: fence)
  = "010"%char :: t ++ "010"%char :: fence /\
  Str.removeAll false (fence ++ [])
    ("010"%char :: t ++ "010"%char :: fence)
  = "010"%char :: t ++ ["010"%char].
Proof.
  intros Ht. split.
  - pose proof (remove_until_newline true (chars "json") []
                  (t ++ "010"%char :: fence) eq_refl) as E.
    cbn [app] in E. rewrite E.
    now rewrite (remove_until_newline true (chars "json") t _ Ht).
  - pose proof (remove_until_newline false [] []
                  (t ++ "010"%char :: fence) eq_refl) as E.
    cbn [app] in E. rewrite E.
    now rewrite (remove_until_newline false [] t _ Ht).
Qed.

(** The stripping of a fenced text leaves the text between two line
    breaks. *)
Lemma stripFences_fenced (tag s : string) :
  tag = "json" \/ tag = "JSON" \/ tag = "" ->
  Str.includes fence (chars s) = false ->
  stripFences (chars (fenced tag s)) = "010"%char :: chars s ++ ["010"%char].
Proof.
  intros Htag H. unfold fenced. rewrite !chars_append.
  destruct (strip_closing_fence (chars s) H) as [E1 E2].
  generalize dependent (chars s). intros t _ E1 E2.
  unfold stripFences.
  change (chars "```json") with (fence ++ chars "json").
  change (Str.removeAll false (chars "```"))
    with (Str.removeAll false (fence ++ [])).
  destruct Htag as [-> | [-> | ->]].
  - change (Str.removeAll true (fence ++ chars "json")
              (chars "```" ++ chars "json" ++ chars nl ++ t ++ chars nl ++ chars "```"))
      with (Str.removeAll true (fence ++ chars "json")
              ("010"%char :: t ++ "010"%char :: fence)).
    now rewrite E1.
  - change (Str.removeAll true (fence ++ chars "json")
              (chars "```" ++ chars "JSON" ++ chars nl ++ t ++ chars nl ++ chars "```"))
      with (Str.removeAll true (fence ++ chars "json")
              ("010"%char :: t ++ "010"%char :: fence)).
    now rewrite E1.
  - change (Str.removeAll true (fence ++ chars "json")
              (chars "```" ++ chars "" ++ chars nl ++ t ++ chars nl ++ chars "```"))
      with (fence ++ Str.removeAll true (fence ++ chars "json")
                       ("010"%char :: t ++ "010"%char :: fence)).
    rewrite E1.
    change (Str.removeAll false (fence ++ [])
              (fence ++ "010"%char :: t ++ "010"%char :: fence))
      with (Str.removeAll false (fence ++ [])
              ("010"%char :: t ++ "010"%char :: fence)).
    exact E2.
Qed.

(** A text without backquote is passed over by the stripping of a
    pattern that starts with a fence. *)
Lemma remove_prefix (ci : bool) (tail a rest : list ascii) :
  ~ In "`"%char a ->
  Str.removeAll ci (fence ++ tail) (a ++ rest)
  = a ++ Str.removeAll ci (fence ++ tail) rest.
Proof.
  unfold Str.removeAll. induction a as [| x a IH]; intros H; [reflexivity |].
  cbn [app Str.remove_from].
  replace (Str.startsWith ci (fence ++ tail) (x :: a ++ rest)) with false.
  - rewrite IH; [reflexivity |]. intros Hin. apply H. now right.
  - symmetry. cbn [fence chars list_ascii_of_string app Str.startsWith].
    rewrite same_backquote.
    destruct (Ascii.eqb_spec "`" x) as [<- |]; [| reflexivity].
    exfalso. apply H. now left.
Qed.

(** The first pass deletes a fence together with the letters of [json]
    that follow it, in either case. *)
Lemma remove_tag (tag rest : list ascii) :
  map Str.lower tag = chars "json" ->
  Str.removeAll true (chars "```json") (fence ++ tag ++ rest)
  = Str.removeAll true (chars "```json") rest.
Proof.
  intros Htag.
  destruct tag as [| j [| s [| o [| n [| x tag]]]]]; try discriminate.
  injection Htag as Hj Hs Ho Hn.
  unfold Str.removeAll.
  cbn [fence chars list_ascii_of_string app Str.remove_from Str.startsWith
       Str.same List.length Nat.sub].
  change (Str.lower "`") with "`"%char.
  change (Str.lower "j") with "j"%char. change (Str.lower "s") with "s"%char.
  change (Str.lower "o") with "o"%char. change (Str.lower "n") with "n"%char.
  rewrite Hj, Hs, Ho, Hn. reflexivity.
Qed.

(** The first pass keeps a fence that the letters of [json] do not
    follow. *)
Lemma keep_fence (rest : list ascii) :
  Str.startsWith true (chars "json") rest = false ->
  Str.startsWith false (chars "`") rest = false ->
  Str.removeAll true (chars "```json") (fence ++ rest)
  = fence ++ Str.removeAll true (chars "```json") rest.
Proof.
  intros Hjson Hquote.
  assert (H0 : Str.startsWith true (chars "```json") (fence ++ rest) = false)
    by exact Hjson.
  assert (H1 : Str.startsWith true (chars "```json")
                 ("`"%char :: "`"%char :: rest) = false).
  { destruct rest as [| x r]; [reflexivity |].
    cbn [chars list_ascii_of_string Str.startsWith] in *.
    rewrite !same_backquote. cbn [Str.same] in Hquote.
    rewrite andb_true_r in Hquote. rewrite Hquote. reflexivity. }
  assert (H2 : Str.startsWith true (chars "```json") ("`"%char :: rest) = false).
  { destruct rest as [| x r]; [reflexivity |].
    cbn [chars list_ascii_of_string Str.startsWith] in *.
    rewrite !same_backquote. cbn [Str.same] in Hquote.
    rewrite andb_true_r in Hquote. rewrite Hquote. reflexivity. }
  unfold Str.removeAll, fence in *.
  cbn [chars list_ascii_of_string app] in *.
  cbn [Str.remove_from]. rewrite H0.
  cbn [Str.remove_from]. rewrite H1.
  cbn [Str.remove_from]. rewrite H2.
  reflexivity.
Qed.

(** The stripping passes over text without backquote, deletes a fence
    that follows it together with the letters of [json] after the fence,
    and goes on with the rest... *)
Lemma stripFences_tagged (a tag rest : list ascii) :
  ~ In "`"%char a -> map Str.lower tag = chars "json" ->
  stripFences (a ++ fence ++ tag ++ rest) = a ++ stripFences rest.
Proof.
  intros Ha Htag. unfold stripFences.
  change (chars "```json") with (fence ++ chars "json").
  change (chars "```") with (fence ++ []).
  rewrite (remove_prefix true (chars "json") a _ Ha).
  change (fence ++ chars "json") with (chars "```json").
  rewrite (remove_tag tag rest Htag).
  now rewrite (remove_prefix false [] a _ Ha).
Qed.

(** ...and likewise a fence that the letters of [json] do not follow. *)
Lemma stripFences_plain (a rest : list ascii) :
  ~ In "`"%char a ->
  Str.startsWith true (chars "json") rest = false ->
  Str.startsWith false (chars "`") rest = false ->
  stripFences (a ++ fence ++ rest) = a ++ stripFences rest.
Proof.
  intros Ha Hjson Hquote. unfold stripFences.
  change (chars "```json") with (fence ++ chars "json").
  change (chars "```") with (fence ++ []).
  rewrite (remove_prefix true (chars "json") a _ Ha).
  change (fence ++ chars "json") with (chars "```json").
  rewrite (keep_fence rest Hjson Hquote).
  rewrite (remove_prefix false [] a _ Ha).
  reflexivity.
Qed.

Lemma stripFences_clean (a : list ascii) : ~ In "`"%char a -> stripFences a = a.
Proof.
  intros Ha. apply stripFences_nothing.
  induction a as [| x a IH]; [reflexivity |].
  cbn [Str.includes]. rewrite IH by (intros Hin; apply Ha; now right).
  rewrite orb_false_r, startsWith_fence_cons.
  destruct (Ascii.eqb_spec "`" x) as [<- |]; [| reflexivity].
  exfalso. apply Ha. now left.
Qed.

(** The letters of [json] in either case. *)
Lemma json_in_any_case (j s o n : ascii) :
  In j ["j"; "J"]%char -> In s ["s"; "S"]%char ->
  In o ["o"; "O"]%char -> In n ["n"; "N"]%char ->
  map Str.lower [j; s; o; n] = chars "json".
Proof.
  intros [<- | [<- | []]] [<- | [<- | []]] [<- | [<- | []]] [<- | [<- | []]];
    reflexivity.
Qed.

Lemma str_not_empty (l : list ascii) : l <> [] -> String.eqb (str l) "" = false.
Proof. destruct l; [congruence | reflexivity]. Qed.

(** A text is read by its cleaned text. *)
Lemma extract_same_cleaned (s s' : string) :
  s <> "" -> s' <> "" -> cleanedText s = cleanedText s' ->
  extractJsonFromText (VStr s) = extractJsonFromText (VStr s').
Proof.
  intros Hs Hs' Hc. unfold extractJsonFromText. rewrite Hc.
  destruct (String.eqb_spec s "") as [-> | _]; [contradiction |].
  destruct (String.eqb_spec s' "") as [-> | _]; [contradiction |].
  reflexivity.
Qed.

(** Reading a text with a fence between two texts without backquote is
    reading the two texts joined, when the fence is deleted so. *)
Lemma extract_without_fence (a mid b : list ascii) :
  ~ In "`"%char a -> ~ In "`"%char b -> a ++ b <> [] ->
  stripFences (a ++ fence ++ mid ++ b) = a ++ stripFences b ->
  extractJsonFromText (VStr (str (a ++ fence ++ mid ++ b)))
  = extractJsonFromText (VStr (str (a ++ b))).
Proof.
  intros Ha Hb Hab Hstrip.
  assert (Hclean : ~ In "`"%char (a ++ b)).
  { intros Hin. apply in_app_or in Hin. tauto. }
  apply extract_same_cleaned.
  - intros E. apply (f_equal chars) in E. rewrite chars_str in E.
    destruct a; discriminate.
  - intros E. apply (f_equal chars) in E. rewrite chars_str in E.
    now apply Hab.
  - unfold cleanedText. rewrite !chars_str, Hstrip.
    now rewrite (stripFences_clean b Hb), (stripFences_clean (a ++ b) Hclean).
Qed.

Lemma no_backquote_at_head (b : list ascii) :
  ~ In "`"%char b -> Str.startsWith false (chars "`") b = false.
Proof.
  intros Hb. destruct b as [| x b]; [reflexivity |].
  cbn [chars list_ascii_of_string Str.startsWith Str.same].
  destruct (Ascii.eqb_spec "`" x) as [<- |]; [| reflexivity].
  exfalso. apply Hb. now left.
Qed.

(** C7.  The extractor strips the fences, fails when the cleaned text has
    no opening brace followed later by a closing brace, and otherwise
    parses the text from the first opening brace to the last closing brace:
    the fenced text yields the object with the empty [days]; text without
    braces, and text whose last closing brace is not after its first opening
    brace, fails with the extractor's own error; and
    [prefix {"a":1} suffix {"b":2}] fails, because the slice
    [{"a":1} suffix {"b":2}] does not parse, whatever the budget of the
    parser.  The stripping comes first: a text with a fence in it, with
    the letters of [json] after the fence in either case or without them,
    is read as the text without the fence and without these letters,
    wherever the fence stands, between the braces too. *)
Theorem extractJsonFromText_slices_and_parses :
  extractJsonFromText (VStr ("```json" ++ nl ++ dq "{'days':[]}" ++ nl ++ "```"))
  = Ok (VObj [("days", VArr [])])
  /\ (forall s, ~ In "{"%char (chars s) \/ ~ In "}"%char (chars s) ->
        exists message, extractJsonFromText (VStr s) = Throw (Error message))
  /\ (forall s a b,
        s <> "" -> cleanedText s = a ++ b ->
        ~ In "{"%char a -> ~ In "}"%char b ->
        extractJsonFromText (VStr s)
        = Throw (Error "Could not locate JSON object in AI response"))
  /\ (forall s pre mid post,
        s <> "" -> cleanedText s = pre ++ "{"%char :: mid ++ "}"%char :: post ->
        ~ In "{"%char pre -> ~ In "}"%char post ->
        extractJsonFromText (VStr s)
        = JSON.parse (str ("{"%char :: mid ++ ["}"%char])))
  /\ extractJsonFromText (VStr (dq "prefix {'a':1} suffix {'b':2}"))
     = JSON.parse (dq "{'a':1} suffix {'b':2}")
  /\ JSON.parse (dq "{'a':1} suffix {'b':2}") = Throw SyntaxError
  /\ (forall budget,
        JSON.parseWith budget (chars (dq "{'a':1} suffix {'b':2}"))
        = Throw SyntaxError)
  /\ (forall a b j s o n,
        ~ In "`"%char a -> ~ In "`"%char b -> a ++ b <> [] ->
        In j ["j"; "J"]%char -> In s ["s"; "S"]%char ->
        In o ["o"; "O"]%char -> In n ["n"; "N"]%char ->
        extractJsonFromText (VStr (str (a ++ fence ++ [j; s; o; n] ++ b)))
        = extractJsonFromText (VStr (str (a ++ b))))
  /\ (forall a b,
        ~ In "`"%char a -> ~ In "`"%char b -> a ++ b <> [] ->
        Str.startsWith true (chars "json") b = false ->
        extractJsonFromText (VStr (str (a ++ fence ++ b)))
        = extractJsonFromText (VStr (str (a ++ b))))
  /\ extractJsonFromText (VStr (dq "{'days':```JSON[]```}"))
     = Ok (VObj [("days", VArr [])]).
Proof.
  split; [vm_compute; reflexivity |].
  split; [exact extract_without_braces |].
  split; [exact extract_no_object |].
  split; [exact extract_slice |].
  split; [vm_compute; reflexivity |].
  split; [vm_compute; reflexivity |].
  split.
  { intros budget. apply parse_fails_whatever_budget. vm_compute. reflexivity. }
  split.
  { intros a b j s o n Ha Hb Hab Hj Hs Ho Hn.
    apply extract_without_fence; try assumption.
    apply stripFences_tagged; [assumption |].
    now apply json_in_any_case. }
  split; [| vm_compute; reflexivity].
  intros a b Ha Hb Hab Hjson.
  apply (extract_without_fence a [] b); try assumption.
  apply stripFences_plain; try assumption.
  now apply no_backquote_at_head.
Qed.

(** The general parts of C7 at concrete texts: a reply whose braces are in
    the wrong order, a fenced reply with prose around the object, and a
    reply with a fence between its braces. *)
Lemma extractJsonFromText_slices_and_parses_witness :
  extractJsonFromText (VStr "no } object { here")
  = Throw (Error "Could not locate JSON object in AI response")
  /\ extractJsonFromText (VStr ("Here you go: ```json" ++ dq "{'days':[]}" ++ "``` enjoy"))
     = JSON.parse (dq "{'days':[]}")
  /\ extractJsonFromText (VStr (dq "{'days':```Json[]}"))
     = extractJsonFromText (VStr (dq "{'days':[]}")).
Proof.
  destruct extractJsonFromText_slices_and_parses
    as (_ & _ & Hnone & Hslice & _ & _ & _ & Htag & _).
  split; [| split].
  - apply (Hnone _ (chars "no } object ") (chars "{ here")).
    + discriminate.
    + reflexivity.
    + simpl. intuition discriminate.
    + simpl. intuition discriminate.
  - apply (Hslice _ (chars "Here you go: ") (chars (dq "'days':[]")) (chars " enjoy")).
    + discriminate.
    + reflexivity.
    + simpl. intuition discriminate.
    + simpl. intuition discriminate.
  - apply (Htag (chars (dq "{'days':")) (chars "[]}") "J" "s" "o" "n")%char.
    + simpl. intuition discriminate.
    + simpl. intuition discriminate.
    + discriminate.
    + simpl. tauto.
    + simpl. tauto.
    + simpl. tauto.
    + simpl. tauto.
Defined.

(** C10.  The stripping deletes the fence wherever it occurs, inside the
    payload too, and with it the letters of [json] that follow it, in
    either case: the reply [{"days":[],"note":"a```b"}] is valid JSON whose
    [note] is [a```b], and the extractor returns the object with the note
    [ab].  In general the stripping passes over text without backquote,
    deletes the fence that follows it, with the letters of [json] if they
    follow the fence, and goes on in the same way with the rest of the
    text; no fence is left. *)
Theorem fences_are_stripped_inside_strings :
  (forall s, Str.includes (chars "```") (stripFences (chars s)) = false)
  /\ (forall s, Str.includes (chars "```json") (stripFences (chars s)) = false)
  /\ JSON.parse (dq "{'days':[],'note':'a```b'}")
     = Ok (VObj [("days", VArr []); ("note", VStr "a```b")])
  /\ extractJsonFromText (VStr (dq "{'days':[],'note':'a```b'}"))
     = Ok (VObj [("days", VArr []); ("note", VStr "ab")])
  /\ (forall a rest j s o n,
        ~ In "`"%char a ->
        In j ["j"; "J"]%char -> In s ["s"; "S"]%char ->
        In o ["o"; "O"]%char -> In n ["n"; "N"]%char ->
        stripFences (a ++ chars "```" ++ [j; s; o; n] ++ rest)
        = a ++ stripFences rest)
  /\ (forall a rest,
        ~ In "`"%char a ->
        Str.startsWith true (chars "json") rest = false ->
        Str.startsWith false (chars "`") rest = false ->
        stripFences (a ++ chars "```" ++ rest) = a ++ stripFences rest)
  /\ (forall a, ~ In "`"%char a -> stripFences a = a)
  /\ stripFences (chars "a```jsonb```JSON```c") = chars "abc"
  /\ extractJsonFromText (VStr (dq "{'days':[],'note':'a```JsOnb'}"))
     = Ok (VObj [("days", VArr []); ("note", VStr "ab")]).
Proof.
  split; [intros s; apply stripFences_no_fence |].
  split.
  { intros s. generalize (stripFences_no_fence (chars s)).
    generalize (stripFences (chars s)). intros l.
    induction l as [| x l IH]; [reflexivity |].
    cbn [Str.includes]. intros H. apply orb_false_elim in H. destruct H as [H1 H2].
    rewrite (IH H2), orb_false_r. unfold fence in H1.
    destruct l as [| y [| z r]]; cbn -[Ascii.eqb] in *; rewrite ?andb_false_r in *; try reflexivity.
    apply andb_false_iff in H1. destruct H1 as [-> | H1]; [reflexivity |].
    apply andb_false_iff in H1. destruct H1 as [-> | H1]; [now rewrite andb_false_r |].
    rewrite andb_true_r in H1. rewrite H1. now rewrite !andb_false_r. }
  split; [vm_compute; reflexivity |].
  split; [vm_compute; reflexivity |].
  split.
  { intros a rest j s o n Ha Hj Hs Ho Hn.
    apply (stripFences_tagged a [j; s; o; n] rest Ha).
    now apply json_in_any_case. }
  split; [exact stripFences_plain |].
  split; [exact stripFences_clean |].
  split; vm_compute; reflexivity.
Qed.

(** C10 at a fence with the letters in mixed case before a text that
    holds another fence. *)
Lemma fences_are_stripped_inside_strings_witness :
  stripFences (chars "note: ```JsOn{}```") = chars "note: " ++ stripFences (chars "{}```")
  /\ stripFences (chars "{}") = chars "{}".
Proof.
  destruct fences_are_stripped_inside_strings
    as (_ & _ & _ & _ & Htag & _ & Hclean & _).
  split.
  - apply (Htag (chars "note: ") (chars "{}```") "J" "s" "O" "n")%char;
      simpl; try tauto. intuition discriminate.
  - apply Hclean. simpl. intuition discriminate.
Defined.

(** ** Version sequencer *)

Lemma gt_lt (a b : Q) : gt a b = true <-> (b < a)%Q.
Proof.
  unfold gt. split; intros H.
  - apply Qgt_alt. destruct (a ?= b)%Q; congruence.
  - apply Qgt_alt in H. now rewrite H.
Qed.

Lemma gt_le (a b : Q) : gt a b = false <-> (a <= b)%Q.
Proof.
  rewrite Qle_alt. unfold gt.
  destruct (a ?= b)%Q; split; congruence.
Qed.

Lemma laterVersion_versionOf (max : Q) (m : obj) :
  laterVersion max m
  = match versionOf m with
    | Some v => if gt v max then v else max
    | None => max
    end.
Proof.
  unfold laterVersion, versionOf.
  destruct (assoc "version" m) as [[] |]; reflexivity.
Qed.

(** The [reduce] returns an upper bound of its start value and of the
    numeric versions it meets... *)
Lemma fold_laterVersion_bound (ms : list obj) (start : Q) :
  (start <= fold_left laterVersion ms start)%Q /\
  forall x, In x (versionsIn ms) -> (x <= fold_left laterVersion ms start)%Q.
Proof.
  revert start. induction ms as [| m ms IH]; intros start; simpl.
  - split; [apply Qle_refl | tauto].
  - destruct (IH (laterVersion start m)) as [Hs Hx].
    rewrite laterVersion_versionOf in *.
    destruct (versionOf m) as [v |]; simpl.
    + destruct (gt v start) eqn:E.
      * apply gt_lt in E. split; [lra |].
        intros x [<- | Hin]; [assumption | now apply Hx].
      * apply gt_le in E. split; [assumption |].
        intros x [<- | Hin]; [lra | now apply Hx].
    + split; assumption.
Qed.

(** ...and that bound is the start value itself or a greater version that
    it met. *)
Lemma fold_laterVersion_attained (ms : list obj) (start : Q) :
  fold_left laterVersion ms start = start \/
  ((start < fold_left laterVersion ms start)%Q /\
   In (fold_left laterVersion ms start) (versionsIn ms)).
Proof.
  revert start. induction ms as [| m ms IH]; intros start; simpl; [now left |].
  destruct (IH (laterVersion start m)) as [Heq | [Hlt Hin]];
    rewrite laterVersion_versionOf in *;
    destruct (versionOf m) as [v |]; simpl; auto.
  - destruct (gt v start) eqn:E; [| now left].
    right. rewrite Heq. apply gt_lt in E. auto.
  - right. split; [| now right].
    destruct (gt v start) eqn:E; [apply gt_lt in E; lra | assumption].
Qed.

Lemma getNextMenuVersion_eq (email : value) (f : dbfile) :
  exists f1,
    getNextMenuVersion email f
    = (Ok (B64.plusOne (maxVersion (menusOf email f))), f1) /\
    contents f1 = contents f /\
    getNextMenuVersion email f1
    = (Ok (B64.plusOne (maxVersion (menusOf email f))), f1).
Proof.
  destruct f; eexists; repeat split; reflexivity.
Qed.

(** The greatest of 0 and the stored versions is not negative. *)
Lemma maxVersion_nonneg (ms : list obj) : (0 <= maxVersion ms)%Q.
Proof. exact (proj1 (fold_laterVersion_bound ms 0)). Qed.

(** C9 (as stated, refuted).  After a reply that carries the version -5
    was stored for a key, the key has one stored version, -5, and the
    sequencer returns 1, not the maximum stored version plus 1, -4. *)
Lemma next_version_is_not_max_plus_one :
  let f := snd (generateWeeklyMenu (replies (dq "{'version':-5,'days':[]}"))
                  1000 requestA registered) in
  storedVersions alice f = [(-5)%Q] /\
  fst (getNextMenuVersion alice f) = Ok 1%Q /\
  specNextVersion alice f = (-4)%Q /\
  fst (getNextMenuVersion alice f) <> Ok (specNextVersion alice f).
Proof.
  repeat split; try (vm_compute; reflexivity).
  vm_compute. discriminate.
Qed.

(** C9 (amended).  The sequencer returns [v + 1], added in binary64,
    where [v] is the greatest of 0 and the numeric versions stored for the
    key.  That is 1 when no positive version is stored for the key (in
    particular when no menu is), the maximum stored version plus 1 when
    that maximum is an integer below 2^53, and 2^53 again when the
    maximum is 2^53.  It is a pure read: the contents of the store are
    unchanged and a second call returns the same. *)
Theorem getNextMenuVersion_max_plus_one (email : value) (f : dbfile) :
  exists v f1,
    getNextMenuVersion email f = (Ok (B64.plusOne v), f1) /\
    contents f1 = contents f /\
    getNextMenuVersion email f1 = (Ok (B64.plusOne v), f1) /\
    (forall x, In x (storedVersions email f) -> (x <= v)%Q) /\
    (v = 0%Q \/ ((0 < v)%Q /\ In v (storedVersions email f))) /\
    ((forall x, In x (storedVersions email f) -> (x <= 0)%Q) ->
     getNextMenuVersion email f = (Ok 1%Q, f1)) /\
    (menusOf email f = [] -> getNextMenuVersion email f = (Ok 1%Q, f1)) /\
    (forall n, (v == inject_Z n)%Q -> (n < 2 ^ 53)%Z ->
               getNextMenuVersion email f = (Ok (inject_Z (n + 1)), f1)) /\
    ((v == inject_Z (2 ^ 53))%Q ->
     getNextMenuVersion email f = (Ok (inject_Z (2 ^ 53)), f1)).
Proof.
  destruct (getNextMenuVersion_eq email f) as [f1 (H1 & Hc & H2)].
  exists (maxVersion (menusOf email f)), f1.
  pose proof (fold_laterVersion_bound (menusOf email f) 0) as [_ Hb].
  pose proof (fold_laterVersion_attained (menusOf email f) 0) as Ha.
  pose proof (maxVersion_nonneg (menusOf email f)) as H0.
  fold (maxVersion (menusOf email f)) in Hb, Ha.
  fold (storedVersions email f) in Hb, Ha.
  repeat split; try assumption.
  - intros Hlow. destruct Ha as [Ha | [Hpos Hin]].
    + rewrite H1, Ha. reflexivity.
    + apply Hlow in Hin. lra.
  - intros Hnone. rewrite H1, Hnone. reflexivity.
  - intros n Hn Hlt. rewrite H1. do 2 f_equal.
    apply plusOne_exact; [assumption |]. split; [| assumption].
    rewrite Hn in H0. change 0%Q with (inject_Z 0) in H0.
    now rewrite <- Zle_Qle in H0.
  - intros Hn. rewrite H1. do 2 f_equal. now apply plusOne_saturates.
Qed.

(** C9 at a key without menus: the hypothesis of the part on keys without
    menus holds and the sequencer returns 1. *)
Lemma getNextMenuVersion_max_plus_one_witness :
  menusOf alice registered = [] /\
  exists f1, getNextMenuVersion alice registered = (Ok 1%Q, f1).
Proof.
  split; [reflexivity |].
  destruct (getNextMenuVersion_max_plus_one alice registered)
    as (v & f1 & _ & _ & _ & _ & _ & _ & Hnone & _).
  exists f1. apply Hnone. reflexivity.
Defined.

(** ** Menu generation *)

(** A request is answered with status 200 only on the path that stores a
    menu: the key is registered, the calorie target is computed, a provider
    is configured, and the stored menu is the one built from the plan. *)
Lemma generate_ok (ai : provider) (now : Q) (body : value) (f f' : dbfile)
  (res : value) :
  generateWeeklyMenu ai now body f = (Reply 200 res, f') ->
  exists email profile dailyCalories reply,
    get body "email" = Some email /\
    get body "profile" = Some profile /\
    calculateDailyCalories profile = Ok dailyCalories /\
    ai = Some reply /\
    persisted f f' (menuFor email reply dailyCalories now f) /\
    res = VObj (without "email" (menuFor email reply dailyCalories now f)).
Proof.
  unfold generateWeeklyMenu, generateWeeklyMenuTry.
  destruct (get body "email") as [email |]; [| discriminate].
  destruct (get body "profile") as [profile |]; [| discriminate].
  destruct (negb (truthy email) || negb (truthy profile)); [discriminate |].
  unfold bind at 1. unfold findUser, bind at 1, ret.
  destruct f as [| | d]; cbn [readDb find users emptyDb]; try discriminate.
  destruct (find (hasEmail email) (users d)) as [user |]; [| discriminate].
  unfold bind at 1, lift.
  destruct (calculateDailyCalories profile) as [dailyCalories | e] eqn:Hcal;
    [| discriminate].
  unfold bind at 1. unfold getNextMenuVersion, bind at 1, ret.
  cbn [readDb].
  unfold bind at 1, lift.
  destruct (prompt profile) as [[] | e]; [| discriminate].
  destruct ai as [reply |]; [| discriminate].
  unfold bind, saveMenu, bind, readDb, writeDb.
  intros H. injection H as <- <-.
  exists email, profile, dailyCalories, reply.
  repeat split; try reflexivity. exact Hcal.
Qed.

(** Without a provider no request stores a menu or is answered with 200. *)
Lemma generate_unconfigured (now : Q) (body : value) (f : dbfile) :
  exists status message f',
    generateWeeklyMenu None now body f = (Reply status (errorBody message), f') /\
    status <> 200 /\ contents f' = contents f.
Proof.
  unfold generateWeeklyMenu, generateWeeklyMenuTry.
  destruct (get body "email") as [email |]; [| answered].
  destruct (get body "profile") as [profile |]; [| answered].
  destruct (negb (truthy email) || negb (truthy profile)); [answered |].
  unfold bind at 1. unfold findUser, bind at 1, ret.
  destruct f as [| | d]; cbn [readDb find users emptyDb]; try answered.
  destruct (find (hasEmail email) (users d)) as [user |]; [| answered].
  unfold bind at 1, lift.
  destruct (calculateDailyCalories profile) as [dailyCalories | e];
    [| answered].
  unfold bind at 1. unfold getNextMenuVersion, bind at 1, ret.
  cbn [readDb].
  unfold bind at 1, lift.
  destruct (prompt profile) as [[] | e]; answered.
Qed.

(** C1 (code evaluated at the failing input).  With no provider
    configured, the request of a registered user with the profile of
    scenario A is answered with status 500 and an error body, and the
    database is left as it was: no fallback menu is stored or returned.
    The same holds for every request: none is answered with 200, none
    changes the contents of the database.  The same request with a
    provider that is configured and fails is answered with the fallback
    days, the warning and version 1, which are stored. *)
Theorem unconfigured_provider_answers_500 :
  generateWeeklyMenu None 1000 requestA registered
  = (Reply 500 (errorBody "Server error generating weekly menu."), registered)
  /\ (forall now body f,
        exists status message f',
          generateWeeklyMenu None now body f
          = (Reply status (errorBody message), f') /\
          status <> 200 /\ contents f' = contents f)
  /\ (let menu :=
        [("version", VNum 1); ("dailyCalories", VNum 2207);
         ("days", VArr fallbackDays); ("generatedAt", VNum 1000);
         ("warning", VStr fallbackWarning)] in
      fst (generateWeeklyMenu rejects 1000 requestA registered)
      = Reply 200 (VObj menu) /\
      persisted registered
        (snd (generateWeeklyMenu rejects 1000 requestA registered))
        (("email", alice) :: menu)).
Proof.
  split; [vm_compute; reflexivity |].
  split; [exact generate_unconfigured |].
  repeat split; vm_compute; reflexivity.
Qed.

Lemma buildMenu_fields (email : value) (days : list value) (v : Q)
  (w : option string) (dailyCalories : number) (now : Q) :
  let menu := buildMenu email (days, v, w) dailyCalories now in
  assoc "email" menu = Some email /\
  assoc "version" menu = Some (jsonOfNumber (B64.fit v)) /\
  daysOf menu = Some (map storedValue days) /\
  assoc "warning" menu = option_map VStr w /\
  get (VObj (without "email" menu)) "days" = Some (VArr (map storedValue days)).
Proof.
  destruct w; repeat split; reflexivity.
Qed.

(** A version within the range of binary64 is stored as it is. *)
Lemma versionOf_fit (menu : obj) (v : Q) :
  assoc "version" menu = Some (jsonOfNumber (B64.fit v)) ->
  B64.fit v = Fin v -> versionOf menu = Some v.
Proof. intros H E. unfold versionOf. now rewrite H, E. Qed.

Lemma acceptParsed_array (parsed : value) (days : list value) :
  get parsed "days" = Some (VArr days) ->
  acceptParsed parsed
  = Ok (days, match get parsed "version" with
              | Some (VNum v) => Some v
              | _ => None
              end).
Proof.
  intros H. unfold acceptParsed.
  destruct parsed; try discriminate. simpl truthy. cbn [negb].
  now rewrite H.
Qed.

Lemma acceptParsed_no_array (parsed : value) :
  (forall days, get parsed "days" <> Some (VArr days)) ->
  acceptParsed parsed = Throw (Error (dq "Parsed JSON has no 'days' array.")).
Proof.
  intros H. unfold acceptParsed.
  destruct (negb (truthy parsed)); [reflexivity |].
  destruct (get parsed "days") as [[] |]; try reflexivity.
  now contradiction (H items).
Qed.

(** A plan without warning comes from a reply that was extracted and whose
    [days] is the array that the plan carries. *)
Lemma askProvider_ok (reply : result (option string)) (days : list value)
  (version : option Q) :
  askProvider reply = Ok (days, version) ->
  exists rawText parsed,
    reply = Ok rawText /\
    extractJsonFromText (VStr (stringOrEmpty rawText)) = Ok parsed /\
    get parsed "days" = Some (VArr days) /\
    version = match get parsed "version" with
              | Some (VNum v) => Some v
              | _ => None
              end.
Proof.
  unfold askProvider. destruct reply as [rawText | e]; [| discriminate].
  cbn [rbind].
  destruct (extractJsonFromText (VStr (stringOrEmpty rawText)))
    as [parsed | e] eqn:He; [| discriminate].
  cbn [rbind]. unfold acceptParsed.
  destruct (negb (truthy parsed)); [discriminate |].
  destruct (get parsed "days") as [[] |] eqn:Hd; try discriminate.
  intros H. injection H as <- <-.
  exists rawText, parsed. auto.
Qed.

(** C8.  The only check on the extracted object is that [days] is an
    array: the object is rejected exactly when it is not, and when it is,
    the array is taken as the menu's days as it is, whatever it holds.  In
    the handler the plan is the fallback with its warning exactly when
    [days] is not an array. *)
Theorem days_array_is_the_only_check (parsed : value) :
  ((exists e, acceptParsed parsed = Throw e) <->
   ~ (exists days, get parsed "days" = Some (VArr days)))
  /\ (forall days, get parsed "days" = Some (VArr days) ->
        exists version, acceptParsed parsed = Ok (days, version))
  /\ (forall rawText version,
        extractJsonFromText (VStr (stringOrEmpty rawText)) = Ok parsed ->
        planMenu (Ok rawText) version
        = match get parsed "days" with
          | Some (VArr days) =>
              (days,
               match get parsed "version" with
               | Some (VNum v) => v
               | _ => version
               end,
               None)
          | _ => (fallbackDays, version, Some fallbackWarning)
          end).
Proof.
  repeat split.
  - intros [e He] [days Hd].
    rewrite (acceptParsed_array _ _ Hd) in He. discriminate.
  - intros Hn. eexists. apply acceptParsed_no_array.
    intros days Hd. apply Hn. now exists days.
  - intros days Hd. eexists. now apply acceptParsed_array.
  - intros rawText version He.
    unfold planMenu, askProvider. cbn [rbind]. rewrite He. cbn [rbind].
    destruct (get parsed "days") as [[| | | | days |] |] eqn:Hd;
      try (rewrite acceptParsed_no_array by (intros ? ?; congruence);
           reflexivity).
    rewrite (acceptParsed_array _ _ Hd).
    destruct (get parsed "version") as [[] |]; reflexivity.
Qed.

(** C8 at a reply whose single day has none of the fields of a day. *)
Lemma days_array_is_the_only_check_witness :
  planMenu (Ok (Some (dq "{'days':[{}]}"))) 4 = ([VObj []], 4%Q, None).
Proof.
  destruct (days_array_is_the_only_check (VObj [("days", VArr [VObj []])]))
    as (_ & _ & H).
  apply (H (Some (dq "{'days':[{}]}")) 4%Q).
  reflexivity.
Defined.

(** C2 (as stated, refuted).  Two requests of the same user in a row, the
    provider replying with version 7 and then with version 2: the second
    stored menu has version 2, which does not exceed the stored 7. *)
Lemma provider_version_breaks_order :
  let first := mkRequest (replies (dq "{'version':7,'days':[]}")) 1000 requestA in
  let second := mkRequest (replies (dq "{'version':2,'days':[]}")) 2000 requestA in
  let f1 := snd (serve [first] registered) in
  let f2 := snd (serve [first; second] registered) in
  exists menu,
    persisted f1 f2 menu /\
    storedVersions alice f1 = [7%Q] /\
    versionOf menu = Some 2%Q /\
    ~ exceedsStored alice f1 menu.
Proof.
  eexists. split; [split; vm_compute; reflexivity |].
  split; [vm_compute; reflexivity |].
  split; [vm_compute; reflexivity |].
  intros [v' [Hv H]].
  vm_compute in Hv. injection Hv as <-.
  specialize (H 7%Q (or_introl eq_refl)).
  vm_compute in H. discriminate.
Qed.

(** A request that stores a menu stores it under the key of the request
    with the version that the provider's accepted reply carries, when it
    carries one, and with the version of the sequencer otherwise. *)
Lemma generate_version (ai : provider) (now : Q) (body : value)
  (f f' : dbfile) (res : value) :
  generateWeeklyMenu ai now body f = (Reply 200 res, f') ->
  exists email menu,
    get body "email" = Some email /\
    persisted f f' menu /\
    assoc "email" menu = Some email /\
    assoc "version" menu
    = Some (jsonOfNumber
              (B64.fit match providerVersion ai with
                       | Some v => v
                       | None => B64.plusOne (maxVersion (menusOf email f))
                       end)).
Proof.
  intros H. apply generate_ok in H.
  destruct H as (email & profile & dc & reply & He & _ & _ & -> & Hp & _).
  unfold menuFor in Hp.
  unfold providerVersion, planMenu in *.
  destruct (askProvider reply) as [[days [v |]] | e];
    match type of Hp with
    | persisted _ _ (buildMenu _ (?d, ?v, ?w) _ _) =>
        destruct (buildMenu_fields email d v w dc now) as (Hm & Hv & _);
        exists email, (buildMenu email (d, v, w) dc now)
    end; auto.
Qed.

(** A request that is not answered with 200 leaves the contents of the
    database as they were. *)
Lemma generate_not_ok (ai : provider) (now : Q) (body : value) (f f' : dbfile)
  (status : nat) (res : value) :
  generateWeeklyMenu ai now body f = (Reply status res, f') ->
  status <> 200 -> contents f' = contents f.
Proof.
  unfold generateWeeklyMenu, generateWeeklyMenuTry.
  destruct (get body "email") as [email |]; [| unchanged].
  destruct (get body "profile") as [profile |]; [| unchanged].
  destruct (negb (truthy email) || negb (truthy profile)); [unchanged |].
  unfold bind at 1. unfold findUser, bind at 1, ret.
  destruct f as [| | d]; cbn [readDb find users emptyDb]; try unchanged.
  destruct (find (hasEmail email) (users d)) as [user |]; [| unchanged].
  unfold bind at 1, lift.
  destruct (calculateDailyCalories profile) as [dailyCalories | e];
    [| unchanged].
  unfold bind at 1. unfold getNextMenuVersion, bind at 1, ret.
  cbn [readDb].
  unfold bind at 1, lift.
  destruct (prompt profile) as [[] | e]; [| unchanged].
  destruct ai as [reply |]; [| unchanged].
  unfold bind, saveMenu, bind, readDb, writeDb.
  intros H. injection H as <- _ _. congruence.
Qed.

Lemma generate_cases (ai : provider) (now : Q) (body : value) (f : dbfile) :
  (exists res f', generateWeeklyMenu ai now body f = (Reply 200 res, f')) \/
  contents (snd (generateWeeklyMenu ai now body f)) = contents f.
Proof.
  destruct (generateWeeklyMenu ai now body f) as [[status res] f'] eqn:E.
  destruct (Nat.eq_dec status 200) as [-> | Hs].
  - left. now exists res, f'.
  - right. exact (generate_not_ok _ _ _ _ _ _ _ E Hs).
Qed.

(** Keys that are strictly equal select the same menus. *)
Lemma strict_eq_same_key (a b x : value) :
  strict_eq a b = true -> strict_eq x b = strict_eq x a.
Proof.
  destruct a as [| a | a | a | |], b as [| b | b | b | |]; try discriminate;
    intros H; destruct x as [| x | x | x | |]; try reflexivity; simpl in *.
  - apply Bool.eqb_prop in H. now subst.
  - apply Qeq_bool_iff in H.
    destruct (Qeq_bool x b) eqn:Eb, (Qeq_bool x a) eqn:Ea; try reflexivity.
    + apply Qeq_bool_iff in Eb. apply Qeq_bool_neq in Ea.
      exfalso. apply Ea. rewrite Eb. now symmetry.
    + apply Qeq_bool_iff in Ea. apply Qeq_bool_neq in Eb.
      exfalso. apply Eb. now rewrite Ea.
  - apply String.eqb_eq in H. now subst.
Qed.

Lemma menus_of_same_key (a b : value) (ms : list obj) :
  strict_eq a b = true -> filter (hasEmail b) ms = filter (hasEmail a) ms.
Proof.
  intros H. apply filter_ext. intros m. unfold hasEmail.
  destruct (assoc "email" m); [| reflexivity].
  now apply strict_eq_same_key.
Qed.

Lemma versionsIn_app (a b : list obj) :
  versionsIn (a ++ b) = versionsIn a ++ versionsIn b.
Proof. apply flat_map_app. Qed.

Lemma sorted_snoc (l : list Q) (y : Q) :
  StronglySorted Qlt l -> (forall x, In x l -> (x < y)%Q) ->
  StronglySorted Qlt (l ++ [y]).
Proof.
  induction 1 as [| a l Hl IH Ha]; intros Hy; simpl.
  - repeat constructor.
  - constructor.
    + apply IH. intros x Hx. apply Hy. now right.
    + apply Forall_app. split; [assumption |].
      constructor; [| constructor]. apply Hy. now left.
Qed.

(** Over versions that are integers below a bound of at most 2^53, the
    sequencer's version is an integer that exceeds them all, is at most
    the bound, and is stored as it is. *)
Lemma next_version_exceeds (ms : list obj) (b : Z) :
  (0 < b <= 2 ^ 53)%Z ->
  (forall x, In x (versionsIn ms) -> B64.integerBelow b x) ->
  exists n : Z,
    B64.plusOne (maxVersion ms) = inject_Z n /\
    (0 < n <= b)%Z /\
    B64.fit (inject_Z n) = Fin (inject_Z n) /\
    (forall x, In x (versionsIn ms) -> (x < inject_Z n)%Q) /\
    (maxVersion ms < inject_Z n)%Q.
Proof.
  intros [Hb0 Hb] Hint.
  pose proof (fold_laterVersion_bound ms 0) as [_ Hbound].
  pose proof (fold_laterVersion_attained ms 0) as Hatt.
  pose proof (maxVersion_nonneg ms) as H0.
  fold (maxVersion ms) in Hbound, Hatt.
  assert (Hk : exists k, (maxVersion ms == inject_Z k)%Q /\ (0 <= k < b)%Z).
  { destruct Hatt as [E | [_ Hin]].
    - exists 0%Z. rewrite E. split; [reflexivity | lia].
    - destruct (Hint _ Hin) as (k & Ek & Hk). exists k. split; [exact Ek |].
      split; [| exact Hk].
      rewrite Ek in H0. change 0%Q with (inject_Z 0) in H0.
      now rewrite <- Zle_Qle in H0. }
  destruct Hk as (k & Ek & Hk0 & Hkb).
  exists (k + 1)%Z. split; [apply plusOne_exact; [exact Ek | lia] |].
  split; [lia |]. split; [apply fit_integer; lia |].
  rewrite inject_Z_plus. change (inject_Z 1) with 1%Q.
  split; [| lra].
  intros x Hx. apply Hbound in Hx. lra.
Qed.

(** One request keeps the versions stored for a key in increasing order
    and below the bound, unless the provider supplies the version. *)
Lemma generate_keeps_order (ai : provider) (now : Q) (body email : value)
  (f : dbfile) (b : Z) :
  providerVersion ai = None ->
  (0 < b < 2 ^ 53)%Z ->
  (forall x, In x (storedVersions email f) -> B64.integerBelow b x) ->
  StronglySorted Qlt (storedVersions email f) ->
  StronglySorted Qlt
    (storedVersions email (snd (generateWeeklyMenu ai now body f))) /\
  forall x, In x (storedVersions email (snd (generateWeeklyMenu ai now body f))) ->
            B64.integerBelow (b + 1) x.
Proof.
  intros Hai Hb Hint Hs.
  assert (Hweak : forall x, In x (storedVersions email f) ->
                            B64.integerBelow (b + 1) x).
  { intros x Hx. destruct (Hint x Hx) as (k & Ek & Hk).
    exists k. split; [exact Ek | lia]. }
  destruct (generate_cases ai now body f) as [(res & f' & H) | H].
  - rewrite H. cbn [snd].
    apply generate_version in H.
    destruct H as (key & menu & _ & [Hm _] & Hkey & Hv).
    rewrite Hai in Hv.
    unfold storedVersions, menusOf in *. rewrite Hm, filter_app, versionsIn_app.
    cbn [filter]. unfold hasEmail at 2 4. rewrite Hkey.
    destruct (strict_eq key email) eqn:E.
    + rewrite <- (menus_of_same_key _ _ _ E) in Hv.
      destruct (next_version_exceeds (filter (hasEmail email) (menus (contents f))) b)
        as (n & En & Hn & Hfit & Hx & _); [lia | exact Hint |].
      rewrite En in Hv. apply versionOf_fit in Hv; [| exact Hfit].
      cbn [versionsIn flat_map]. rewrite Hv. cbn [app]. split.
      * apply sorted_snoc; assumption.
      * intros x Hin. apply in_app_or in Hin. destruct Hin as [Hin | [<- | []]].
        -- now apply Hweak.
        -- exists n. split; [reflexivity | lia].
    + cbn [versionsIn flat_map]. rewrite app_nil_r. now split.
  - unfold storedVersions, menusOf in *. rewrite H. now split.
Qed.

(** C2 (amended).  Requests are served one after the other.  A request
    that stores a menu stores it under the key of the request.  When the
    provider's accepted reply carries a numeric version of its own, the
    stored version is the provider's, or [null] when that is a number
    beyond the range of binary64.  Otherwise, on the fallback path too,
    and when the versions stored before for the key are integers below
    2^53, the stored version is an integer that exceeds every version
    stored before for the key.  Hence over every sequence of fewer than
    2^53 requests none of which has a reply with a version, the versions
    stored for a key stay in strictly increasing order, when they are
    integers that leave room below 2^53 for the number of requests.  At
    a stored maximum of 2^53 the stored version is 2^53 again; and a reply
    with the version 1e400 is stored with the version [null]. *)
Theorem version_exceeds_stored_unless_overridden :
  (forall ai now body f f' res,
      generateWeeklyMenu ai now body f = (Reply 200 res, f') ->
      exists email menu,
        get body "email" = Some email /\
        persisted f f' menu /\
        assoc "email" menu = Some email /\
        match providerVersion ai with
        | Some v => assoc "version" menu = Some (jsonOfNumber (B64.fit v))
        | None =>
            ((forall x, In x (storedVersions email f) ->
                        B64.integerBelow (2 ^ 53) x) ->
             exists v',
               versionOf menu = Some v' /\
               B64.integerBelow (2 ^ 53 + 1) v' /\
               forall x, In x (storedVersions email f) -> (x < v')%Q) /\
            ((maxVersion (menusOf email f) == inject_Z (2 ^ 53))%Q ->
             versionOf menu = Some (inject_Z (2 ^ 53)))
        end)
  /\ (forall rs f email,
        (forall r, In r rs -> providerVersion (req_ai r) = None) ->
        (Z.of_nat (List.length rs) < 2 ^ 53)%Z ->
        (forall x, In x (storedVersions email f) ->
                   B64.integerBelow (2 ^ 53 - Z.of_nat (List.length rs)) x) ->
        StronglySorted Qlt (storedVersions email f) ->
        StronglySorted Qlt (storedVersions email (snd (serve rs f))))
  /\ (exists menu,
        persisted registered
          (snd (generateWeeklyMenu (replies (dq "{'version':1e400,'days':[]}"))
                  1000 requestA registered)) menu /\
        assoc "version" menu = Some VNull).
Proof.
  split; [| split].
  - intros ai now body f f' res H. apply generate_version in H.
    destruct H as (email & menu & He & Hp & Hm & Hv).
    exists email, menu. repeat (split; [assumption |]).
    destruct (providerVersion ai) as [v |]; [exact Hv |].
    split.
    + intros Hint.
      destruct (next_version_exceeds (menusOf email f) (2 ^ 53))
        as (n & En & Hn & Hfit & Hx & _); [lia | exact Hint |].
      rewrite En in Hv. exists (inject_Z n).
      split; [now apply versionOf_fit |].
      split; [exists n; split; [reflexivity | lia] | exact Hx].
    + intros Hmax. rewrite (plusOne_saturates _ Hmax) in Hv.
      apply versionOf_fit; [exact Hv |]. now apply fit_integer.
  - induction rs as [| r rs IH]; intros f email Hrs Hlen Hint Hs; [exact Hs |].
    cbn [serve].
    destruct (generateWeeklyMenu (req_ai r) (req_now r) (req_body r) f)
      as [res f1] eqn:E1.
    destruct (serve rs f1) as [ress f2] eqn:E2. cbn [snd].
    change f2 with (snd (ress, f2)). rewrite <- E2.
    cbn [List.length] in Hlen, Hint. rewrite Nat2Z.inj_succ in Hlen, Hint.
    destruct (generate_keeps_order (req_ai r) (req_now r) (req_body r) email f
                (2 ^ 53 - Z.succ (Z.of_nat (List.length rs))))
      as [Hsorted Hbelow]; try assumption.
    + apply Hrs. now left.
    + lia.
    + rewrite E1 in Hsorted, Hbelow. cbn [snd] in Hsorted, Hbelow.
      apply IH; [intros r' Hr'; apply Hrs; now right | lia | | assumption].
      intros x Hx. destruct (Hbelow x Hx) as (k & Ek & Hk).
      exists k. split; [exact Ek | lia].
  - eexists. split; [split; vm_compute; reflexivity |]. reflexivity.
Qed.

(** C2 at a fallback menu followed by a menu from a reply without
    version. *)
Lemma version_exceeds_stored_unless_overridden_witness :
  let f1 := snd (generateWeeklyMenu rejects 1000 requestA registered) in
  let f2 := snd (generateWeeklyMenu (replies (dq "{'days':[]}")) 2000 requestA f1) in
  (exists menu v',
     persisted f1 f2 menu /\ versionOf menu = Some v' /\
     forall x, In x (storedVersions alice f1) -> (x < v')%Q)
  /\ StronglySorted Qlt
       (storedVersions alice
          (snd (serve [mkRequest rejects 1000 requestA;
                       mkRequest (replies (dq "{'days':[]}")) 2000 requestA]
                  registered))).
Proof.
  cbv zeta.
  destruct version_exceeds_stored_unless_overridden as (Hstep & Hseq & _).
  split.
  - destruct (Hstep
                (replies (dq "{'days':[]}")) 2000%Q requestA
                (snd (generateWeeklyMenu rejects 1000 requestA registered))
                (snd (generateWeeklyMenu (replies (dq "{'days':[]}")) 2000 requestA
                        (snd (generateWeeklyMenu rejects 1000 requestA registered))))
                (match fst (generateWeeklyMenu (replies (dq "{'days':[]}")) 2000 requestA
                        (snd (generateWeeklyMenu rejects 1000 requestA registered)))
                 with Reply _ b => b end)
                eq_refl)
      as (email & menu & He & Hp & _ & Hv).
    injection He as <-.
    change (providerVersion (replies (dq "{'days':[]}"))) with (@None Q) in Hv.
    cbv beta iota in Hv. destruct Hv as [Hv _].
    destruct Hv as (v' & Hv & _ & Hx).
    + intros x [<- | []]. exists 1%Z. split; [reflexivity | reflexivity].
    + exists menu, v'. auto.
  - apply Hseq.
    + intros r [<- | [<- | []]]; reflexivity.
    + reflexivity.
    + intros x [].
    + constructor.
Defined.

(** C3 (as stated, refuted).  When the provider's call fails, the stored
    menu has the two days of the fallback, not seven; and a reply with an
    empty [days] is stored with no day at all. *)
Lemma stored_menu_without_seven_days :
  (exists menu,
     persisted registered
       (snd (generateWeeklyMenu rejects 1000 requestA registered)) menu /\
     daysOf menu = Some fallbackDays /\ List.length fallbackDays = 2 /\
     ~ sevenDays menu)
  /\ (exists menu,
        persisted registered
          (snd (generateWeeklyMenu (replies (dq "{'days':[]}")) 1000 requestA
                  registered)) menu /\
        daysOf menu = Some [] /\ ~ sevenDays menu).
Proof.
  split; eexists; (split; [split; vm_compute; reflexivity |]);
    repeat (split; [vm_compute; reflexivity |]);
    intros [days [Hd Hl]]; vm_compute in Hd; injection Hd as <-; discriminate.
Qed.

(** What [JSON.stringify] writes of a value all of whose numbers are
    within the range of binary64 is the value itself. *)
Lemma storedValue_inRange : forall v, inRange v = true -> storedValue v = v.
Proof.
  fix IH 1. intros [| b | q | s | items | fields]; simpl; intros H;
    try reflexivity.
  - unfold B64.fits in H. destruct (B64.fit q) as [| z | |] eqn:E;
      try discriminate.
    apply fit_finite in E. now subst z.
  - f_equal. induction items as [| x items IHitems]; [reflexivity |].
    simpl in H. apply andb_prop in H. destruct H as [Hx Hitems].
    simpl. f_equal; [now apply IH | now apply IHitems].
  - f_equal. induction fields as [| [k x] fields IHfields]; [reflexivity |].
    simpl in H. apply andb_prop in H. destruct H as [Hx Hfields].
    simpl. f_equal; [f_equal; now apply IH | now apply IHfields].
Qed.

Lemma storedValues_inRange (days : list value) :
  forallb inRange days = true -> map storedValue days = days.
Proof.
  intros H. induction days as [| d days IH]; [reflexivity |].
  simpl in H. apply andb_prop in H. destruct H as [Hd Hdays].
  simpl. f_equal; [now apply storedValue_inRange | now apply IH].
Qed.

(** A reply whose single day is a number beyond the range of binary64 is
    stored with the day [null]. *)
Example stored_days_beyond_range :
  exists menu,
    persisted registered
      (snd (generateWeeklyMenu (replies (dq "{'days':[1e400]}")) 1000 requestA
              registered)) menu /\
    daysOf menu = Some [VNull].
Proof. eexists. split; [split; vm_compute; reflexivity |]. reflexivity. Qed.

(** C3 (amended).  Every menu that the handler stores holds an array of
    days, the same that is returned to the client: either the array [days]
    of the object extracted from the provider's reply, of whatever length
    and as [JSON.stringify] writes it, stored without warning; or the two
    days of the fallback, stored with the warning.  What is written of the
    array is the array as it is when every number in it is within the
    range of binary64; a number beyond it, such as 1e400, is written as
    [null]. *)
Theorem stored_days_from_reply_or_fallback (ai : provider) (now : Q)
  (body : value) (f f' : dbfile) (res : value) :
  generateWeeklyMenu ai now body f = (Reply 200 res, f') ->
  exists menu days,
    persisted f f' menu /\
    daysOf menu = Some (map storedValue days) /\
    get res "days" = Some (VArr (map storedValue days)) /\
    (forallb inRange days = true -> map storedValue days = days) /\
    map storedValue [VNum 7; VNum (inject_Z (10 ^ 400)); VArr [VNum (-1e400)]]
    = [VNum 7; VNull; VArr [VNull]] /\
    ((exists rawText parsed,
        ai = Some (Ok rawText) /\
        extractJsonFromText (VStr (stringOrEmpty rawText)) = Ok parsed /\
        get parsed "days" = Some (VArr days) /\
        assoc "warning" menu = None)
     \/ (days = fallbackDays /\ List.length days = 2 /\
         map storedValue days = days /\
         assoc "warning" menu = Some (VStr fallbackWarning))).
Proof.
  intros H. apply generate_ok in H.
  destruct H as (email & profile & dc & reply & _ & _ & _ & -> & Hp & ->).
  unfold menuFor in *. unfold planMenu in *.
  destruct (askProvider reply) as [[days v] | e] eqn:Hask.
  - apply askProvider_ok in Hask.
    destruct Hask as (rawText & parsed & -> & Hex & Hd & _).
    destruct v as [v |];
      match type of Hp with
      | persisted _ _ (buildMenu _ (?d, ?v, ?w) _ _) =>
          destruct (buildMenu_fields email d v w dc now) as (_ & _ & Hdays & Hw & Hres);
          exists (buildMenu email (d, v, w) dc now), d
      end;
      (split; [exact Hp | split; [exact Hdays | split; [exact Hres |]]]);
      (split; [apply storedValues_inRange |]);
      (split; [now vm_compute |]);
      left; exists rawText, parsed; auto.
  - match type of Hp with
    | persisted _ _ (buildMenu _ (?d, ?v, ?w) _ _) =>
        destruct (buildMenu_fields email d v w dc now) as (_ & _ & Hdays & Hw & Hres);
        exists (buildMenu email (d, v, w) dc now), d
    end.
    split; [exact Hp | split; [exact Hdays | split; [exact Hres |]]].
    split; [apply storedValues_inRange |].
    split; [now vm_compute |].
    right. auto.
Qed.

(** C3 at a request whose provider call is rejected. *)
Lemma stored_days_from_reply_or_fallback_witness :
  exists menu,
    persisted registered
      (snd (generateWeeklyMenu rejects 1000 requestA registered)) menu /\
    daysOf menu = Some fallbackDays.
Proof.
  destruct (stored_days_from_reply_or_fallback rejects 1000 requestA registered
              (snd (generateWeeklyMenu rejects 1000 requestA registered))
              (match fst (generateWeeklyMenu rejects 1000 requestA registered)
               with Reply _ b => b end)
              eq_refl)
    as (menu & days & Hp & Hd & _ & _ & _
        & [(rawText & parsed & Hai & _) | (-> & _ & Hsame & _)]).
  - discriminate.
  - exists menu. rewrite Hsame in Hd. auto.
Defined.

(** * Properties of the rest of the server *)

(** ** User records *)

Lemma strict_eq_sym (a b : value) : strict_eq a b = strict_eq b a.
Proof.
  destruct a as [| a | a | a | |], b as [| b | b | b | |]; try reflexivity; simpl.
  - destruct a, b; reflexivity.
  - destruct (Qeq_bool a b) eqn:E, (Qeq_bool b a) eqn:E'; try reflexivity.
    + apply Qeq_bool_iff in E. apply Qeq_bool_neq in E'.
      exfalso. apply E'. now symmetry.
    + apply Qeq_bool_iff in E'. apply Qeq_bool_neq in E.
      exfalso. apply E. now symmetry.
  - apply String.eqb_sym.
Qed.

Lemma strict_eq_opt_sym (a b : option value) :
  strict_eq_opt a b = strict_eq_opt b a.
Proof.
  destruct a, b; try reflexivity. apply strict_eq_sym.
Qed.

Lemma strict_eq_opt_same_key (a b x : option value) :
  strict_eq_opt a b = true -> strict_eq_opt x b = strict_eq_opt x a.
Proof.
  destruct a as [a |], b as [b |]; try discriminate; intros H;
    destruct x as [x |]; try reflexivity.
  now apply strict_eq_same_key.
Qed.

Lemma sameEmail_sym (a b : obj) : sameEmail a b = sameEmail b a.
Proof. apply strict_eq_opt_sym. Qed.

Lemma sameEmail_hasEmail (user u : obj) (e : value) :
  assoc "email" user = Some e -> sameEmail user u = hasEmail e u.
Proof.
  intros H. unfold sameEmail, hasEmail. rewrite H.
  destruct (assoc "email" u); reflexivity.
Qed.

(** Records with the same email answer every lookup alike. *)
Lemma hasEmail_same (a b : obj) (e : value) :
  sameEmail a b = true -> hasEmail e a = hasEmail e b.
Proof.
  unfold sameEmail, hasEmail.
  destruct (assoc "email" a) as [ea |], (assoc "email" b) as [eb |];
    try discriminate; [| reflexivity].
  simpl. intros H. rewrite (strict_eq_sym ea e), (strict_eq_sym eb e).
  now apply strict_eq_same_key.
Qed.

Lemma findIndex_none {A} (p : A -> bool) (l : list A) :
  findIndex p l = None -> forall x, In x l -> p x = false.
Proof.
  induction l as [| y l IH]; simpl; [tauto |].
  destruct (p y) eqn:E; [discriminate |].
  destruct (findIndex p l); [discriminate |].
  intros _ x [<- | Hin]; auto.
Qed.

(** The index that [findIndex] returns is that of the first match. *)
Lemma findIndex_some {A} (p : A -> bool) (l : list A) (i : nat) :
  findIndex p l = Some i ->
  exists pre x post,
    l = pre ++ x :: post /\ List.length pre = i /\ p x = true /\
    forall y, In y pre -> p y = false.
Proof.
  revert i. induction l as [| y l IH]; simpl; [discriminate |].
  intros i. destruct (p y) eqn:E.
  - intros H. injection H as <-. exists [], y, l. repeat split; auto.
    intros ? [].
  - destruct (findIndex p l) as [j |]; [| discriminate].
    intros H. injection H as <-.
    destruct (IH j eq_refl) as (pre & x & post & -> & <- & Hx & Hpre).
    exists (y :: pre), x, post. repeat split; auto.
    intros z [<- | Hz]; auto.
Qed.

Lemma setAt_middle {A} (pre post : list A) (x y : A) :
  setAt (List.length pre) y (pre ++ x :: post) = pre ++ y :: post.
Proof.
  induction pre as [| z pre IH]; simpl; [reflexivity |]. now rewrite IH.
Qed.

(** [saveUser] adds a record whose email is new and replaces the first
    record with the same email otherwise. *)
Lemma upsert_cases (user : obj) (users : list obj) :
  (upsert user users = users ++ [user] /\
   forall u, In u users -> sameEmail user u = false) \/
  (exists pre x post,
      users = pre ++ x :: post /\ upsert user users = pre ++ user :: post /\
      sameEmail user x = true /\
      forall u, In u pre -> sameEmail user u = false).
Proof.
  unfold upsert. destruct (findIndex (sameEmail user) users) as [i |] eqn:E.
  - right. apply findIndex_some in E.
    destruct E as (pre & x & post & -> & <- & Hx & Hpre).
    exists pre, x, post. rewrite setAt_middle. auto.
  - left. split; [reflexivity |]. now apply findIndex_none.
Qed.

Lemma find_none_all {A} (p : A -> bool) (l : list A) :
  (forall x, In x l -> p x = false) -> find p l = None.
Proof.
  induction l as [| y l IH]; intros H; simpl; [reflexivity |].
  rewrite (H y (or_introl eq_refl)). apply IH. intros x Hx. apply H. now right.
Qed.

Lemma find_skip {A} (p : A -> bool) (pre l : list A) :
  (forall x, In x pre -> p x = false) -> find p (pre ++ l) = find p l.
Proof.
  induction pre as [| y pre IH]; intros H; simpl; [reflexivity |].
  rewrite (H y (or_introl eq_refl)). apply IH. intros x Hx. apply H. now right.
Qed.

Lemma find_app_some {A} (p : A -> bool) (l l' : list A) (x : A) :
  find p l = Some x -> find p (l ++ l') = Some x.
Proof.
  induction l as [| y l IH]; simpl; [discriminate |].
  destruct (p y); auto.
Qed.

Lemma saveUser_eq (user : obj) (f : dbfile) :
  saveUser user f
  = (Ok tt, Stored (mkDb (upsert user (users (contents f))) (menus (contents f)))).
Proof. destruct f; reflexivity. Qed.

Lemma findUser_eq (email : value) (f : dbfile) :
  fst (findUser email f) = Ok (find (hasEmail email) (users (contents f))) /\
  contents (snd (findUser email f)) = contents f.
Proof. destruct f; split; reflexivity. Qed.

(** A value that is not strictly equal to itself is strictly equal to
    nothing. *)
Lemma strict_eq_never (e x : value) :
  strict_eq e e = false -> strict_eq x e = false.
Proof.
  intros He. destruct (strict_eq x e) eqn:H; [| reflexivity].
  rewrite (strict_eq_same_key x e e H), strict_eq_sym, H in He. discriminate.
Qed.

(** X1.  [saveUser(user)] replaces the first record whose email is
    strictly equal to the user's, or adds the user at the end when there
    is none, and leaves the other records and the menus as they were,
    whatever the file held before.  Afterwards [findUser] with the user's
    email, or with any value strictly equal to it, returns that record.
    This needs an email that is strictly equal to itself, which arrays and
    objects read back from the file are not: a user with such an email is
    added at the end, and [findUser] does not find it under that email.
    The record is one that is written to the file as it is: none of its
    numbers is beyond the range of binary64. *)
Theorem saveUser_then_findUser (user : obj) (f : dbfile) :
  storedValue (VObj user) = VObj user ->
  let f' := snd (saveUser user f) in
  menus (contents f') = menus (contents f) /\
  ((users (contents f') = users (contents f) ++ [user] /\
    forall u, In u (users (contents f)) -> sameEmail user u = false) \/
   (exists pre x post,
       users (contents f) = pre ++ x :: post /\
       users (contents f') = pre ++ user :: post /\
       sameEmail user x = true /\
       forall u, In u pre -> sameEmail user u = false)) /\
  (forall e e',
      assoc "email" user = Some e -> strict_eq e e' = true ->
      fst (findUser e' f') = Ok (Some user)) /\
  (forall e,
      assoc "email" user = Some e -> strict_eq e e = false ->
      users (contents f') = users (contents f) ++ [user] /\
      fst (findUser e f') = Ok None).
Proof.
  intros _. cbv zeta. rewrite saveUser_eq. cbn [snd contents users menus].
  split; [reflexivity |].
  split.
  { destruct (upsert_cases user (users (contents f)))
      as [[-> Hnone] | (pre & x & post & Hl & -> & Hx & Hpre)].
    - left. now split.
    - right. now exists pre, x, post. }
  split.
  - intros e e' He Heq.
    destruct (findUser_eq e' (Stored (mkDb (upsert user (users (contents f)))
                                           (menus (contents f))))) as [-> _].
    cbn [contents users]. f_equal.
    assert (Hself : hasEmail e' user = true) by (unfold hasEmail; now rewrite He).
    assert (Hsame : forall u, hasEmail e' u = sameEmail user u).
    { intros u. rewrite (sameEmail_hasEmail _ _ _ He). unfold hasEmail.
      destruct (assoc "email" u) as [x |]; [| reflexivity].
      now apply strict_eq_same_key. }
    destruct (upsert_cases user (users (contents f)))
      as [[-> Hnone] | (pre & x & post & _ & -> & _ & Hpre)].
    + rewrite find_skip by (intros u Hu; rewrite Hsame; auto).
      simpl. now rewrite Hself.
    + rewrite find_skip by (intros u Hu; rewrite Hsame; auto).
      simpl. now rewrite Hself.
  - intros e He Hne.
    assert (Hnever : forall u, hasEmail e u = false).
    { intros u. unfold hasEmail. destruct (assoc "email" u) as [x |];
        [| reflexivity]. now apply strict_eq_never. }
    assert (Happend : upsert user (users (contents f))
                      = users (contents f) ++ [user]).
    { destruct (upsert_cases user (users (contents f)))
        as [[-> _] | (pre & x & post & _ & _ & Hx & _)]; [reflexivity |].
      rewrite (sameEmail_hasEmail _ _ _ He), Hnever in Hx. discriminate. }
    split; [exact Happend |].
    destruct (findUser_eq e (Stored (mkDb (upsert user (users (contents f)))
                                          (menus (contents f))))) as [-> _].
    f_equal. apply find_none_all. intros u _. apply Hnever.
Qed.

(** X1 at a new user saved next to the registered one. *)
Lemma saveUser_then_findUser_witness :
  let user := [("email", VStr "bob@example.org"); ("passwordHash", VStr "h")] in
  fst (findUser (VStr "bob@example.org") (snd (saveUser user registered)))
  = Ok (Some user).
Proof.
  cbv zeta.
  destruct (saveUser_then_findUser
              [("email", VStr "bob@example.org"); ("passwordHash", VStr "h")]
              registered eq_refl) as (_ & _ & Hfind & _).
  apply (Hfind (VStr "bob@example.org")); reflexivity.
Defined.

Section OrderedPairs.

Context {A : Type} (R : A -> A -> Prop).

Lemma FOP_app (l1 l2 : list A) :
  ForallOrdPairs R (l1 ++ l2) <->
  ForallOrdPairs R l1 /\ ForallOrdPairs R l2 /\
  forall a b, In a l1 -> In b l2 -> R a b.
Proof.
  induction l1 as [| x l1 IH]; simpl.
  - split; [intros H | intros (_ & H & _); exact H].
    repeat split; [constructor | exact H | intros ? ? []].
  - split.
    + intros H. inversion H as [| ? ? Hx Hl]; subst.
      apply IH in Hl. destruct Hl as (H1 & H2 & H12).
      apply Forall_app in Hx. destruct Hx as [Hx1 Hx2].
      repeat split; [now constructor | assumption |].
      intros a b [<- | Ha] Hb; [| now apply H12].
      rewrite Forall_forall in Hx2. now apply Hx2.
    + intros (H1 & H2 & H12). inversion H1 as [| ? ? Hx Hl]; subst.
      constructor.
      * apply Forall_app. split; [assumption |].
        apply Forall_forall. intros b Hb. apply H12; [now left | assumption].
      * apply IH. repeat split; auto.
Qed.

End OrderedPairs.

(** [saveUser] keeps the emails of the records distinct. *)
Lemma upsert_distinct (user : obj) (users : list obj) :
  distinctEmails users -> distinctEmails (upsert user users).
Proof.
  unfold distinctEmails. intros Hd.
  destruct (upsert_cases user users)
    as [[-> Hnone] | (pre & x & post & -> & -> & Hx & Hpre)].
  - apply FOP_app. repeat split; [assumption | repeat constructor |].
    intros a b Ha [<- | []]. rewrite sameEmail_sym. now apply Hnone.
  - apply FOP_app in Hd. destruct Hd as (Hd1 & Hd2 & Hd12).
    inversion Hd2 as [| ? ? Hxpost Hdpost]; subst.
    apply FOP_app. repeat split; [assumption | |].
    + constructor; [| assumption].
      rewrite Forall_forall in *. intros q Hq.
      specialize (Hxpost q Hq). unfold sameEmail in *.
      rewrite (strict_eq_opt_same_key _ _ (assoc "email" q) Hx). exact Hxpost.
    + intros a b Ha [<- | Hb].
      * rewrite sameEmail_sym. now apply Hpre.
      * apply Hd12; [assumption | now right].
Qed.

Lemma find_first {A} (p : A -> bool) (l : list A) (x : A) :
  find p l = Some x ->
  exists pre post,
    l = pre ++ x :: post /\ p x = true /\ forall y, In y pre -> p y = false.
Proof.
  induction l as [| y l IH]; simpl; [discriminate |].
  destruct (p y) eqn:E.
  - intros H. injection H as ->. exists [], l. repeat split; auto. intros ? [].
  - intros H. destruct (IH H) as (pre & post & -> & Hx & Hpre).
    exists (y :: pre), post. repeat split; auto.
    intros z [<- | Hz]; auto.
Qed.

Lemma findIndex_first {A} (p : A -> bool) (pre post : list A) (x : A) :
  p x = true -> (forall y, In y pre -> p y = false) ->
  findIndex p (pre ++ x :: post) = Some (List.length pre).
Proof.
  intros Hx. induction pre as [| y pre IH]; intros Hpre; simpl.
  - now rewrite Hx.
  - rewrite (Hpre y (or_introl eq_refl)).
    rewrite IH by (intros z Hz; apply Hpre; now right). reflexivity.
Qed.

(** A record that takes the place of one with the same email and the same
    password hash changes no one's credentials. *)
Lemma find_replace_same (e : value) (pre post : list obj) (x x' : obj) :
  sameEmail x x' = true ->
  assoc "passwordHash" x' = assoc "passwordHash" x ->
  option_map (assoc "passwordHash") (find (hasEmail e) (pre ++ x' :: post))
  = option_map (assoc "passwordHash") (find (hasEmail e) (pre ++ x :: post)).
Proof.
  intros Hs Hh. induction pre as [| y pre IH]; simpl.
  - rewrite (hasEmail_same x' x e) by (now rewrite sameEmail_sym).
    destruct (hasEmail e x); simpl; congruence.
  - destruct (hasEmail e y); [reflexivity | exact IH].
Qed.

(** A menu request never touches the user records. *)
Lemma generate_users (ai : provider) (now : Q) (body : value) (f : dbfile) :
  users (contents (snd (generateWeeklyMenu ai now body f)))
  = users (contents f).
Proof.
  destruct (generate_cases ai now body f) as [(res & f' & H) | H].
  - rewrite H. apply generate_ok in H.
    destruct H as (? & ? & ? & ? & _ & _ & _ & _ & [_ Hu] & _). exact Hu.
  - now rewrite H.
Qed.

Lemma strict_eq_self (a b : value) :
  strict_eq a b = true -> strict_eq a a = true /\ strict_eq b b = true.
Proof.
  intros H. split.
  - rewrite <- H. symmetry. now apply strict_eq_same_key.
  - rewrite (strict_eq_same_key a b b H), strict_eq_sym. exact H.
Qed.

(** A record that takes the place of one with the same email leaves the
    emails distinct. *)
Lemma replace_distinct (pre post : list obj) (x x' : obj) :
  sameEmail x' x = true ->
  distinctEmails (pre ++ x :: post) -> distinctEmails (pre ++ x' :: post).
Proof.
  unfold distinctEmails. intros Hs Hd.
  apply FOP_app in Hd. destruct Hd as (Hd1 & Hd2 & Hd12).
  inversion Hd2 as [| ? ? Hxpost Hdpost]; subst.
  apply FOP_app. repeat split; [assumption | |].
  - constructor; [| assumption].
    rewrite Forall_forall in *. intros q Hq.
    specialize (Hxpost q Hq). unfold sameEmail in *.
    rewrite (strict_eq_opt_same_key _ _ (assoc "email" q) Hs). exact Hxpost.
  - intros a b Ha [<- | Hb].
    + specialize (Hd12 a x Ha (or_introl eq_refl)). unfold sameEmail in *.
      rewrite strict_eq_opt_sym in Hs.
      rewrite strict_eq_opt_sym, (strict_eq_opt_same_key _ _ _ Hs) in Hd12.
      now rewrite strict_eq_opt_sym.
    + apply Hd12; [assumption | now right].
Qed.

Section Routes.

Variable hash : value -> result string.
Variable compare : value -> option value -> result bool.

(** What a registration does: it answers with an error and writes
    nothing, or it saves a record for an email that had none. *)
Lemma register_cases (now : Q) (body : value) (f f' : dbfile) (res : response) :
  register hash now body f = (res, f') ->
  (contents f' = contents f /\ status res <> 201 /\
   exists message, bodyOf res = errorBody message) \/
  exists email password h,
    get body "email" = Some email /\ get body "password" = Some password /\
    truthy email = true /\ truthy password = true /\
    find (hasEmail email) (users (contents f)) = None /\
    hash password = Ok h /\
    res = Reply 201 (VObj [("user", VObj [("email", email); ("profile", VNull)])]) /\
    f' = Stored (mkDb (users (contents f)
                       ++ [[("email", email); ("passwordHash", VStr h);
                            ("profile", VNull); ("createdAt", VNum now)]])
                      (menus (contents f))).
Proof.
  unfold register, route.
  destruct (get body "email") as [email |];
    [| intros E; injection E as <- <-; left; refused].
  destruct (get body "password") as [password |];
    [| rewrite orb_true_r; intros E; injection E as <- <-; left; refused].
  cbn [truthy_opt].
  destruct (truthy email) eqn:Te;
    [| intros E; injection E as <- <-; left; refused].
  destruct (truthy password) eqn:Tp;
    [| intros E; injection E as <- <-; left; refused].
  cbn [negb orb].
  unfold bind at 1.
  pose proof (findUser_eq email f) as [Hu Hc].
  destruct (findUser email f) as [r f1] eqn:Ef. cbn [fst snd] in Hu, Hc.
  subst r.
  destruct (find (hasEmail email) (users (contents f))) as [u |] eqn:Efind;
    [intros E; injection E as <- <-; left; refused |].
  unfold bind at 1, lift.
  destruct (hash password) as [h | e] eqn:Eh;
    [| intros E; injection E as <- <-; left; refused].
  cbv zeta. unfold bind. rewrite saveUser_eq. unfold ret. rewrite Hc.
  intros E. injection E as <- <-.
  right. exists email, password, h.
  repeat split; try assumption.
  unfold upsert.
  set (user := [("email", email); ("passwordHash", VStr h);
                ("profile", VNull); ("createdAt", VNum now)]).
  assert (Hnone : findIndex (sameEmail user) (users (contents f)) = None).
  { destruct (findIndex (sameEmail user) (users (contents f))) as [i |] eqn:Ei;
      [| reflexivity].
    apply findIndex_some in Ei.
    destruct Ei as (pre & x & post & Hl & _ & Hx & _).
    rewrite (sameEmail_hasEmail user x email eq_refl) in Hx.
    pose proof (find_none _ _ Efind x) as Hx'.
    rewrite Hl in Hx'. rewrite Hx' in Hx by (apply in_elt). discriminate. }
  rewrite Hnone. reflexivity.
Qed.

(** What a profile update does: it answers with an error and writes
    nothing, or it replaces the record of the user by the record with the
    new profile. *)
Lemma updateProfile_cases (body : value) (f f' : dbfile) (res : response) :
  updateProfile body f = (res, f') ->
  (contents f' = contents f /\ status res <> 200 /\
   exists message, bodyOf res = errorBody message) \/
  exists email profile pre user post stored,
    get body "email" = Some email /\ get body "profile" = Some profile /\
    truthy email = true /\
    users (contents f) = pre ++ user :: post /\
    hasEmail email user = true /\
    (forall u, In u pre -> hasEmail email u = false) /\
    profileRecord profile = Ok stored /\
    res = Reply 200 (userBody user stored) /\
    f' = Stored (mkDb (pre ++ set_field "profile" stored user :: post)
                      (menus (contents f))).
Proof.
  unfold updateProfile, route.
  destruct (get body "email") as [email |];
    [| intros E; injection E as <- <-; left; refused].
  destruct (get body "profile") as [profile |];
    [| intros E; injection E as <- <-; left; refused].
  destruct (truthy email) eqn:Te;
    [| intros E; injection E as <- <-; left; refused].
  destruct (truthy profile) eqn:Tp;
    [| intros E; injection E as <- <-; left; refused].
  cbn [negb orb].
  unfold bind at 1.
  pose proof (findUser_eq email f) as [Hu Hc].
  destruct (findUser email f) as [r f1] eqn:Ef. cbn [fst snd] in Hu, Hc.
  subst r.
  destruct (find (hasEmail email) (users (contents f))) as [user |] eqn:Efind;
    [| intros E; injection E as <- <-; left; refused].
  unfold bind at 1, lift.
  destruct (profileRecord profile) as [stored | e] eqn:Ep;
    [| intros E; injection E as <- <-; left; refused].
  cbv zeta. unfold bind. rewrite saveUser_eq. unfold ret. rewrite Hc.
  intros E. injection E as <- <-.
  right.
  destruct (find_first _ _ _ Efind) as (pre & post & Hl & Hx & Hpre).
  exists email, profile, pre, user, post, stored.
  assert (He : assoc "email" (set_field "profile" stored user) = assoc "email" user)
    by (apply assoc_set_other; discriminate).
  assert (Hsame : forall u,
             sameEmail (set_field "profile" stored user) u = hasEmail email u).
  { intros u. unfold sameEmail, hasEmail in *. rewrite He.
    destruct (assoc "email" user) as [e0 |]; [| discriminate].
    destruct (assoc "email" u) as [x |]; [| reflexivity]. simpl.
    symmetry. now apply strict_eq_same_key. }
  repeat split; try assumption.
  - unfold userBody. now rewrite He.
  - unfold upsert. rewrite Hl.
    rewrite (findIndex_first _ pre post user)
      by (intros; rewrite Hsame; auto).
    now rewrite setAt_middle.
Qed.

(** What a login does: it writes nothing, and answers with an error or,
    when the record is found and the password compares, with the user. *)
Lemma login_cases (body : value) (f f' : dbfile) (res : response) :
  login compare body f = (res, f') ->
  contents f' = contents f /\
  ((status res <> 200 /\ exists message, bodyOf res = errorBody message) \/
   exists email password user,
     get body "email" = Some email /\ get body "password" = Some password /\
     find (hasEmail email) (users (contents f)) = Some user /\
     compare password (assoc "passwordHash" user) = Ok true /\
     res = Reply 200 (userBody user (or_else (assoc "profile" user) VNull))).
Proof.
  unfold login, route.
  destruct (get body "email") as [email |];
    [| intros E; injection E as <- <-; split; [reflexivity | left; refused]].
  destruct (get body "password") as [password |];
    [| rewrite orb_true_r; intros E; injection E as <- <-;
       split; [reflexivity | left; refused]].
  cbn [truthy_opt].
  destruct (negb (truthy email) || negb (truthy password));
    [intros E; injection E as <- <-; split; [reflexivity | left; refused] |].
  unfold bind at 1.
  pose proof (findUser_eq email f) as [Hu Hc].
  destruct (findUser email f) as [r f1]. cbn [fst snd] in Hu, Hc. subst r.
  destruct (find (hasEmail email) (users (contents f))) as [user |] eqn:Ef;
    [| intros E; injection E as <- <-; split; [exact Hc | left; refused]].
  unfold bind, lift.
  destruct (compare password (assoc "passwordHash" user)) as [[|] | e] eqn:Ec;
    intros E; injection E as <- <-; (split; [exact Hc |]);
    [| left; refused | left; refused].
  right. exists email, password, user. auto.
Qed.

Lemma getUser_cases (email : option value) (f f' : dbfile) (res : response) :
  getUser email f = (res, f') ->
  contents f' = contents f /\
  ((status res <> 200 /\ exists message, bodyOf res = errorBody message) \/
   exists e user,
     email = Some e /\
     find (hasEmail e) (users (contents f)) = Some user /\
     res = Reply 200 (userBody user (or_else (assoc "profile" user) VNull))).
Proof.
  unfold getUser, route.
  destruct email as [email |];
    [| intros E; injection E as <- <-; split; [reflexivity | left; refused]].
  destruct (negb (truthy email));
    [intros E; injection E as <- <-; split; [reflexivity | left; refused] |].
  unfold bind.
  pose proof (findUser_eq email f) as [Hu Hc].
  destruct (findUser email f) as [r f1]. cbn [fst snd] in Hu, Hc. subst r.
  destruct (find (hasEmail email) (users (contents f))) as [user |] eqn:Ef;
    intros E; injection E as <- <-; (split; [exact Hc |]); [| left; refused].
  right. exists email, user. auto.
Qed.

(** One request keeps the emails of the user records distinct. *)
Lemma handle_distinct (c : call) (f : dbfile) :
  distinctEmails (users (contents f)) ->
  distinctEmails (users (contents (snd (handle hash compare c f)))).
Proof.
  intros Hd. destruct c as [now body | body | email | body | ai now body];
    cbn [handle].
  - destruct (register hash now body f) as [res f'] eqn:E. cbn [snd].
    apply register_cases in E.
    destruct E as [(-> & _) | (email & password & h & _ & _ & _ & _ & Hn & _ & _ & ->)];
      [exact Hd |].
    cbn [snd contents users]. apply FOP_app.
    repeat split; [exact Hd | repeat constructor |].
    intros a b Ha [<- | []].
    rewrite sameEmail_sym. erewrite sameEmail_hasEmail by reflexivity.
    exact (find_none _ _ Hn a Ha).
  - destruct (login compare body f) as [res f'] eqn:E. cbn [snd].
    apply login_cases in E. destruct E as [-> _]. exact Hd.
  - destruct (getUser email f) as [res f'] eqn:E. cbn [snd].
    apply getUser_cases in E. destruct E as [-> _]. exact Hd.
  - destruct (updateProfile body f) as [res f'] eqn:E. cbn [snd].
    apply updateProfile_cases in E.
    destruct E as [(-> & _) | (email & profile & pre & user & post & stored &
                               _ & _ & _ & Hl & Hu & _ & _ & _ & ->)];
      [exact Hd |].
    cbn [snd contents users]. rewrite Hl in Hd.
    apply (replace_distinct pre post user); [| exact Hd].
    unfold sameEmail.
    rewrite (assoc_set_other "profile" "email") by discriminate.
    unfold hasEmail in Hu.
    destruct (assoc "email" user) as [e0 |]; [| discriminate].
    simpl. now apply strict_eq_self in Hu.
  - now rewrite generate_users.
Qed.

(** A value that is not strictly equal to itself is an array or an
    object, which is truthy. *)
Lemma not_self_equal_truthy (e : value) :
  strict_eq e e = false -> truthy e = true.
Proof.
  destruct e as [| b | q | s | items | fields]; simpl; intros H;
    try reflexivity; try discriminate.
  - now rewrite Bool.eqb_reflx in H.
  - now rewrite Qeq_bool_refl in H.
  - now rewrite String.eqb_refl in H.
Qed.

(** X2.  Over requests that are served one after the other, user records
    whose emails are pairwise not strictly equal stay so: registration
    refuses an email that is strictly equal to a stored one and a profile
    update replaces the record it found.  An email that is not strictly
    equal to itself, an array or an object, is strictly equal to no stored
    email: a registration with such an email is never refused for it and
    adds a record every time.  The emails of the registrations are written
    to the file as they are: none is a number beyond the range of
    binary64, which would be stored as [null]. *)
Theorem emails_stay_distinct :
  (forall cs f,
      (forall c, In c cs -> emailAsWritten c) ->
      distinctEmails (users (contents f)) ->
      distinctEmails (users (contents (snd (run hash compare cs f)))))
  /\ (forall now body email password h f,
        get body "email" = Some email -> get body "password" = Some password ->
        truthy password = true -> hash password = Ok h ->
        strict_eq email email = false ->
        storedValue email = email ->
        exists res f',
          register hash now body f = (Reply 201 res, f') /\
          users (contents f')
          = users (contents f)
            ++ [[("email", email); ("passwordHash", VStr h);
                 ("profile", VNull); ("createdAt", VNum now)]]).
Proof.
  split.
  - induction cs as [| c cs IH]; intros f Hcs Hd; [exact Hd |].
    cbn [run].
    destruct (handle hash compare c f) as [res f1] eqn:E1.
    destruct (run hash compare cs f1) as [ress f2] eqn:E2. cbn [snd].
    change f2 with (snd (ress, f2)). rewrite <- E2.
    apply IH; [intros c' Hc'; apply Hcs; now right |].
    change f1 with (snd (res, f1)). rewrite <- E1. now apply handle_distinct.
  - intros now body email password h f He Hp Tp Hh Hne _.
    assert (Hnever : forall u, hasEmail email u = false).
    { intros u. unfold hasEmail. destruct (assoc "email" u) as [x |];
        [| reflexivity]. now apply strict_eq_never. }
    unfold register, route. rewrite He, Hp. cbn [truthy_opt].
    rewrite (not_self_equal_truthy email Hne), Tp. cbn [negb orb].
    unfold bind at 1.
    pose proof (findUser_eq email f) as [Hu Hc].
    destruct (findUser email f) as [r f1] eqn:Ef. cbn [fst snd] in Hu, Hc.
    subst r.
    rewrite (find_none_all (hasEmail email) (users (contents f)))
      by (intros u _; apply Hnever).
    unfold bind at 1, lift. rewrite Hh.
    cbv zeta. unfold bind. rewrite saveUser_eq. unfold ret. rewrite Hc.
    eexists. eexists. split; [reflexivity |].
    cbn [contents users].
    destruct (upsert_cases [("email", email); ("passwordHash", VStr h);
                            ("profile", VNull); ("createdAt", VNum now)]
                (users (contents f)))
      as [[-> _] | (pre & x & post & _ & _ & Hx & _)]; [reflexivity |].
    rewrite (sameEmail_hasEmail
               [("email", email); ("passwordHash", VStr h);
                ("profile", VNull); ("createdAt", VNum now)] x email eq_refl),
      Hnever in Hx.
    discriminate.
Qed.

(** One request keeps the password hash that is stored for a registered
    email. *)
Lemma handle_credentials (c : call) (f : dbfile) (email : value)
  (h : option value) :
  credentials email f = Some h ->
  credentials email (snd (handle hash compare c f)) = Some h.
Proof.
  unfold credentials. intros Hc.
  destruct c as [now body | body | e | body | ai now body]; cbn [handle].
  - destruct (register hash now body f) as [res f'] eqn:E. cbn [snd].
    apply register_cases in E.
    destruct E as [(-> & _) | (e & password & h' & _ & _ & _ & _ & _ & _ & _ & ->)];
      [exact Hc |].
    cbn [snd contents users].
    destruct (find (hasEmail email) (users (contents f))) as [u |] eqn:Ef;
      [| discriminate].
    now rewrite (find_app_some _ _ _ _ Ef).
  - destruct (login compare body f) as [res f'] eqn:E. cbn [snd].
    apply login_cases in E. destruct E as [-> _]. exact Hc.
  - destruct (getUser e f) as [res f'] eqn:E. cbn [snd].
    apply getUser_cases in E. destruct E as [-> _]. exact Hc.
  - destruct (updateProfile body f) as [res f'] eqn:E. cbn [snd].
    apply updateProfile_cases in E.
    destruct E as [(-> & _) | (e & profile & pre & user & post & stored &
                               _ & _ & _ & Hl & Hu & _ & _ & _ & ->)];
      [exact Hc |].
    cbn [snd contents users]. rewrite Hl in Hc. rewrite <- Hc.
    apply find_replace_same.
    + unfold sameEmail.
      rewrite (assoc_set_other "profile" "email") by discriminate.
      unfold hasEmail in Hu.
      destruct (assoc "email" user) as [e0 |]; [| discriminate].
      simpl. now apply strict_eq_self in Hu.
    + apply assoc_set_other. discriminate.
  - now rewrite generate_users.
Qed.

(** X3.  Over requests that are served one after the other, none
    starting before the one before it has been answered, the password hash
    that is stored for a registered email is never changed: a registration
    does not overwrite an account, and a profile update and a menu request
    keep the hash. *)
Theorem credentials_kept (cs : list call) (f : dbfile) (email : value)
  (h : option value) :
  credentials email f = Some h ->
  credentials email (snd (run hash compare cs f)) = Some h.
Proof.
  revert f. induction cs as [| c cs IH]; intros f Hc; [exact Hc |].
  cbn [run].
  destruct (handle hash compare c f) as [res f1] eqn:E1.
  destruct (run hash compare cs f1) as [ress f2] eqn:E2. cbn [snd].
  change f2 with (snd (ress, f2)). rewrite <- E2. apply IH.
  change f1 with (snd (res, f1)). rewrite <- E1. now apply handle_credentials.
Qed.

(** X4.  A registration that succeeds can be followed by a login with the
    same body, which is answered with the same user: this needs that
    [compare] accepts a password against the hash made of it, and an email
    that is strictly equal to itself (not an array or an object) and is
    written to the file as it is (not a number beyond the range of
    binary64). *)
Theorem register_then_login (now : Q) (body email : value) (f f' : dbfile)
  (res : value) :
  (forall p h, hash p = Ok h -> compare p (Some (VStr h)) = Ok true) ->
  get body "email" = Some email ->
  strict_eq email email = true ->
  storedValue email = email ->
  register hash now body f = (Reply 201 res, f') ->
  login compare body f' = (Reply 200 res, f').
Proof.
  intros Hbcrypt He Hself _ E.
  apply register_cases in E.
  destruct E as [(_ & Hs & _) | (e & password & h & He' & Hp & Te & Tp & Hn & Hh & Hr & ->)];
    [now contradiction Hs |].
  rewrite He in He'. injection He' as <-. injection Hr as ->.
  unfold login, route. rewrite He, Hp. cbn [truthy_opt]. rewrite Te, Tp.
  cbn [negb orb]. unfold bind at 1, findUser, bind at 1, ret.
  cbn [readDb users].
  rewrite find_skip by (exact (find_none _ _ Hn)).
  cbn [find]. unfold hasEmail at 1. cbn [assoc String.eqb Ascii.eqb Bool.eqb].
  rewrite Hself.
  unfold bind, lift. cbn [assoc String.eqb Ascii.eqb Bool.eqb].
  rewrite (Hbcrypt _ _ Hh). reflexivity.
Qed.

(** X5.  A request that is answered with an error (any status but 200 and
    201) leaves the contents of the database as they were, and so do a
    login and a user lookup whatever they answer. *)
Theorem refused_requests_do_not_write (c : call) (f : dbfile) :
  (status (fst (handle hash compare c f)) <> 200 /\
   status (fst (handle hash compare c f)) <> 201) \/ readOnly c = true ->
  contents (snd (handle hash compare c f)) = contents f.
Proof.
  destruct c as [now body | body | email | body | ai now body];
    cbn [handle readOnly].
  - intros [[_ H] | H]; [| discriminate]. revert H.
    destruct (register hash now body f) as [res f'] eqn:E. cbn [fst snd].
    apply register_cases in E.
    destruct E as [(H & _) | (? & ? & ? & _ & _ & _ & _ & _ & _ & -> & _)];
      [auto | intros H; now contradiction H].
  - intros _. destruct (login compare body f) as [res f'] eqn:E. cbn [snd].
    apply login_cases in E. now destruct E.
  - intros _. destruct (getUser email f) as [res f'] eqn:E. cbn [snd].
    apply getUser_cases in E. now destruct E.
  - intros [[H _] | H]; [| discriminate]. revert H.
    destruct (updateProfile body f) as [res f'] eqn:E. cbn [fst snd].
    apply updateProfile_cases in E.
    destruct E as [(H & _) | (? & ? & ? & ? & ? & ? & _ & _ & _ & _ & _ & _ & _ & -> & _)];
      [auto | intros H; now contradiction H].
  - intros [[H _] | H]; [| discriminate]. revert H.
    destruct (generateWeeklyMenu ai now body f) as [[st res] f'] eqn:E.
    cbn [fst snd status]. intros H.
    exact (generate_not_ok _ _ _ _ _ _ _ E H).
Qed.

End Routes.

(** X2 at two registrations of one email and a profile update, from a
    missing file. *)
Lemma emails_stay_distinct_witness :
  distinctEmails
    (users (contents (snd (run plainHash plainCompare
                             [Register 1 (credentialsOf "bob@example.org" "secret");
                              Register 2 (credentialsOf "bob@example.org" "other");
                              UpdateProfile requestA]
                             Missing)))).
Proof.
  apply emails_stay_distinct; [| constructor].
  intros c [<- | [<- | [<- | []]]]; reflexivity.
Defined.

(** X3 at a second registration and a profile update of the registered
    user. *)
Lemma credentials_kept_witness :
  credentials alice
    (snd (run plainHash plainCompare
            [Register 5 (VObj [("email", alice); ("password", VStr "x")]);
             UpdateProfile requestA]
            registered))
  = Some (Some (VStr "$2a$10$hash")).
Proof.
  apply credentials_kept. reflexivity.
Defined.

(** X4 at a registration next to the registered user, with the stand-in
    for bcrypt. *)
Lemma register_then_login_witness :
  let body := credentialsOf "bob@example.org" "secret" in
  let f' := snd (register plainHash 1 body registered) in
  login plainCompare body f'
  = (Reply 200 (VObj [("user", VObj [("email", VStr "bob@example.org");
                                      ("profile", VNull)])]), f').
Proof.
  cbv zeta.
  apply (register_then_login plainHash plainCompare 1 _ (VStr "bob@example.org")
           registered).
  - intros [] h; try discriminate. simpl. intros H. injection H as <-.
    now rewrite String.eqb_refl.
  - reflexivity.
  - reflexivity.
  - reflexivity.
  - reflexivity.
Defined.

(** X5 at a registration with the email of the registered user. *)
Lemma refused_requests_do_not_write_witness :
  contents (snd (handle plainHash plainCompare
                   (Register 5 (VObj [("email", alice); ("password", VStr "x")]))
                   registered))
  = contents registered.
Proof.
  apply (refused_requests_do_not_write plainHash plainCompare).
  left. split; discriminate.
Defined.



(** ** Calorie model *)

Lemma mul_finite (a b : number) (z : Q) :
  (a * b)%b64 = Fin z -> exists x y, a = Fin x /\ b = Fin y /\ z = (x * y)%Q.
Proof.
  intros H. apply clip_finite in H.
  destruct a as [| x | |], b as [| y | |]; simpl in H; try discriminate;
    try (unfold Num.scale_inf in H; destruct (Num.sign _);
         try destruct (Num.sign _); discriminate).
  injection H as <-. now exists x, y.
Qed.

Lemma add_finite (a b : number) (z : Q) :
  (a + b)%b64 = Fin z -> exists x y, a = Fin x /\ b = Fin y /\ z = (x + y)%Q.
Proof.
  intros H. apply clip_finite in H.
  destruct a as [| x | |], b as [| y | |]; simpl in H; try discriminate.
  injection H as <-. now exists x, y.
Qed.

Lemma sub_finite (a b : number) (z : Q) :
  (a - b)%b64 = Fin z -> exists x y, a = Fin x /\ b = Fin y /\ z = (x - y)%Q.
Proof.
  intros H. apply clip_finite in H.
  destruct a as [| x | |], b as [| y | |]; simpl in H; try discriminate.
  injection H as <-. now exists x, y.
Qed.

Lemma half_finite (a : number) (z : Q) :
  (a / Fin 2)%b64 = Fin z -> exists x, a = Fin x /\ z = (x / 2)%Q.
Proof.
  intros H. apply clip_finite in H.
  destruct a as [| x | |]; simpl in H; try discriminate.
  injection H as <-. now exists x.
Qed.

Lemma round_finite (a : number) (z : Q) :
  B64.clip (Num.round a) = Fin z ->
  exists x, a = Fin x /\ z = inject_Z (Qfloor (x + (1 # 2))).
Proof.
  intros H. apply clip_finite in H.
  destruct a as [| x | |]; simpl in H; try discriminate.
  injection H as <-. now exists x.
Qed.

(** A target that is a number is the rounding of the closed form, at a
    weight, a height and an age that are numbers. *)
Lemma caloriesOf_finite (profile : value) (weight height age : number) (k : Q) :
  caloriesOf profile weight height age = Fin k ->
  exists w h a x,
    weight = Fin w /\ height = Fin h /\ age = Fin a /\
    (x == rawCalories profile w h a)%Q /\
    k = inject_Z (Qfloor (x + (1 # 2))).
Proof.
  unfold caloriesOf, rawCalories, genderOffset, goalFactor. cbv zeta.
  intros H. apply round_finite in H. destruct H as (c & H & ->).
  destruct (strict_eq (or_else (get profile "gender") (VStr "Other")) (VStr "Male"));
    [| destruct (strict_eq (or_else (get profile "gender") (VStr "Other"))
                           (VStr "Female"))];
    (destruct (is_str (get profile "goal") "Lose weight");
     [| destruct (is_str (get profile "goal") "Gain weight")]);
    repeat (match goal with
            | H : (_ * _)%b64 = Fin _ |- _ =>
                apply mul_finite in H; destruct H as (? & ? & ? & ? & ?)
            | H : (_ + _)%b64 = Fin _ |- _ =>
                apply add_finite in H; destruct H as (? & ? & ? & ? & ?)
            | H : (_ - _)%b64 = Fin _ |- _ =>
                apply sub_finite in H; destruct H as (? & ? & ? & ? & ?)
            | H : (_ / Fin 2)%b64 = Fin _ |- _ =>
                apply half_finite in H; destruct H as (? & ? & ?)
            | H : Fin _ = Fin _ |- _ => injection H as H
            end; subst);
    do 4 eexists;
    (split; [reflexivity |]); (split; [reflexivity |]);
    (split; [reflexivity |]); (split; [| reflexivity]); field.
Qed.

(** A target that is a number comes from a weight, a height and an age
    that are numbers. *)
Lemma calories_finite (profile : value) (k : Q) :
  calculateDailyCalories profile = Ok (Fin k) ->
  exists a w h x,
    approximateAge (get profile "ageRange") = Ok (Fin a) /\
    ToNumber (or_else (get profile "weightKg") (VNum 70)) = Ok (Fin w) /\
    ToNumber (or_else (get profile "heightCm") (VNum 170)) = Ok (Fin h) /\
    (x == rawCalories profile w h a)%Q /\
    k = inject_Z (Qfloor (x + (1 # 2))).
Proof.
  intros H.
  assert (Hp : profile <> VNull) by (intros ->; discriminate).
  rewrite calories_unfold in H by assumption.
  destruct (approximateAge (get profile "ageRange")) as [age | e];
    [| discriminate].
  cbn [rbind] in H.
  destruct (ToNumber (or_else (get profile "weightKg") (VNum 70)))
    as [weight | e]; [| discriminate].
  cbn [rbind] in H.
  destruct (ToNumber (or_else (get profile "heightCm") (VNum 170)))
    as [height | e]; [| discriminate].
  cbn [rbind] in H. injection H as H.
  apply caloriesOf_finite in H.
  destruct H as (w & h & a & x & Hw & Hh & Ha & Hx & ->).
  apply clip_finite in Hw, Hh, Ha. subst.
  now exists a, w, h, x.
Qed.

Lemma round_le (x y : Q) :
  (x <= y)%Q ->
  (inject_Z (Qfloor (x + (1 # 2))) <= inject_Z (Qfloor (y + (1 # 2))))%Q.
Proof.
  intros H. rewrite <- Zle_Qle. apply Qfloor_resp_le. lra.
Qed.

Lemma get_withField_same (k : string) (v : value) (fields : obj) :
  get (withField k v fields) k = Some v.
Proof. apply assoc_set_same. Qed.

Lemma get_withField_other (k k' : string) (v : value) (fields : obj) :
  k' <> k -> get (withField k v fields) k' = assoc k' fields.
Proof. apply assoc_set_other. Qed.

(** The closed form grows with the weight and the height, and shrinks
    with the age. *)
Lemma rawCalories_le (p1 p2 : value) (w1 w2 h1 h2 a1 a2 : Q) :
  get p1 "gender" = get p2 "gender" ->
  get p1 "activityLevel" = get p2 "activityLevel" ->
  get p1 "goal" = get p2 "goal" ->
  (w1 <= w2)%Q -> (h1 <= h2)%Q -> (a2 <= a1)%Q ->
  (rawCalories p1 w1 h1 a1 <= rawCalories p2 w2 h2 a2)%Q.
Proof.
  unfold rawCalories. intros -> -> -> Hw Hh Ha.
  pose proof (activityFactor_bounds (get p2 "activityLevel")) as [Hf _].
  pose proof (goalFactor_bounds (get p2 "goal")) as [Hg _].
  apply Qmult_le_compat_nonneg_r; [| lra].
  apply Qmult_le_compat_nonneg_r; [| lra].
  lra.
Qed.

(** X7.  Other things equal, a greater weight or a greater height never
    gives a smaller calorie target.  The weight or height is a positive
    number: zero counts as missing and is replaced by the default. *)
Theorem calories_grow_with_size (k : string) (fields : obj) (x y c1 c2 : Q) :
  k = "weightKg" \/ k = "heightCm" ->
  (0 < x)%Q -> (x <= y)%Q ->
  calculateDailyCalories (withField k (VNum x) fields) = Ok (Fin c1) ->
  calculateDailyCalories (withField k (VNum y) fields) = Ok (Fin c2) ->
  (c1 <= c2)%Q.
Proof.
  intros Hk Hx Hxy H1 H2.
  assert (Hnum : forall z d, (0 < z)%Q ->
            ToNumber (or_else (Some (VNum z)) (VNum d)) = Ok (Fin z)).
  { intros z d Hz. simpl.
    destruct (Qeq_bool z 0) eqn:E; [| reflexivity].
    apply Qeq_bool_iff in E. lra. }
  apply calories_finite in H1. destruct H1 as (a1 & w1 & h1 & x1 & Ha1 & Hw1 & Hh1 & Hx1 & ->).
  apply calories_finite in H2. destruct H2 as (a2 & w2 & h2 & x2 & Ha2 & Hw2 & Hh2 & Hx2 & ->).
  apply round_le. rewrite Hx1, Hx2.
  destruct Hk as [-> | ->].
  - rewrite get_withField_same, Hnum in Hw1, Hw2 by lra.
    rewrite get_withField_other in Ha1, Ha2, Hh1, Hh2 by discriminate.
    injection Hw1 as <-. injection Hw2 as <-.
    rewrite Ha1 in Ha2. injection Ha2 as <-.
    rewrite Hh1 in Hh2. injection Hh2 as <-.
    apply rawCalories_le; try lra;
      now rewrite !get_withField_other by discriminate.
  - rewrite get_withField_same, Hnum in Hh1, Hh2 by lra.
    rewrite get_withField_other in Ha1, Ha2, Hw1, Hw2 by discriminate.
    injection Hh1 as <-. injection Hh2 as <-.
    rewrite Ha1 in Ha2. injection Ha2 as <-.
    rewrite Hw1 in Hw2. injection Hw2 as <-.
    apply rawCalories_le; try lra;
      now rewrite !get_withField_other by discriminate.
Qed.

(** X7 at scenario A and the same profile with 90 kg. *)
Lemma calories_grow_with_size_witness :
  (2207 <= 2331)%Q.
Proof.
  apply (calories_grow_with_size "weightKg"
           [("ageRange", VStr "25-34"); ("gender", VStr "Male");
            ("heightCm", VNum 180); ("activityLevel", VStr "Moderate - 1-2 hours/week");
            ("goal", VStr "Lose weight")] 80 90).
  - now left.
  - reflexivity.
  - discriminate.
  - vm_compute. reflexivity.
  - vm_compute. reflexivity.
Defined.

(** Three profiles that differ in a field other than the age range, the
    weight and the height are computed from the same age, weight and
    height. *)
Lemma calories_same_body (k : string) (fields : obj) (v1 v2 v3 : value)
    (c1 c2 c3 : Q) :
  k <> "ageRange" -> k <> "weightKg" -> k <> "heightCm" ->
  calculateDailyCalories (withField k v1 fields) = Ok (Fin c1) ->
  calculateDailyCalories (withField k v2 fields) = Ok (Fin c2) ->
  calculateDailyCalories (withField k v3 fields) = Ok (Fin c3) ->
  exists a w h x1 x2 x3,
    (x1 == rawCalories (withField k v1 fields) w h a)%Q /\
    (x2 == rawCalories (withField k v2 fields) w h a)%Q /\
    (x3 == rawCalories (withField k v3 fields) w h a)%Q /\
    c1 = inject_Z (Qfloor (x1 + (1 # 2))) /\
    c2 = inject_Z (Qfloor (x2 + (1 # 2))) /\
    c3 = inject_Z (Qfloor (x3 + (1 # 2))).
Proof.
  intros Ka Kw Kh H1 H2 H3.
  apply calories_finite in H1.
  destruct H1 as (a1 & w1 & h1 & x1 & Ha1 & Hw1 & Hh1 & Hx1 & ->).
  apply calories_finite in H2.
  destruct H2 as (a2 & w2 & h2 & x2 & Ha2 & Hw2 & Hh2 & Hx2 & ->).
  apply calories_finite in H3.
  destruct H3 as (a3 & w3 & h3 & x3 & Ha3 & Hw3 & Hh3 & Hx3 & ->).
  rewrite get_withField_other in Ha1, Ha2, Ha3, Hw1, Hw2, Hw3, Hh1, Hh2, Hh3
    by congruence.
  rewrite Ha1 in Ha2, Ha3. injection Ha2 as <-. injection Ha3 as <-.
  rewrite Hw1 in Hw2, Hw3. injection Hw2 as <-. injection Hw3 as <-.
  rewrite Hh1 in Hh2, Hh3. injection Hh2 as <-. injection Hh3 as <-.
  now exists a1, w1, h1, x1, x2, x3.
Qed.

Lemma round_positive_inv (x : Q) :
  (0 < inject_Z (Qfloor (x + (1 # 2))))%Q -> (0 < x)%Q.
Proof.
  intros H. change 0%Q with (inject_Z 0) in H. rewrite <- Zlt_Qlt in H.
  pose proof (Qfloor_le (x + (1 # 2))) as Hle.
  assert (1 <= inject_Z (Qfloor (x + (1 # 2))))%Q.
  { change 1%Q with (inject_Z 1). rewrite <- Zle_Qle. lia. }
  lra.
Qed.

Lemma Qmult_le_compat_nonneg_l (x y z : Q) :
  (x <= y)%Q -> (0 <= z)%Q -> (z * x <= z * y)%Q.
Proof.
  intros. rewrite (Qmult_comm z x), (Qmult_comm z y).
  now apply Qmult_le_compat_r.
Qed.

(** X8.  Other things equal, and when the three targets are numbers (none
    is [NaN], none has overflowed to an infinity), the target for "Female"
    is the lowest and the target for "Male" the highest: the target for
    any other gender value lies between the two. *)
Theorem calories_ordered_by_gender (fields : obj) (g : value) (cf c cm : Q) :
  calculateDailyCalories (withField "gender" (VStr "Female") fields) = Ok (Fin cf) ->
  calculateDailyCalories (withField "gender" g fields) = Ok (Fin c) ->
  calculateDailyCalories (withField "gender" (VStr "Male") fields) = Ok (Fin cm) ->
  (cf <= c <= cm)%Q.
Proof.
  intros Hf Hg Hm.
  destruct (calories_same_body "gender" fields _ _ _ _ _ _
              ltac:(discriminate) ltac:(discriminate) ltac:(discriminate)
              Hf Hg Hm)
    as (a & w & h & x1 & x2 & x3 & Hx1 & Hx2 & Hx3 & -> & -> & ->).
  unfold rawCalories in Hx1, Hx2, Hx3.
  rewrite !get_withField_same, !get_withField_other in Hx1, Hx2, Hx3
    by discriminate.
  change (genderOffset (Some (VStr "Female"))) with (-161)%Q in Hx1.
  change (genderOffset (Some (VStr "Male"))) with 5%Q in Hx3.
  pose proof (genderOffset_bounds (Some g)) as [Hlo Hhi].
  pose proof (activityFactor_bounds (assoc "activityLevel" fields)) as [Ha _].
  pose proof (goalFactor_bounds (assoc "goal" fields)) as [Hb _].
  split; apply round_le; rewrite ?Hx1, ?Hx2, ?Hx3;
    (apply Qmult_le_compat_nonneg_r; [| lra]);
    (apply Qmult_le_compat_nonneg_r; [| lra]); lra.
Qed.

(** X8 at a moderately active profile of 80 kg, 180 cm and 30 years. *)
Lemma calories_ordered_by_gender_witness :
  (2502 <= 2630 <= 2759)%Q.
Proof.
  apply (calories_ordered_by_gender
           [("ageRange", VStr "25-34"); ("weightKg", VNum 80);
            ("heightCm", VNum 180);
            ("activityLevel", VStr "Moderate - 1-2 hours/week")]
           (VStr "Non-binary")); vm_compute; reflexivity.
Defined.

(** X9.  Other things equal, and when the target for "Lose weight" is
    positive, that target is the lowest and the target for "Gain weight"
    the highest: the target for any other goal lies between the two. *)
Theorem calories_ordered_by_goal (fields : obj) (g : value) (cl c cg : Q) :
  (0 < cl)%Q ->
  calculateDailyCalories (withField "goal" (VStr "Lose weight") fields) = Ok (Fin cl) ->
  calculateDailyCalories (withField "goal" g fields) = Ok (Fin c) ->
  calculateDailyCalories (withField "goal" (VStr "Gain weight") fields) = Ok (Fin cg) ->
  (cl <= c <= cg)%Q.
Proof.
  intros Hpos Hl Hg Hh.
  destruct (calories_same_body "goal" fields _ _ _ _ _ _
              ltac:(discriminate) ltac:(discriminate) ltac:(discriminate)
              Hl Hg Hh)
    as (a & w & h & x1 & x2 & x3 & Hx1 & Hx2 & Hx3 & -> & -> & ->).
  apply round_positive_inv in Hpos.
  unfold rawCalories in Hx1, Hx2, Hx3.
  rewrite !get_withField_same, !get_withField_other in Hx1, Hx2, Hx3
    by discriminate.
  change (goalFactor (Some (VStr "Lose weight"))) with 0.8%Q in Hx1.
  change (goalFactor (Some (VStr "Gain weight"))) with 1.15%Q in Hx3.
  pose proof (goalFactor_bounds (Some g)) as [Hlo Hhi].
  set (base := ((10 * w + 6.25 * h - 5 * a + genderOffset (assoc "gender" fields))
                * activityFactor (assoc "activityLevel" fields))%Q) in *.
  assert (Hbase : (0 <= base)%Q) by lra.
  split; apply round_le; rewrite ?Hx1, ?Hx2, ?Hx3;
    now apply Qmult_le_compat_nonneg_l.
Qed.

(** X9 at scenario A with each of the three goals. *)
Lemma calories_ordered_by_goal_witness :
  (2207 <= 2759 <= 3173)%Q.
Proof.
  apply (calories_ordered_by_goal
           [("ageRange", VStr "25-34"); ("gender", VStr "Male");
            ("weightKg", VNum 80); ("heightCm", VNum 180);
            ("activityLevel", VStr "Moderate - 1-2 hours/week")]
           (VStr "Maintain weight")); vm_compute; reflexivity.
Defined.

(** X10.  Other things equal, and when the target for the sedentary level
    is positive, that target is the lowest and the target for the very
    active level the highest: the target for any other level, known or
    not, lies between the two. *)
Theorem calories_ordered_by_activity (fields : obj) (l : value) (cs c cv : Q) :
  (0 < cs)%Q ->
  calculateDailyCalories
    (withField "activityLevel" (VStr "Sedentary - 0 hours/week") fields)
  = Ok (Fin cs) ->
  calculateDailyCalories (withField "activityLevel" l fields) = Ok (Fin c) ->
  calculateDailyCalories
    (withField "activityLevel" (VStr "Very Active - 4+ hours/week") fields)
  = Ok (Fin cv) ->
  (cs <= c <= cv)%Q.
Proof.
  intros Hpos Hs Hl Hv.
  destruct (calories_same_body "activityLevel" fields _ _ _ _ _ _
              ltac:(discriminate) ltac:(discriminate) ltac:(discriminate)
              Hs Hl Hv)
    as (a & w & h & x1 & x2 & x3 & Hx1 & Hx2 & Hx3 & -> & -> & ->).
  apply round_positive_inv in Hpos.
  unfold rawCalories in Hx1, Hx2, Hx3.
  rewrite !get_withField_same, !get_withField_other in Hx1, Hx2, Hx3
    by discriminate.
  change (activityFactor (Some (VStr "Sedentary - 0 hours/week")))
    with 1.2%Q in Hx1.
  change (activityFactor (Some (VStr "Very Active - 4+ hours/week")))
    with 1.9%Q in Hx3.
  pose proof (activityFactor_bounds (Some l)) as [Hlo Hhi].
  pose proof (goalFactor_bounds (assoc "goal" fields)) as [Hg _].
  set (bmr := (10 * w + 6.25 * h - 5 * a + genderOffset (assoc "gender" fields))%Q)
    in *.
  set (gf := goalFactor (assoc "goal" fields)) in *.
  assert (Hbmr : (0 <= bmr)%Q).
  { destruct (Qlt_le_dec bmr 0) as [Hneg | Hok]; [| exact Hok].
    assert (bmr * 1.2 * gf <= 0 * 1.2 * gf)%Q.
    { apply Qmult_le_compat_nonneg_r; [| lra].
      apply Qmult_le_compat_nonneg_r; lra. }
    lra. }
  split; apply round_le; rewrite ?Hx1, ?Hx2, ?Hx3;
    (apply Qmult_le_compat_nonneg_r; [| lra]);
    now apply Qmult_le_compat_nonneg_l.
Qed.

(** X10 at a profile with a level that the code does not know. *)
Lemma calories_ordered_by_activity_witness :
  (2136 <= 2492 <= 3382)%Q.
Proof.
  apply (calories_ordered_by_activity
           [("ageRange", VStr "25-34"); ("gender", VStr "Male");
            ("weightKg", VNum 80); ("heightCm", VNum 180)]
           (VStr "Often")); vm_compute; reflexivity.
Defined.

(** X11.  Other things equal, an age range that resolves to a greater age
    never gives a greater calorie target. *)
Theorem calories_shrink_with_age (fields : obj) (r1 r2 : value)
    (a1 a2 c1 c2 : Q) :
  approximateAge (Some r1) = Ok (Fin a1) ->
  approximateAge (Some r2) = Ok (Fin a2) ->
  (a1 <= a2)%Q ->
  calculateDailyCalories (withField "ageRange" r1 fields) = Ok (Fin c1) ->
  calculateDailyCalories (withField "ageRange" r2 fields) = Ok (Fin c2) ->
  (c2 <= c1)%Q.
Proof.
  intros Hr1 Hr2 Hle H1 H2.
  apply calories_finite in H1.
  destruct H1 as (b1 & w1 & h1 & x1 & Ha1 & Hw1 & Hh1 & Hx1 & ->).
  apply calories_finite in H2.
  destruct H2 as (b2 & w2 & h2 & x2 & Ha2 & Hw2 & Hh2 & Hx2 & ->).
  rewrite get_withField_same in Ha1, Ha2.
  rewrite get_withField_other in Hw1, Hw2, Hh1, Hh2 by discriminate.
  rewrite Hr1 in Ha1. injection Ha1 as <-.
  rewrite Hr2 in Ha2. injection Ha2 as <-.
  rewrite Hw1 in Hw2. injection Hw2 as <-.
  rewrite Hh1 in Hh2. injection Hh2 as <-.
  apply round_le. rewrite Hx1, Hx2.
  apply rawCalories_le; try lra;
    now rewrite !get_withField_other by discriminate.
Qed.

(** X11 at the age ranges 18-24 and 45-54. *)
Lemma calories_shrink_with_age_witness :
  (2604 <= 2829)%Q.
Proof.
  apply (calories_shrink_with_age
           [("gender", VStr "Male"); ("weightKg", VNum 80);
            ("heightCm", VNum 180);
            ("activityLevel", VStr "Moderate - 1-2 hours/week")]
           (VStr "18-24") (VStr "45-54") 21 50).
  - vm_compute. reflexivity.
  - vm_compute. reflexivity.
  - discriminate.
  - vm_compute. reflexivity.
  - vm_compute. reflexivity.
Defined.

(** An age range that is a string never makes [approximateAge] throw. *)
Lemma approximateAge_of_string (s : string) :
  exists n, approximateAge (Some (VStr s)) = Ok n.
Proof.
  unfold approximateAge.
  repeat (match goal with
          | |- context [if ?b then _ else _] => destruct b
          | |- context [match ?l with [] => _ | _ :: _ => _ end] => destruct l
          end; try (eexists; reflexivity)).
Qed.

(** A value that is not an array or an object converts to a number
    without throwing. *)
Lemma ToNumber_of_primitive (field : option value) (d : Q) :
  primitive field -> exists n, ToNumber (or_else field (VNum d)) = Ok n.
Proof.
  destruct field as [[| b | x | s | items | fields] |]; simpl;
    try contradiction; intros _;
    repeat (match goal with
            | |- context [if ?b then _ else _] => destruct b
            end); eexists; reflexivity.
Qed.

Lemma approximateAge_defined (field : option value) :
  truthy_opt field = false \/ (exists s, field = Some (VStr s)) ->
  exists a, approximateAge field = Ok a.
Proof.
  intros [Hfalsy | [s ->]].
  - unfold approximateAge. rewrite Hfalsy. now exists (Fin 30).
  - apply approximateAge_of_string.
Qed.

(** The target is computed once the age, the weight and the height
    are. *)
Lemma calories_defined (profile : value) :
  profile <> VNull ->
  (exists a, approximateAge (get profile "ageRange") = Ok a) ->
  (exists w, ToNumber (or_else (get profile "weightKg") (VNum 70)) = Ok w) ->
  (exists h, ToNumber (or_else (get profile "heightCm") (VNum 170)) = Ok h) ->
  exists n, calculateDailyCalories profile = Ok n.
Proof.
  intros Hp [a Ha] [w Hw] [h Hh]. rewrite calories_unfold by assumption.
  rewrite Ha, Hw, Hh. cbn [rbind]. eexists; reflexivity.
Qed.

(** X12.  [calculateDailyCalories] does not throw on a profile that is not
    [null], whose age range is missing, falsy or a string, and whose
    weight and height are neither arrays nor objects.  On the profile
    [null] it throws. *)
Theorem calories_of_primitive_profile (profile : value) :
  (profile <> VNull ->
   truthy_opt (get profile "ageRange") = false \/
   (exists s, get profile "ageRange" = Some (VStr s)) ->
   primitive (get profile "weightKg") ->
   primitive (get profile "heightCm") ->
   exists n, calculateDailyCalories profile = Ok n)
  /\ (profile = VNull -> calculateDailyCalories profile = Throw TypeError).
Proof.
  split; [| now intros ->].
  intros Hp Hage Hw Hh. apply calories_defined.
  - exact Hp.
  - now apply approximateAge_defined.
  - now apply ToNumber_of_primitive.
  - now apply ToNumber_of_primitive.
Qed.

(** X12 at a profile with a weight that is a string and a height that is
    [true]. *)
Lemma calories_of_primitive_profile_witness :
  exists n,
    calculateDailyCalories
      (VObj [("ageRange", VStr "65+"); ("weightKg", VStr "80");
             ("heightCm", VBool true)]) = Ok n.
Proof.
  apply calories_of_primitive_profile.
  - discriminate.
  - right. now exists "65+".
  - exact I.
  - exact I.
Defined.

Lemma assoc_app (k : string) (a b : obj) :
  assoc k (a ++ b) = match assoc k a with Some v => Some v | None => assoc k b end.
Proof.
  induction a as [| [k' v'] a IH]; simpl; [reflexivity |].
  destruct (String.eqb k k'); [reflexivity | exact IH].
Qed.

Lemma assoc_field (k k' : string) (v : option value) :
  assoc k (field k' v) = if String.eqb k k' then v else None.
Proof.
  destruct v as [x |]; simpl; destruct (String.eqb k k'); reflexivity.
Qed.

(** A falsy value is written as it is. *)
Lemma storedValue_falsy (v : value) : truthy v = false -> storedValue v = v.
Proof.
  destruct v as [| b | q | s | items | fields]; simpl; intros H;
    try reflexivity; try discriminate.
  apply negb_false_iff, Qeq_bool_iff in H.
  rewrite large_fits; [reflexivity |].
  pose proof large_positive. rewrite H. lra.
Qed.

(** X13.  The profile that [PUT /api/profile] stores keeps the age range
    it was given and holds a weight and a height that are numbers or
    [null]; [calculateDailyCalories] does not throw on it when the age
    range is missing, falsy or a string. *)
Theorem stored_profile_has_target (profile record : value) :
  profileRecord profile = Ok record ->
  truthy_opt (get profile "ageRange") = false \/
  (exists s, get profile "ageRange" = Some (VStr s)) ->
  get record "ageRange" = get profile "ageRange" /\
  (exists h, get record "heightCm" = Some (jsonOfNumber h)) /\
  (exists w, get record "weightKg" = Some (jsonOfNumber w)) /\
  exists n, calculateDailyCalories record = Ok n.
Proof.
  intros Hrec Hage. unfold profileRecord in Hrec.
  destruct (ToNumberOpt (get profile "heightCm")) as [h | e]; [| discriminate].
  destruct (ToNumberOpt (get profile "weightKg")) as [w | e]; [| discriminate].
  cbn [rbind] in Hrec. injection Hrec as Hrec.
  assert (Ea : get record "ageRange" = get profile "ageRange").
  { rewrite <- Hrec. cbn [get].
    repeat first [rewrite assoc_app | rewrite assoc_field
                 | progress cbn -[get storedValue]].
    destruct Hage as [Hfalsy | [s ->]]; [| reflexivity].
    destruct (get profile "ageRange") as [v |]; [| reflexivity].
    cbn [option_map]. f_equal. now apply storedValue_falsy. }
  assert (Eh : get record "heightCm" = Some (jsonOfNumber (B64.clip h))).
  { rewrite <- Hrec. cbn [get].
    repeat first [rewrite assoc_app | rewrite assoc_field | progress cbn -[get]].
    reflexivity. }
  assert (Ew : get record "weightKg" = Some (jsonOfNumber (B64.clip w))).
  { rewrite <- Hrec. cbn [get].
    repeat first [rewrite assoc_app | rewrite assoc_field | progress cbn -[get]].
    reflexivity. }
  split; [exact Ea |]. split; [now exists (B64.clip h) |].
  split; [now exists (B64.clip w) |].
  apply calories_defined.
  - rewrite <- Hrec. discriminate.
  - apply approximateAge_defined. now rewrite Ea.
  - apply ToNumber_of_primitive. rewrite Ew. now destruct (B64.clip w).
  - apply ToNumber_of_primitive. rewrite Eh. now destruct (B64.clip h).
Qed.

(** X13 at a profile update with a weight that is not a number. *)
Lemma stored_profile_has_target_witness :
  exists n,
    calculateDailyCalories
      (VObj [("ageRange", VStr "25-34"); ("heightCm", VNum 180);
             ("weightKg", VNull)]) = Ok n.
Proof.
  apply (stored_profile_has_target
           (VObj [("ageRange", VStr "25-34"); ("heightCm", VStr "180");
                  ("weightKg", VStr "heavy")])).
  - vm_compute. reflexivity.
  - right. now exists "25-34".
Defined.

(** ** Menu generation *)

Lemma readDb_contents (f : dbfile) : contents (snd (readDb f)) = contents f.
Proof. now destruct f. Qed.

(** The response and the file after a generation request, computed from
    the request and the file before. *)
Lemma generate_eq (ai : provider) (now : Q) (body : value) (f : dbfile) :
  generateWeeklyMenu ai now body f =
  match get body "email", get body "profile" with
  | Some email, Some profile =>
      if negb (truthy email) || negb (truthy profile) then
        (Reply 400 (errorBody "Email and profile are required."), f)
      else
        match find (hasEmail email) (users (contents f)) with
        | None => (Reply 404 (errorBody "User not found."), snd (readDb f))
        | Some _ =>
            match calculateDailyCalories profile, prompt profile, ai with
            | Ok n, Ok _, Some reply =>
                let menu := menuFor email reply n now f in
                (Reply 200 (VObj (without "email" menu)),
                 Stored (mkDb (users (contents f))
                              (menus (contents f) ++ [menu])))
            | _, _, _ =>
                (Reply 500 (errorBody "Server error generating weekly menu."),
                 snd (readDb f))
            end
        end
  | _, _ => (Reply 400 (errorBody "Email and profile are required."), f)
  end.
Proof.
  unfold generateWeeklyMenu, generateWeeklyMenuTry.
  destruct (get body "email") as [email |]; [| reflexivity].
  destruct (get body "profile") as [profile |]; [| reflexivity].
  destruct (negb (truthy email) || negb (truthy profile)); [reflexivity |].
  unfold menuFor, menusOf, findUser, getNextMenuVersion, saveMenu, bind, lift,
    readDb, writeDb, ret, throw.
  destruct f as [| | d]; cbn [contents users menus emptyDb find snd];
    try reflexivity.
  all: destruct (find (hasEmail email) _); [| reflexivity].
  all: destruct (calculateDailyCalories profile) as [n | e]; [| reflexivity].
  all: destruct (prompt profile) as [[] | e]; [| reflexivity].
  all: destruct ai as [reply |]; reflexivity.
Qed.

Lemma buildMenu_shape (email : value) (days : list value) (v : Q)
    (w : option string) (n : number) (now : Q) :
  exists rest,
    buildMenu email (days, v, w) n now
    = ("email", email)
      :: [("version", jsonOfNumber (B64.fit v));
          ("dailyCalories", jsonOfNumber n);
          ("days", VArr (map storedValue days)); ("generatedAt", VNum now)]
         ++ rest /\
    without "email" (buildMenu email (days, v, w) n now)
    = [("version", jsonOfNumber (B64.fit v)); ("dailyCalories", jsonOfNumber n);
       ("days", VArr (map storedValue days)); ("generatedAt", VNum now)]
      ++ rest.
Proof.
  destruct w as [w |]; eexists; split; reflexivity.
Qed.

(** X14.  A registered user whose profile has a calorie target is answered
    with status 200 whatever the provider replies, once a provider is
    configured and the prompt is built: the response carries the target
    and an array of days, and the response with the email put back is the
    menu appended to the file as it was when the request arrived (no other
    request is served meanwhile).  The prompt is built unless one of the six
    profile fields that it quotes has no conversion to text (an object
    with an own [toString], or an array that holds one): the request is
    then answered with status 500 and nothing is stored. *)
Theorem generate_answers_whatever_the_reply (reply : result (option string))
    (now : Q) (body email profile : value) (user : obj) (n : number)
    (f : dbfile) :
  get body "email" = Some email -> truthy email = true ->
  get body "profile" = Some profile -> truthy profile = true ->
  find (hasEmail email) (users (contents f)) = Some user ->
  calculateDailyCalories profile = Ok n ->
  if existsb (fun k => unprintable_opt (get profile k)) promptFields then
    exists f',
      generateWeeklyMenu (Some reply) now body f
      = (Reply 500 (errorBody "Server error generating weekly menu."), f') /\
      contents f' = contents f
  else
    exists res f',
      generateWeeklyMenu (Some reply) now body f = (Reply 200 (VObj res), f') /\
      assoc "dailyCalories" res = Some (jsonOfNumber n) /\
      (exists days, assoc "days" res = Some (VArr days)) /\
      persisted f f' (("email", email) :: res).
Proof.
  intros He Te Hp Tp Hu Hn.
  rewrite generate_eq, He, Hp, Te, Tp, Hu, Hn. cbn [negb orb].
  unfold prompt.
  destruct (existsb (fun k => unprintable_opt (get profile k)) promptFields).
  { eexists. split; [reflexivity | apply readDb_contents]. }
  unfold menuFor.
  destruct (planMenu reply (B64.plusOne (maxVersion (menusOf email f))))
    as [[days v] w].
  destruct (buildMenu_shape email days v w n now) as (rest & Hm & Hw).
  cbv zeta. rewrite Hw, Hm.
  eexists; eexists. split; [reflexivity |].
  split; [reflexivity |]. split; [now eexists |].
  split; reflexivity.
Qed.

(** X14 at scenario A with a provider whose call is rejected. *)
Lemma generate_answers_whatever_the_reply_witness :
  exists res f',
    generateWeeklyMenu rejects 1000 requestA registered
    = (Reply 200 (VObj res), f') /\
    assoc "dailyCalories" res = Some (VNum 2207) /\
    (exists days, assoc "days" res = Some (VArr days)) /\
    persisted registered f' (("email", alice) :: res).
Proof.
  apply (generate_answers_whatever_the_reply
           (Throw (Error "fetch failed")) 1000 requestA alice scenarioA
           [("email", alice); ("passwordHash", VStr "$2a$10$hash");
            ("profile", VNull); ("createdAt", VNum 1700000000000)]
           (Fin 2207) registered); reflexivity.
Defined.

(** A goal without conversion to text: the request is answered with
    status 500. *)
Example generate_unprintable_goal :
  fst (generateWeeklyMenu rejects 1000
         (VObj [("email", alice);
                ("profile", VObj [("goal", VObj [("toString", VNum 1)])])])
         registered)
  = Reply 500 (errorBody "Server error generating weekly menu.").
Proof. reflexivity. Qed.

Lemma maxVersion_snoc (ms : list obj) (m : obj) (v : Q) :
  versionOf m = Some v -> (maxVersion ms < v)%Q ->
  maxVersion (ms ++ [m]) = v.
Proof.
  unfold maxVersion, versionOf. intros Hv Hlt.
  rewrite fold_left_app. cbn [fold_left].
  set (x := fold_left laterVersion ms 0%Q) in *.
  unfold laterVersion.
  destruct (assoc "version" m) as [[| | v0 | | |] |]; try discriminate.
  injection Hv as ->. unfold gt.
  apply Qgt_alt in Hlt. now rewrite Hlt.
Qed.

Lemma planMenu_unversioned (reply : result (option string)) (version : Q) :
  providerVersion (Some reply) = None ->
  exists days w, planMenu reply version = (days, version, w).
Proof.
  unfold providerVersion, planMenu.
  destruct (askProvider reply) as [[days [v |]] | e]; try discriminate;
    intros _; eexists; eexists; reflexivity.
Qed.

(** X15.  When the provider's reply carries no version and the versions
    stored for the user are integers below 2^53 - 1, the menu sent to the
    client has the version that the sequencer gave before the request, an
    integer, and the sequencer gives the next integer after it: the
    versions of a user's menus are handed out without gaps. *)
Theorem versions_are_consecutive (ai : provider) (now : Q)
    (body email : value) (f f' : dbfile) (res : value) :
  generateWeeklyMenu ai now body f = (Reply 200 res, f') ->
  providerVersion ai = None ->
  get body "email" = Some email ->
  (forall x, In x (storedVersions email f) ->
             B64.integerBelow (2 ^ 53 - 1) x) ->
  exists n : Z,
    fst (getNextMenuVersion email f) = Ok (inject_Z n) /\
    get res "version" = Some (VNum (inject_Z n)) /\
    fst (getNextMenuVersion email f') = Ok (inject_Z (n + 1)).
Proof.
  intros H Hv He Hint. rewrite generate_eq, He in H.
  destruct (get body "profile") as [profile |]; [| discriminate].
  destruct (negb (truthy email) || negb (truthy profile)); [discriminate |].
  destruct (find (hasEmail email) (users (contents f))) as [user |] eqn:Hu;
    [| discriminate].
  destruct (calculateDailyCalories profile) as [c | e]; [| discriminate].
  destruct (prompt profile) as [[] | e]; [| discriminate].
  destruct ai as [reply |]; [| discriminate].
  cbv zeta in H. injection H as <- <-.
  destruct (next_version_exceeds (menusOf email f) (2 ^ 53 - 1))
    as (n & En & Hn & Hfit & _ & Hmax); [lia | exact Hint |].
  exists n.
  destruct (getNextMenuVersion_eq email f) as (f1 & E1 & _ & _).
  rewrite E1, En. split; [reflexivity |].
  unfold menuFor. rewrite En.
  destruct (planMenu_unversioned reply (inject_Z n) Hv) as (days & w & ->).
  destruct (buildMenu_shape email days (inject_Z n) w c now)
    as (rest & Hm & Hw).
  rewrite Hw, Hfit. split; [reflexivity |].
  destruct (buildMenu_fields email days (inject_Z n) w c now)
    as (Hemail & Hver & _).
  cbv zeta in Hemail, Hver.
  set (menu := buildMenu email (days, inject_Z n, w) c now) in *.
  destruct (getNextMenuVersion_eq email
              (Stored (mkDb (users (contents f)) (menus (contents f) ++ [menu]))))
    as (f2 & E2 & _ & _).
  rewrite E2. cbn [fst]. f_equal.
  apply find_some in Hu. destruct Hu as [_ Hu].
  assert (Hself : strict_eq email email = true).
  { unfold hasEmail in Hu. destruct (assoc "email" user) as [e |];
      [| discriminate]. now apply strict_eq_self in Hu. }
  assert (Hmine : hasEmail email menu = true).
  { unfold hasEmail. now rewrite Hemail. }
  assert (Hms : menusOf email
                  (Stored (mkDb (users (contents f)) (menus (contents f) ++ [menu])))
                = menusOf email f ++ [menu]).
  { unfold menusOf. cbn [contents menus]. rewrite filter_app.
    cbn [filter]. now rewrite Hmine. }
  rewrite Hms.
  rewrite (maxVersion_snoc _ _ (inject_Z n)); [| now apply versionOf_fit | exact Hmax].
  apply plusOne_exact; [reflexivity | lia].
Qed.

(** X15 at the first menu of the registered user. *)
Lemma versions_are_consecutive_witness :
  exists n : Z,
    fst (getNextMenuVersion alice registered) = Ok (inject_Z n) /\
    get (bodyOf (fst (generateWeeklyMenu rejects 1000 requestA registered)))
        "version" = Some (VNum (inject_Z n)) /\
    fst (getNextMenuVersion alice
           (snd (generateWeeklyMenu rejects 1000 requestA registered)))
    = Ok (inject_Z (n + 1)).
Proof.
  apply (versions_are_consecutive rejects 1000 requestA alice registered);
    try reflexivity.
  intros x [].
Defined.

Section Menus.

Variable hash : value -> result string.
Variable compare : value -> option value -> result bool.

(** What one request does to the stored menus. *)
Lemma handle_menus (c : call) (f : dbfile) :
  exists extra,
    menus (contents (snd (handle hash compare c f)))
    = menus (contents f) ++ extra /\
    List.length extra
    = (if stores c (fst (handle hash compare c f)) then 1 else 0) /\
    forall m, In m extra ->
      exists email, requester c = Some email /\ assoc "email" m = Some email.
Proof.
  destruct c as [now body | body | e | body | ai now body]; cbn [handle stores].
  - exists []. rewrite app_nil_r. split; [| split; [reflexivity | now intros m []]].
    destruct (register hash now body f) as [res f'] eqn:E. cbn [snd].
    apply register_cases in E.
    destruct E as [(-> & _) | (? & ? & ? & _ & _ & _ & _ & _ & _ & _ & ->)];
      reflexivity.
  - exists []. rewrite app_nil_r. split; [| split; [reflexivity | now intros m []]].
    destruct (login compare body f) as [res f'] eqn:E. cbn [snd].
    apply login_cases in E. destruct E as [-> _]. reflexivity.
  - exists []. rewrite app_nil_r. split; [| split; [reflexivity | now intros m []]].
    destruct (getUser e f) as [res f'] eqn:E. cbn [snd].
    apply getUser_cases in E. destruct E as [-> _]. reflexivity.
  - exists []. rewrite app_nil_r. split; [| split; [reflexivity | now intros m []]].
    destruct (updateProfile body f) as [res f'] eqn:E. cbn [snd].
    apply updateProfile_cases in E.
    destruct E as [(-> & _) |
                   (? & ? & ? & ? & ? & ? & _ & _ & _ & _ & _ & _ & _ & _ & ->)];
      reflexivity.
  - rewrite generate_eq. cbn [requester].
    destruct (get body "email") as [email |];
      [| exists []; rewrite app_nil_r; split; [| split]; try reflexivity;
         now intros m []].
    destruct (get body "profile") as [profile |];
      [| exists []; rewrite app_nil_r; split; [| split]; try reflexivity;
         now intros m []].
    destruct (negb (truthy email) || negb (truthy profile));
      [exists []; rewrite app_nil_r; split; [| split]; try reflexivity;
       now intros m [] |].
    destruct (find (hasEmail email) (users (contents f)));
      [| exists []; cbn [fst snd]; rewrite app_nil_r, readDb_contents;
         split; [| split]; try reflexivity; now intros m []].
    destruct (calculateDailyCalories profile) as [n | err];
      [| exists []; cbn [fst snd]; rewrite app_nil_r, readDb_contents;
         split; [| split]; try reflexivity; now intros m []].
    destruct (prompt profile) as [[] | perr];
      [| exists []; cbn [fst snd]; rewrite app_nil_r, readDb_contents;
         split; [| split]; try reflexivity; now intros m []].
    destruct ai as [reply |];
      [| exists []; cbn [fst snd]; rewrite app_nil_r, readDb_contents;
         split; [| split]; try reflexivity; now intros m []].
    cbv zeta. exists [menuFor email reply n now f].
    split; [reflexivity |]. split; [reflexivity |].
    intros m [<- | []]. exists email. split; [reflexivity |].
    unfold menuFor.
    destruct (planMenu reply (B64.plusOne (maxVersion (menusOf email f))))
      as [[days v] w].
    now destruct (buildMenu_fields email days v w n now) as (Hemail & _).
Qed.

(** X16.  Over requests that are served one after the other, the stored
    menus are never changed, reordered or removed: the menus after the
    requests are the menus before them followed by one menu for every
    generation request that was answered with status 200, and each of
    these carries the email of a generation request. *)
Theorem menus_are_only_appended (cs : list call) (f : dbfile) :
  exists extra,
    menus (contents (snd (run hash compare cs f)))
    = menus (contents f) ++ extra /\
    List.length extra = stored cs (fst (run hash compare cs f)) /\
    forall m, In m extra ->
      exists c email,
        In c cs /\ requester c = Some email /\ assoc "email" m = Some email.
Proof.
  revert f. induction cs as [| c cs IH]; intros f.
  - exists []. cbn. rewrite app_nil_r. split; [reflexivity |].
    split; [reflexivity | now intros m []].
  - cbn [run].
    destruct (handle_menus c f) as (e1 & H1 & L1 & M1).
    destruct (handle hash compare c f) as [res f1] eqn:E1. cbn [fst snd] in *.
    destruct (IH f1) as (e2 & H2 & L2 & M2).
    destruct (run hash compare cs f1) as [ress f2] eqn:E2. cbn [fst snd] in *.
    exists (e1 ++ e2). split; [| split].
    + now rewrite H2, H1, app_assoc.
    + rewrite length_app, L1, L2. unfold stored. cbn [combine filter fst snd].
      destruct (stores c res); reflexivity.
    + intros m Hm. apply in_app_or in Hm. destruct Hm as [Hm | Hm].
      * destruct (M1 m Hm) as (email & Hr & Ha).
        exists c, email. split; [now left | now split].
      * destruct (M2 m Hm) as (c' & email & Hc & Hr & Ha).
        exists c', email. split; [now right | now split].
Qed.

End Menus.

Lemma userBody_keys (user : obj) (profile : value) :
  keys (userBody user profile) = ["user"] /\
  forall u, get (userBody user profile) "user" = Some u ->
            incl (keys u) ["email"; "profile"].
Proof.
  split; [reflexivity |]. cbn. intros u Hu. injection Hu as <-.
  destruct (assoc "email" user); cbn; intros k Hk; cbn in *; tauto.
Qed.

Lemma errorBody_keys (message : string) :
  keys (errorBody message) = ["error"] /\
  get (errorBody message) "user" = None.
Proof. split; reflexivity. Qed.

Section Responses.

Variable hash : value -> result string.
Variable compare : value -> option value -> result bool.

(** X17.  No response names the password hash: the body of every response
    has no [passwordHash] property, and the [user] object of a response has
    no property other than [email] and [profile]. *)
Theorem responses_hide_password_hash (c : call) (f : dbfile) :
  ~ In "passwordHash" (keys (bodyOf (fst (handle hash compare c f)))) /\
  forall u, get (bodyOf (fst (handle hash compare c f))) "user" = Some u ->
            incl (keys u) ["email"; "profile"].
Proof.
  assert (Herr : forall res message,
             bodyOf res = errorBody message ->
             ~ In "passwordHash" (keys (bodyOf res)) /\
             forall u, get (bodyOf res) "user" = Some u ->
                       incl (keys u) ["email"; "profile"]).
  { intros res message ->. split; [| discriminate].
    cbn. intros [H | []]. discriminate. }
  assert (Huser : forall user profile,
             ~ In "passwordHash" (keys (userBody user profile)) /\
             forall u, get (userBody user profile) "user" = Some u ->
                       incl (keys u) ["email"; "profile"]).
  { intros user profile. destruct (userBody_keys user profile) as [-> H].
    split; [| exact H]. intros [E | []]. discriminate. }
  destruct c as [now body | body | e | body | ai now body]; cbn [handle].
  - destruct (register hash now body f) as [res f'] eqn:E. cbn [fst].
    apply register_cases in E.
    destruct E as [(_ & _ & message & Hm) |
                   (email & ? & ? & _ & _ & _ & _ & _ & _ & -> & _)].
    + now apply (Herr res message).
    + apply (Huser [("email", email)] VNull).
  - destruct (login compare body f) as [res f'] eqn:E. cbn [fst].
    apply login_cases in E.
    destruct E as [_ [(_ & message & Hm) | (? & ? & user & _ & _ & _ & _ & ->)]].
    + now apply (Herr res message).
    + apply Huser.
  - destruct (getUser e f) as [res f'] eqn:E. cbn [fst].
    apply getUser_cases in E.
    destruct E as [_ [(_ & message & Hm) | (? & user & _ & _ & ->)]].
    + now apply (Herr res message).
    + apply Huser.
  - destruct (updateProfile body f) as [res f'] eqn:E. cbn [fst].
    apply updateProfile_cases in E.
    destruct E as [(_ & _ & message & Hm) |
                   (? & ? & ? & user & ? & stored & _ & _ & _ & _ & _ & _ & _ & -> & _)].
    + now apply (Herr res message).
    + apply Huser.
  - rewrite generate_eq.
    destruct (get body "email") as [email |];
      [| now apply (Herr (Reply 400 _) "Email and profile are required.")].
    destruct (get body "profile") as [profile |];
      [| now apply (Herr (Reply 400 _) "Email and profile are required.")].
    destruct (negb (truthy email) || negb (truthy profile));
      [now apply (Herr (Reply 400 _) "Email and profile are required.") |].
    destruct (find (hasEmail email) (users (contents f)));
      [| now apply (Herr (Reply 404 _) "User not found.")].
    destruct (calculateDailyCalories profile) as [n | err];
      [| now apply (Herr (Reply 500 _) "Server error generating weekly menu.")].
    destruct (prompt profile) as [[] | perr];
      [| now apply (Herr (Reply 500 _) "Server error generating weekly menu.")].
    destruct ai as [reply |];
      [| now apply (Herr (Reply 500 _) "Server error generating weekly menu.")].
    cbv zeta. cbn [fst bodyOf]. unfold menuFor.
    destruct (planMenu reply (B64.plusOne (maxVersion (menusOf email f))))
      as [[days v] w].
    destruct w as [w |]; cbn; (split; [intuition discriminate | discriminate]).
Qed.

End Responses.

(** ** Response extractor *)

Lemma indexOf_skipn (c : ascii) (s : list ascii) (i : nat) :
  Str.indexOf c s = Some i -> exists rest, skipn i s = c :: rest.
Proof.
  revert i. induction s as [| x s IH]; intros i; simpl; [discriminate |].
  destruct (Ascii.eqb_spec x c) as [-> | Hx].
  - intros H. injection H as <-. now exists s.
  - destruct (Str.indexOf c s) as [j |]; [| discriminate].
    intros H. injection H as <-. simpl. now apply IH.
Qed.

(** The members of an object parse to an object. *)
Lemma parseMembers_object (n : nat) :
  forall acc s v r,
    JSON.parseMembers n acc s = Some (v, r) -> exists fields, v = VObj fields.
Proof.
  induction n as [| n IH]; intros acc s v r; [discriminate |].
  cbn [JSON.parseMembers].
  destruct (JSON.expect quote s) as [r0 |]; [| discriminate].
  destruct (JSON.stringBody r0) as [[key r1] |]; [| discriminate].
  destruct (JSON.expect ":" r1) as [r2 |]; [| discriminate].
  destruct (JSON.parseValue n r2) as [[v0 r3] |]; [| discriminate].
  cbv zeta.
  destruct (JSON.expect "," r3) as [r4 |]; [apply IH |].
  destruct (JSON.expect "}" r3) as [r4 |]; [| discriminate].
  intros H. inversion H. eexists; reflexivity.
Qed.

(** A text that starts with an opening brace parses to an object, if it
    parses. *)
Lemma parse_object (t : list ascii) (v : value) :
  JSON.parse (str ("{"%char :: t)) = Ok v -> exists fields, v = VObj fields.
Proof.
  unfold JSON.parse, JSON.parseWith. rewrite chars_str.
  cbn [List.length Nat.mul Nat.add].
  rewrite Nat.add_comm. cbn [Nat.add JSON.parseValue].
  change (JSON.expect "{" ("{"%char :: t)) with (Some t). cbv beta iota.
  destruct (JSON.expect "}" t) as [r' |].
  - destruct (JSON.skip r'); [| discriminate].
    intros H. injection H as <-. now exists [].
  - destruct (JSON.parseMembers _ [] t) as [[v0 r] |] eqn:E; [| discriminate].
    apply parseMembers_object in E. destruct E as [fields ->].
    destruct (JSON.skip r); [| discriminate].
    intros H. injection H as <-. now exists fields.
Qed.

(** X18.  Whatever [extractJsonFromText] returns is an object, so the
    [!parsed] test of the handler never fires. *)
Theorem extract_returns_object (text v : value) :
  extractJsonFromText text = Ok v ->
  (exists fields, v = VObj fields) /\ truthy v = true.
Proof.
  intros H.
  assert (Hobj : exists fields, v = VObj fields).
  { unfold extractJsonFromText in H.
    destruct text as [| | | s | |]; try discriminate.
    destruct (String.eqb s ""); [discriminate |].
    cbv zeta in H.
    destruct (Str.indexOf "{" (cleanedText s)) as [first |] eqn:Ef;
      [| discriminate].
    destruct (Str.lastIndexOf "}" (cleanedText s)) as [last |];
      [| discriminate].
    destruct (Nat.leb_spec last first) as [Hle | Hlt]; [discriminate |].
    apply indexOf_skipn in Ef. destruct Ef as [rest Ef].
    unfold Str.slice in H. rewrite Ef in H.
    replace (last + 1 - first) with (S (last - first)) in H by lia.
    cbn [firstn] in H. now apply parse_object in H. }
  split; [exact Hobj |]. destruct Hobj as [fields ->]. reflexivity.
Qed.

(** X18 at a reply with text around the object. *)
Lemma extract_returns_object_witness :
  (exists fields, VObj [("days", VArr [])] = VObj fields) /\
  truthy (VObj [("days", VArr [])]) = true.
Proof.
  apply (extract_returns_object (VStr (dq "Here you go: {'days':[]} Enjoy!"))).
  vm_compute. reflexivity.
Defined.

(** X19.  A reply without code fences of its own is read the same whether
    it comes bare or inside a code fence, with the tag [json] in either
    case or with no tag. *)
Theorem fenced_reply_reads_as_bare (tag s : string) :
  tag = "json" \/ tag = "JSON" \/ tag = "" ->
  s <> "" ->
  Str.includes (chars "```") (chars s) = false ->
  extractJsonFromText (VStr (fenced tag s)) = extractJsonFromText (VStr s).
Proof.
  intros Htag Hs H.
  assert (Hc : cleanedText (fenced tag s) = cleanedText s).
  { unfold cleanedText.
    rewrite (stripFences_fenced tag s Htag H), (stripFences_nothing (chars s) H).
    apply trim_between_newlines. }
  unfold extractJsonFromText. rewrite Hc.
  destruct (String.eqb_spec s "") as [-> | _]; [contradiction |].
  reflexivity.
Qed.

(** X19 at a reply with days and a version. *)
Lemma fenced_reply_reads_as_bare_witness :
  extractJsonFromText (VStr (fenced "json" (dq "{'days':[],'version':3}")))
  = extractJsonFromText (VStr (dq "{'days':[],'version':3}")).
Proof.
  apply fenced_reply_reads_as_bare.
  - now left.
  - discriminate.
  - reflexivity.
Defined.

(** * Properties of the client *)

(** ** Profile form *)

Lemma Qmult_le_mono (a b c d : Q) :
  (0 <= a)%Q -> (a <= b)%Q -> (0 <= c)%Q -> (c <= d)%Q -> (a * c <= b * d)%Q.
Proof.
  intros Ha Hab Hc Hcd.
  apply Qle_trans with (b * c)%Q.
  - now apply Qmult_le_compat_r.
  - apply Qmult_le_compat_nonneg_l; [exact Hcd | lra].
Qed.

(** The ages that the options of the form resolve to. *)
Lemma ageRangeOptions_ages (ageRange : string) :
  In ageRange ageRangeOptions ->
  ageRange <> "" /\
  exists a, approximateAge (Some (VStr ageRange)) = Ok (Fin a) /\
            (21 <= a <= 60)%Q.
Proof.
  intros H. cbn in H.
  destruct H as [<- | [<- | [<- | [<- | [<- | [<- | []]]]]]];
    (split; [discriminate |]); eexists;
    (split; [vm_compute; reflexivity | split; discriminate]).
Qed.

Lemma option_not_empty (options : list string) (s : string) :
  forallb (fun o => negb (String.eqb o "")) options = true ->
  In s options -> String.eqb s "" = false.
Proof.
  intros Hall Hs. rewrite forallb_forall in Hall.
  apply Hall in Hs. now apply negb_true_iff in Hs.
Qed.

Lemma numberOf_not_empty (s : string) (x : Q) :
  numberOf s = Fin x -> (0 < x)%Q -> String.eqb s "" = false.
Proof.
  intros H Hx. destruct (String.eqb_spec s "") as [-> | _]; [| reflexivity].
  vm_compute in H. injection H as <-. discriminate Hx.
Qed.

Lemma positive_is_truthy (x d : Q) :
  (0 < x)%Q -> ToNumber (or_else (Some (VNum x)) (VNum d)) = Ok (Fin x).
Proof.
  intros Hx. simpl. destruct (Qeq_bool x 0) eqn:E; [| reflexivity].
  apply Qeq_bool_iff in E. lra.
Qed.

(** X20.  Every profile that the form accepts is sent, and its calorie
    target is an integer between 565 and 8385. *)
Theorem form_profile_target_bounds
    (goal ageRange gender height weight activityLevel : string) (h w : Q) :
  formAccepts goal ageRange gender height weight activityLevel h w ->
  exists p k,
    formProfile goal ageRange gender height weight activityLevel = Some p /\
    calculateDailyCalories p = Ok (Fin (inject_Z k)) /\
    (565 <= k <= 8385)%Z.
Proof.
  intros (Hgoal & Hage & Hgender & Hlevel & Hh & Hhr & Hw & Hwr).
  destruct (ageRangeOptions_ages ageRange Hage) as (Hne & a & Ha & Har).
  unfold formProfile.
  rewrite (option_not_empty goalOptions goal eq_refl Hgoal).
  rewrite (option_not_empty ageRangeOptions ageRange eq_refl Hage).
  rewrite (option_not_empty genderOptions gender eq_refl Hgender).
  rewrite (option_not_empty activityLevelOptions activityLevel eq_refl Hlevel).
  rewrite (numberOf_not_empty height h Hh) by lra.
  rewrite (numberOf_not_empty weight w Hw) by lra.
  cbn [orb]. rewrite Hh, Hw. cbn [jsonOfNumber].
  set (p := VObj [("goal", VStr goal); ("ageRange", VStr ageRange);
                  ("gender", VStr gender); ("heightCm", VNum h);
                  ("weightKg", VNum w); ("activityLevel", VStr activityLevel)]).
  pose proof large_positive as HL.
  destruct (calories_closed p a w h) as (x & Hx & Hc).
  - discriminate.
  - exact Ha.
  - apply positive_is_truthy. lra.
  - apply positive_is_truthy. lra.
  - lra.
  - lra.
  - lra.
  - exists p, (Qfloor (x + (1 # 2))). split; [reflexivity |].
    split; [exact Hc |].
    pose proof (genderOffset_bounds (get p "gender")) as [Ho1 Ho2].
    pose proof (activityFactor_bounds (get p "activityLevel")) as [Hf1 Hf2].
    pose proof (goalFactor_bounds (get p "goal")) as [Hg1 Hg2].
    unfold rawCalories in Hx.
    set (base := (10 * w + 6.25 * h - 5 * a + genderOffset (get p "gender"))%Q) in *.
    assert (Hb : (589 <= base <= 3837.5)%Q) by (subst base; lra).
    assert (Hlow : (589 * 1.2 * 0.8 <= x)%Q).
    { rewrite Hx. apply Qmult_le_mono; try lra.
      - apply Qmult_le_mono; lra. }
    assert (Hhigh : (x <= 3837.5 * 1.9 * 1.15)%Q).
    { rewrite Hx. apply Qmult_le_mono; try lra.
      - apply Qle_trans with (589 * 1.2)%Q; [lra |].
        apply Qmult_le_mono; lra.
      - apply Qmult_le_mono; lra. }
    split.
    + change 565%Z with (Qfloor (589 * 1.2 * 0.8 + (1 # 2))).
      apply Qfloor_resp_le. lra.
    + change 8385%Z with (Qfloor (3837.5 * 1.9 * 1.15 + (1 # 2))).
      apply Qfloor_resp_le. lra.
Qed.

(** X20 at the profile with the lowest target. *)
Lemma form_profile_target_bounds_witness :
  exists p k,
    formProfile "Lose weight" "55-64" "Female" "120" "30"
                "Sedentary - 0 hours/week" = Some p /\
    calculateDailyCalories p = Ok (Fin (inject_Z k)) /\
    (565 <= k <= 8385)%Z.
Proof.
  apply (form_profile_target_bounds _ _ _ _ _ _ 120 30).
  unfold formAccepts. cbn.
  repeat split; try discriminate; try (vm_compute; reflexivity); tauto.
Defined.

(** Both bounds are attained. *)
Lemma form_profile_targets_attained :
  option_map calculateDailyCalories
    (formProfile "Lose weight" "55-64" "Female" "120" "30"
                 "Sedentary - 0 hours/week") = Some (Ok (Fin 565)) /\
  option_map calculateDailyCalories
    (formProfile "Gain weight" "18-24" "Male" "230" "250"
                 "Very Active - 4+ hours/week") = Some (Ok (Fin 8385)).
Proof. split; vm_compute; reflexivity. Qed.

(** The number of an input is within the range of binary64. *)
Lemma numberOf_fits (s : string) (x : Q) :
  numberOf s = Fin x -> B64.fit x = Fin x.
Proof.
  unfold numberOf. intros H.
  destruct (Lit.StringToNumber (chars s)) as [| q | |]; try discriminate.
  cbn [B64.clip] in H. pose proof (fit_finite _ _ H) as ->. exact H.
Qed.

(** X21.  A profile of the form whose height and weight read as numbers
    within the range of binary64 is stored by [PUT /api/profile] as it was
    sent.  (A text such as "1e999" reads as an infinity, which is sent as
    [null].) *)
Theorem form_profile_stored_as_sent
    (goal ageRange gender height weight activityLevel : string) (p : value)
    (h w : Q) :
  formProfile goal ageRange gender height weight activityLevel = Some p ->
  numberOf height = Fin h -> numberOf weight = Fin w ->
  profileRecord p = Ok p.
Proof.
  unfold formProfile. intros Hp Hh Hw.
  destruct (_ || _); [discriminate |]. injection Hp as <-.
  rewrite Hh, Hw. unfold profileRecord. cbn -[B64.fit].
  now rewrite (numberOf_fits _ _ Hh), (numberOf_fits _ _ Hw).
Qed.

(** X21 at scenario A. *)
Lemma form_profile_stored_as_sent_witness :
  profileRecord scenarioA = Ok scenarioA.
Proof.
  apply (form_profile_stored_as_sent "Lose weight" "25-34" "Male" "180" "80"
           "Moderate - 1-2 hours/week" scenarioA 180 80);
    vm_compute; reflexivity.
Defined.

(** * More on the account routes *)

Lemma find_upsert (user : obj) (e e' : value) (users : list obj) :
  assoc "email" user = Some e -> strict_eq e e' = true ->
  find (hasEmail e') (upsert user users) = Some user.
Proof.
  intros He Heq.
  assert (Hself : hasEmail e' user = true) by (unfold hasEmail; now rewrite He).
  assert (Hsame : forall u, hasEmail e' u = sameEmail user u).
  { intros u. rewrite (sameEmail_hasEmail _ _ _ He). unfold hasEmail.
    destruct (assoc "email" u) as [x |]; [| reflexivity].
    now apply strict_eq_same_key. }
  destruct (upsert_cases user users)
    as [[-> Hnone] | (pre & x & post & _ & -> & _ & Hpre)];
    rewrite find_skip by (intros u Hu; rewrite Hsame; auto);
    simpl; now rewrite Hself.
Qed.

Lemma upsert_idempotent (user : obj) (e : value) (users : list obj) :
  assoc "email" user = Some e -> strict_eq e e = true ->
  upsert user (upsert user users) = upsert user users.
Proof.
  intros He Hself.
  assert (Hu : sameEmail user user = true).
  { unfold sameEmail. rewrite He. exact Hself. }
  destruct (upsert_cases user users)
    as [[-> Hnone] | (pre & x & post & _ & -> & _ & Hpre)].
  - unfold upsert at 1.
    rewrite (findIndex_first (sameEmail user) users [] user Hu Hnone).
    apply setAt_middle.
  - unfold upsert at 1.
    rewrite (findIndex_first (sameEmail user) pre post user Hu Hpre).
    apply setAt_middle.
Qed.

Lemma set_field_idempotent (k : string) (v : value) (fields : obj) :
  set_field k v (set_field k v fields) = set_field k v fields.
Proof.
  induction fields as [| [k' v'] fields IH]; simpl.
  - now rewrite String.eqb_refl.
  - destruct (String.eqb k k') eqn:E; simpl; rewrite E; [reflexivity |].
    now rewrite IH.
Qed.

Lemma hasEmail_inv (email : value) (user : obj) :
  hasEmail email user = true ->
  exists e, assoc "email" user = Some e /\ strict_eq e email = true.
Proof.
  unfold hasEmail. destruct (assoc "email" user) as [e |]; [| discriminate].
  intros H. now exists e.
Qed.


(** The response and the file after a profile update, computed from the
    request and the file before. *)
Lemma updateProfile_eq (body : value) (f : dbfile) :
  updateProfile body f =
  match get body "email", get body "profile" with
  | Some email, Some profile =>
      if negb (truthy email) || negb (truthy profile) then
        (Reply 400 (errorBody "Email and profile are required."), f)
      else
        match find (hasEmail email) (users (contents f)) with
        | None => (Reply 404 (errorBody "User not found."), snd (readDb f))
        | Some user =>
            match profileRecord profile with
            | Ok stored =>
                let user := set_field "profile" stored user in
                (Reply 200 (userBody user stored),
                 Stored (mkDb (upsert user (users (contents f)))
                              (menus (contents f))))
            | Throw _ =>
                (Reply 500 (errorBody "Server error updating profile."),
                 snd (readDb f))
            end
        end
  | _, _ => (Reply 400 (errorBody "Email and profile are required."), f)
  end.
Proof.
  unfold updateProfile, route.
  destruct (get body "email") as [email |]; [| reflexivity].
  destruct (get body "profile") as [profile |]; [| reflexivity].
  destruct (negb (truthy email) || negb (truthy profile)); [reflexivity |].
  unfold findUser, saveUser, bind, lift, readDb, writeDb, ret.
  destruct f as [| | d]; cbn [contents users menus emptyDb find snd];
    try reflexivity.
  destruct (find (hasEmail email) (users d)); [| reflexivity].
  destruct (profileRecord profile) as [stored | e]; reflexivity.
Qed.

(** X22.  A profile update is idempotent: the same request, sent again
    after it was answered with 200, gets the same answer and leaves the
    file as the first one left it. *)
Theorem updateProfile_idempotent (body : value) (f f' : dbfile) (res : value) :
  updateProfile body f = (Reply 200 res, f') ->
  updateProfile body f' = (Reply 200 res, f').
Proof.
  intros H. rewrite updateProfile_eq in H. rewrite updateProfile_eq.
  destruct (get body "email") as [email |]; [| discriminate].
  destruct (get body "profile") as [profile |]; [| discriminate].
  destruct (negb (truthy email) || negb (truthy profile)); [discriminate |].
  destruct (find (hasEmail email) (users (contents f))) as [user |] eqn:Hu;
    [| discriminate].
  destruct (profileRecord profile) as [stored | e]; [| discriminate].
  cbv zeta in H. injection H as <- <-.
  apply find_some in Hu. destruct Hu as [_ Hu].
  apply hasEmail_inv in Hu. destruct Hu as (e & He & Heq).
  assert (He' : assoc "email" (set_field "profile" stored user) = Some e).
  { rewrite assoc_set_other by discriminate. exact He. }
  cbn [contents users menus].
  rewrite (find_upsert _ e email _ He' Heq).
  cbv zeta. rewrite set_field_idempotent.
  rewrite (upsert_idempotent _ e _ He') by (now apply strict_eq_self in Heq).
  reflexivity.
Qed.

(** X22 at the profile of scenario A for the registered user. *)
Lemma updateProfile_idempotent_witness :
  let f' := snd (updateProfile requestA registered) in
  updateProfile requestA f'
  = (Reply 200 (VObj [("user", VObj [("email", alice); ("profile", scenarioA)])]),
     f').
Proof.
  cbv zeta. apply (updateProfile_idempotent requestA registered). reflexivity.
Defined.

Section Registration.

Variable hash : value -> result string.

(** The response and the file after a registration, computed from the
    request and the file before. *)
Lemma register_eq (now : Q) (body : value) (f : dbfile) :
  register hash now body f =
  match get body "email", get body "password" with
  | Some email, Some password =>
      if negb (truthy email) || negb (truthy password) then
        (Reply 400 (errorBody "Email and password are required."), f)
      else
        match find (hasEmail email) (users (contents f)) with
        | Some _ =>
            (Reply 400 (errorBody "User with this email already exists."),
             snd (readDb f))
        | None =>
            match hash password with
            | Ok h =>
                let user := [("email", email); ("passwordHash", VStr h);
                             ("profile", VNull); ("createdAt", VNum now)] in
                (Reply 201 (userBody user VNull),
                 Stored (mkDb (upsert user (users (contents f)))
                              (menus (contents f))))
            | Throw _ =>
                (Reply 500 (errorBody "Server error during registration."),
                 snd (readDb f))
            end
        end
  | _, _ => (Reply 400 (errorBody "Email and password are required."), f)
  end.
Proof.
  unfold register, route.
  destruct (get body "email") as [email |];
    [| cbn [truthy_opt negb orb]; reflexivity].
  destruct (get body "password") as [password |];
    [| cbn [truthy_opt negb orb]; rewrite orb_true_r; reflexivity].
  cbn [truthy_opt].
  destruct (negb (truthy email) || negb (truthy password)); [reflexivity |].
  unfold findUser, saveUser, bind, lift, readDb, writeDb, ret.
  destruct f as [| | d]; cbn [contents users menus emptyDb find snd].
  - destruct (hash password); reflexivity.
  - destruct (hash password); reflexivity.
  - destruct (find (hasEmail email) (users d)); [reflexivity |].
    destruct (hash password); reflexivity.
Qed.


End Registration.


(** * More on menu generation *)

Lemma menusOf_contents (email : value) (f f' : dbfile) :
  contents f' = contents f -> menusOf email f' = menusOf email f.
Proof. unfold menusOf. now intros ->. Qed.

(** X24.  A generation request touches the menus of its own email only:
    for every email that is not strictly equal to the email of the
    request, the stored menus and the next version stay as they were. *)
Theorem generation_is_per_user (ai : provider) (now : Q)
    (body e e' : value) (f : dbfile) :
  get body "email" = Some e ->
  strict_eq e e' = false ->
  menusOf e' (snd (generateWeeklyMenu ai now body f)) = menusOf e' f /\
  fst (getNextMenuVersion e' (snd (generateWeeklyMenu ai now body f)))
  = fst (getNextMenuVersion e' f).
Proof.
  intros He Hne.
  assert (Hm : menusOf e' (snd (generateWeeklyMenu ai now body f))
               = menusOf e' f).
  { rewrite generate_eq, He.
    destruct (get body "profile") as [profile |]; [| reflexivity].
    destruct (negb (truthy e) || negb (truthy profile)); [reflexivity |].
    destruct (find (hasEmail e) (users (contents f)));
      [| apply menusOf_contents, readDb_contents].
    destruct (calculateDailyCalories profile) as [n | err];
      [| apply menusOf_contents, readDb_contents].
    destruct (prompt profile) as [[] | perr];
      [| apply menusOf_contents, readDb_contents].
    destruct ai as [reply |]; [| apply menusOf_contents, readDb_contents].
    cbv zeta. cbn [snd]. unfold menusOf at 1. cbn [contents menus].
    rewrite filter_app. cbn [filter].
    assert (Hother : hasEmail e' (menuFor e reply n now f) = false).
    { unfold menuFor.
      destruct (planMenu reply (B64.plusOne (maxVersion (menusOf e f)))) as [[days v] w].
      destruct (buildMenu_fields e days v w n now) as (Hemail & _).
      cbv zeta in Hemail. unfold hasEmail. now rewrite Hemail. }
    rewrite Hother. apply app_nil_r. }
  split; [exact Hm |].
  destruct (getNextMenuVersion_eq e' (snd (generateWeeklyMenu ai now body f)))
    as (f1 & -> & _).
  destruct (getNextMenuVersion_eq e' f) as (f2 & -> & _).
  cbn [fst]. now rewrite Hm.
Qed.

(** X24 at a generation for the registered user, seen from another
    email. *)
Lemma generation_is_per_user_witness :
  let f' := snd (generateWeeklyMenu rejects 1000 requestA registered) in
  menusOf (VStr "bob@example.org") f' = menusOf (VStr "bob@example.org") registered /\
  fst (getNextMenuVersion (VStr "bob@example.org") f')
  = fst (getNextMenuVersion (VStr "bob@example.org") registered).
Proof.
  cbv zeta. apply (generation_is_per_user rejects 1000 requestA alice); reflexivity.
Defined.

(** * The database file *)

Section Unreadable.

Variable hash : value -> result string.
Variable compare : value -> option value -> result bool.

(** X25.  While [db.json] cannot be read, every email is unknown: each
    request is answered with an error and leaves the file as it is, except
    a registration answered with 201, which replaces the file by a
    database that holds the new user and nothing else. *)
Theorem unreadable_database_reads_as_empty (c : call) :
  (snd (handle hash compare c Unreadable) = Unreadable /\
   status (fst (handle hash compare c Unreadable)) <> 200 /\
   status (fst (handle hash compare c Unreadable)) <> 201 /\
   exists message,
     bodyOf (fst (handle hash compare c Unreadable)) = errorBody message) \/
  (exists now body user,
     c = Register now body /\
     status (fst (handle hash compare c Unreadable)) = 201 /\
     snd (handle hash compare c Unreadable) = Stored (mkDb [user] [])).
Proof.
  destruct c as [now body | body | e | body | ai now body]; cbn [handle].
  - rewrite register_eq.
    destruct (get body "email") as [email |];
      [| left; repeat split; try discriminate; eexists; reflexivity].
    destruct (get body "password") as [password |];
      [| left; repeat split; try discriminate; eexists; reflexivity].
    destruct (negb (truthy email) || negb (truthy password));
      [left; repeat split; try discriminate; eexists; reflexivity |].
    cbn [contents users emptyDb find].
    destruct (hash password) as [h | err];
      [| left; repeat split; try discriminate; eexists; reflexivity].
    right. exists now, body. eexists. repeat split.
  - left. unfold login, route.
    destruct (negb (truthy_opt (get body "email"))
              || negb (truthy_opt (get body "password")));
      [repeat split; try discriminate; eexists; reflexivity |].
    destruct (get body "email") as [email |];
      [| repeat split; try discriminate; eexists; reflexivity].
    destruct (get body "password") as [password |];
      repeat split; try discriminate; eexists; reflexivity.
  - left. unfold getUser, route.
    destruct e as [email |];
      [| repeat split; try discriminate; eexists; reflexivity].
    destruct (negb (truthy email));
      repeat split; try discriminate; eexists; reflexivity.
  - left. rewrite updateProfile_eq.
    destruct (get body "email") as [email |];
      [| repeat split; try discriminate; eexists; reflexivity].
    destruct (get body "profile") as [profile |];
      [| repeat split; try discriminate; eexists; reflexivity].
    destruct (negb (truthy email) || negb (truthy profile));
      repeat split; try discriminate; eexists; reflexivity.
  - left. rewrite generate_eq.
    destruct (get body "email") as [email |];
      [| repeat split; try discriminate; eexists; reflexivity].
    destruct (get body "profile") as [profile |];
      [| repeat split; try discriminate; eexists; reflexivity].
    destruct (negb (truthy email) || negb (truthy profile));
      repeat split; try discriminate; eexists; reflexivity.
Qed.

End Unreadable.

(** ** Menu state *)

Lemma mapResult_Forall {A B} (f : A -> result B) (P : B -> Prop) (l : list A)
    (ys : list B) :
  (forall x y, f x = Ok y -> P y) -> mapResult f l = Ok ys -> Forall P ys.
Proof.
  intros Hf. revert ys. induction l as [| x l IH]; intros ys; cbn [mapResult].
  - intros H. injection H as <-. constructor.
  - destruct (f x) as [y | e] eqn:Ey; [| discriminate]. cbn [rbind].
    destruct (mapResult f l) as [ys' | e]; [| discriminate]. cbn [rbind].
    intros H. injection H as <-. constructor; [now apply (Hf x) | now apply IH].
Qed.

Lemma mapResult_length {A B} (f : A -> result B) (l : list A) (ys : list B) :
  mapResult f l = Ok ys -> List.length ys = List.length l.
Proof.
  revert ys. induction l as [| x l IH]; intros ys; cbn [mapResult].
  - intros H. now injection H as <-.
  - destruct (f x) as [y | e]; [| discriminate]. cbn [rbind].
    destruct (mapResult f l) as [ys' | e]; [| discriminate]. cbn [rbind].
    intros H. injection H as <-. cbn. now rewrite (IH ys').
Qed.

Lemma mapArray_Forall (f : value -> result value) (P : value -> Prop)
    (v : value) (ys : list value) :
  (forall x y, f x = Ok y -> P y) -> mapArray v f = Ok ys -> Forall P ys.
Proof.
  intros Hf. destruct v; try discriminate. now apply mapResult_Forall.
Qed.

Lemma unbought_item (item : value) : itemWith (fun b => b = false) (unbought item).
Proof.
  eexists; exists false. split; [reflexivity |]. split; [| reflexivity].
  apply assoc_set_same.
Qed.

Lemma enhanceDay_day (day d : value) :
  enhanceDay day = Ok d -> dayWith (fun b => b = false) d.
Proof.
  unfold enhanceDay.
  destruct (prop day "shoppingItems") as [si | e]; [| discriminate].
  cbn [rbind].
  destruct (mapArray (or_else si (VArr [])) (fun item => Ok (unbought item)))
    as [items | e] eqn:E; [| discriminate].
  cbn [rbind]. intros H. injection H as <-.
  eexists; exists items. split; [reflexivity |].
  split; [apply assoc_set_same |].
  apply (mapArray_Forall (fun item => Ok (unbought item))
           (itemWith (fun b => b = false)) (or_else si (VArr [])) items);
    [| exact E].
  intros x y H. injection H as <-. apply unbought_item.
Qed.

(** X26.  The menu that the client keeps after a generation is ready for
    the shopping list: its days are objects, each with an array of
    shopping items that are objects with the flag [bought] set to [false];
    there are as many days as the response had, and the other properties
    of the response are kept. *)
Theorem enhance_makes_ready (data menu : value) :
  enhance data = Ok menu ->
  menuWith (fun b => b = false) menu /\
  (forall k, k <> "days" -> get menu k = assoc k (spread data)) /\
  exists days days',
    or_else (get data "days") (VArr []) = VArr days /\
    get menu "days" = Some (VArr days') /\
    List.length days' = List.length days.
Proof.
  unfold enhance.
  destruct (prop data "days") as [ds | e] eqn:Ep; [| discriminate].
  cbn [rbind].
  destruct (mapArray (or_else ds (VArr [])) enhanceDay) as [days' | e] eqn:E;
    [| discriminate].
  cbn [rbind]. intros H. injection H as <-.
  assert (Hds : ds = get data "days").
  { destruct data; try discriminate; now injection Ep as <-. }
  subst ds. split; [| split].
  - eexists; exists days'. split; [reflexivity |].
    split; [apply assoc_set_same |].
    apply (mapArray_Forall enhanceDay _ _ _ enhanceDay_day E).
  - intros k Hk. cbn [get]. now apply assoc_set_other.
  - destruct (or_else (get data "days") (VArr [])) as [| | | | days |];
      try discriminate.
    exists days, days'. split; [reflexivity |].
    split; [apply assoc_set_same |].
    now apply mapResult_length in E.
Qed.

(** X26 at a response with one day and one item. *)
Lemma enhance_makes_ready_witness :
  menuWith (fun b => b = false)
    (VObj [("version", VNum 1);
           ("days", VArr [VObj [("dayIndex", VNum 1);
                                ("shoppingItems",
                                 VArr [VObj [("product", VStr "Oats");
                                             ("bought", VBool false)]])]])]).
Proof.
  apply (enhance_makes_ready
           (VObj [("version", VNum 1);
                  ("days", VArr [VObj [("dayIndex", VNum 1);
                                       ("shoppingItems",
                                        VArr [VObj [("product", VStr "Oats")]])]])])).
  reflexivity.
Defined.

Lemma set_field_same (k : string) (v : value) (fields : obj) :
  assoc k fields = Some v -> set_field k v fields = fields.
Proof.
  induction fields as [| [k' v'] fields IH]; simpl; [discriminate |].
  destruct (String.eqb_spec k k') as [<- | Hk].
  - intros H. now injection H as ->.
  - intros H. now rewrite IH.
Qed.

Lemma set_field_twice (k : string) (v v' : value) (fields : obj) :
  set_field k v (set_field k v' fields) = set_field k v fields.
Proof.
  induction fields as [| [k' w] fields IH]; simpl.
  - now rewrite String.eqb_refl.
  - destruct (String.eqb k k') eqn:E; simpl; rewrite E; [reflexivity |].
    now rewrite IH.
Qed.

Lemma setAt_same {A} (i : nat) (x : A) (l : list A) :
  nth_error l i = Some x -> setAt i x l = l.
Proof.
  revert i. induction l as [| y l IH]; intros [| i]; simpl; try discriminate.
  - intros H. now injection H as ->.
  - intros H. now rewrite IH.
Qed.

Lemma setAt_twice {A} (i : nat) (x y : A) (l : list A) :
  setAt i x (setAt i y l) = setAt i x l.
Proof.
  revert i. induction l as [| z l IH]; intros [| i]; simpl; try reflexivity.
  now rewrite IH.
Qed.

Lemma nth_error_setAt {A} (i : nat) (x y : A) (l : list A) :
  nth_error l i = Some y -> nth_error (setAt i x l) i = Some x.
Proof.
  revert i. induction l as [| z l IH]; intros [| i]; simpl; try discriminate.
  - reflexivity.
  - apply IH.
Qed.

Lemma map_setAt {A B} (f : A -> B) (i : nat) (x : A) (l : list A) :
  map f (setAt i x l) = setAt i (f x) (map f l).
Proof.
  revert i. induction l as [| z l IH]; intros [| i]; simpl; try reflexivity.
  now rewrite IH.
Qed.

Lemma Forall_setAt {A} (P : A -> Prop) (i : nat) (x : A) (l : list A) :
  P x -> Forall P l -> Forall P (setAt i x l).
Proof.
  intros Hx. revert i. induction l as [| z l IH]; intros [| i] H; simpl;
    try constructor; inversion H; subst; auto.
Qed.

Lemma findIndex_map {A B} (p : B -> bool) (g : A -> B) (l : list A) :
  findIndex p (map g l) = findIndex (fun x => p (g x)) l.
Proof.
  induction l as [| x l IH]; simpl; [reflexivity |]. now rewrite IH.
Qed.

Lemma findIndex_setAt {A} (p : A -> bool) (i : nat) (x y : A) (l : list A) :
  nth_error l i = Some y -> p x = p y ->
  findIndex p (setAt i x l) = findIndex p l.
Proof.
  revert i. induction l as [| z l IH]; intros [| i]; simpl; try discriminate.
  - intros H Hp. injection H as ->. now rewrite Hp.
  - intros H Hp. now rewrite (IH i H Hp).
Qed.

Lemma findIndex_nth {A} (p : A -> bool) (l : list A) (i : nat) :
  findIndex p l = Some i -> exists x, nth_error l i = Some x.
Proof.
  revert i. induction l as [| y l IH]; simpl; [discriminate |].
  intros i. destruct (p y).
  - intros H. injection H as <-. now exists y.
  - destruct (findIndex p l) as [j |]; [| discriminate].
    intros H. injection H as <-. now apply IH.
Qed.

(** A day of the state is copied as it is. *)
Lemma cloneDay_ready (P : bool -> Prop) (day : value) :
  dayWith P day ->
  cloneDay day = Ok (copyOf day) /\ dayObject (copyOf day) = day.
Proof.
  intros (fields & items & -> & Hs & _).
  unfold cloneDay, dayObject, copyOf, prop. cbn [get rbind spread fst snd].
  rewrite Hs. cbn [or_else truthy iterate rbind]. split; [reflexivity |].
  now rewrite set_field_same.
Qed.

Lemma cloneDays_ready (P : bool -> Prop) (days : list value) :
  Forall (dayWith P) days ->
  mapResult cloneDay days = Ok (map copyOf days) /\
  map dayObject (map copyOf days) = days.
Proof.
  induction 1 as [| day days Hd _ [IH1 IH2]]; [split; reflexivity |].
  destruct (cloneDay_ready P day Hd) as [E1 E2].
  cbn [mapResult map]. rewrite E1, IH1, E2, IH2. split; reflexivity.
Qed.

(** [toggleBought] on a menu of the state, in terms of its days. *)
Lemma toggleBought_ready (P : bool -> Prop) (dayIndex : option value)
    (itemIndex : nat) (fields : obj) (days : list value) :
  assoc "days" fields = Some (VArr days) ->
  Forall (dayWith P) days ->
  toggleBought dayIndex itemIndex (VObj fields) =
  match findIndex (fun d => strict_eq_opt (get d "dayIndex") dayIndex) days with
  | None => Ok None
  | Some dayPos =>
      match nth_error days dayPos with
      | Some day =>
          match nth_error (snd (copyOf day)) itemIndex with
          | Some item =>
              let items := setAt itemIndex (toggled item) (snd (copyOf day)) in
              let day := dayObject (fst (copyOf day), items) in
              Ok (Some (VObj (set_field "days" (VArr (setAt dayPos day days))
                                        fields)))
          | None => Ok None
          end
      | None => Ok None
      end
  end.
Proof.
  intros Hdays Hready. unfold toggleBought, prop.
  cbn [truthy negb get rbind spread]. rewrite Hdays.
  destruct (cloneDays_ready P days Hready) as [-> Hback]. cbn [rbind].
  rewrite findIndex_map.
  assert (Hsame : forall d, In d days -> dayObject (copyOf d) = d).
  { intros d Hd. rewrite Forall_forall in Hready.
    now destruct (cloneDay_ready P d (Hready d Hd)). }
  assert (Hfind : findIndex
                    (fun x => strict_eq_opt (get (dayObject (copyOf x)) "dayIndex")
                                            dayIndex) days
                  = findIndex (fun d => strict_eq_opt (get d "dayIndex") dayIndex)
                              days).
  { clear Hback Hdays. induction days as [| d days IH]; [reflexivity |].
    cbn [findIndex]. rewrite (Hsame d (or_introl eq_refl)).
    inversion Hready; subst.
    rewrite IH; auto. intros x Hx. apply Hsame. now right. }
  rewrite Hfind. clear Hfind.
  destruct (findIndex _ days) as [dayPos |]; [| reflexivity].
  rewrite nth_error_map.
  destruct (nth_error days dayPos) as [day |] eqn:Eday; [| reflexivity].
  cbn [option_map].
  destruct (copyOf day) as [f items] eqn:Ec. cbn [fst snd].
  destruct (nth_error items itemIndex) as [item |] eqn:Eitem; [| reflexivity].
  assert (Hitem : truthy item = true).
  { rewrite Forall_forall in Hready.
    apply nth_error_In in Eday. destruct (Hready day Eday)
      as (fd & its & -> & Hs & Hits).
    cbn [copyOf] in Ec. rewrite Hs in Ec. injection Ec as _ <-.
    rewrite Forall_forall in Hits. apply nth_error_In in Eitem.
    destruct (Hits item Eitem) as (fi & b & -> & _). reflexivity. }
  rewrite Hitem. cbn [negb]. cbv zeta.
  now rewrite map_setAt, Hback.
Qed.

Lemma nth_error_setAt_other {A} (i j : nat) (x : A) (l : list A) :
  i <> j -> nth_error (setAt i x l) j = nth_error l j.
Proof.
  revert i j. induction l as [| z l IH]; intros [| i] [| j] H; simpl;
    try reflexivity; try contradiction.
  apply IH. intros ->. now apply H.
Qed.

Lemma toggled_item (P : bool -> Prop) (item : value) :
  itemWith P item ->
  itemWith (fun _ => True) (toggled item) /\
  toggled (toggled item) = item /\
  truthy_opt (get (toggled item) "bought")
  = negb (truthy_opt (get item "bought")).
Proof.
  intros (fields & b & -> & Hb & _). unfold toggled.
  cbn [get spread]. rewrite Hb. cbn [truthy_opt truthy].
  rewrite assoc_set_same. cbn [truthy_opt truthy].
  rewrite set_field_twice, negb_involutive, (set_field_same _ _ _ Hb).
  split; [| split; reflexivity].
  eexists; exists (negb b). split; [reflexivity |].
  split; [apply assoc_set_same | exact I].
Qed.

(** What a toggle that changes the state does to a menu of the state. *)
Lemma toggleBought_changes (P : bool -> Prop) (dayIndex : option value)
    (itemIndex : nat) (menu menu' : value) :
  menuWith P menu ->
  toggleBought dayIndex itemIndex menu = Ok (Some menu') ->
  exists fields days dayPos f items item,
    menu = VObj fields /\ assoc "days" fields = Some (VArr days) /\
    Forall (dayWith P) days /\
    findIndex (fun d => strict_eq_opt (get d "dayIndex") dayIndex) days
    = Some dayPos /\
    nth_error days dayPos = Some (VObj f) /\
    assoc "shoppingItems" f = Some (VArr items) /\
    Forall (itemWith P) items /\
    nth_error items itemIndex = Some item /\
    menu' = VObj (set_field "days"
                    (VArr (setAt dayPos
                             (VObj (set_field "shoppingItems"
                                      (VArr (setAt itemIndex (toggled item) items))
                                      f))
                             days))
                    fields).
Proof.
  intros (fields & days & -> & Hdays & Hready) H.
  rewrite (toggleBought_ready P _ _ _ _ Hdays Hready) in H.
  destruct (findIndex _ days) as [dayPos |] eqn:Ef; [| discriminate].
  destruct (nth_error days dayPos) as [day |] eqn:Eday; [| discriminate].
  pose proof Hready as Hall. rewrite Forall_forall in Hall.
  destruct (Hall day (nth_error_In _ _ Eday)) as (f & items & -> & Hs & Hits).
  cbn [copyOf fst snd] in H. rewrite Hs in H.
  destruct (nth_error items itemIndex) as [item |] eqn:Eitem; [| discriminate].
  cbv zeta in H. injection H as <-.
  exists fields, days, dayPos, f, items, item. repeat split; assumption.
Qed.

(** X27.  On a menu of the state [toggleBought] does not throw, and the
    state it sets, if it sets one, is again a menu of the state. *)
Theorem toggleBought_keeps_ready (dayIndex : option value) (itemIndex : nat)
    (menu : value) :
  ready menu -> primitive dayIndex ->
  exists r,
    toggleBought dayIndex itemIndex menu = Ok r /\
    forall menu', r = Some menu' -> ready menu'.
Proof.
  intros Hready _.
  destruct (toggleBought dayIndex itemIndex menu) as [[menu' |] | e] eqn:E.
  - exists (Some menu'). split; [reflexivity |].
    intros m Hm. injection Hm as <-.
    destruct (toggleBought_changes _ _ _ _ _ Hready E)
      as (fields & days & dayPos & f & items & item & -> & Hdays & Hall & _ & _
          & Hs & Hits & Hitem & ->).
    eexists; eexists. split; [reflexivity |].
    split; [apply assoc_set_same |].
    apply Forall_setAt; [| exact Hall].
    eexists; eexists. split; [reflexivity |].
    split; [apply assoc_set_same |].
    apply Forall_setAt; [| exact Hits].
    rewrite Forall_forall in Hits.
    now destruct (toggled_item _ item (Hits item (nth_error_In _ _ Hitem))).
  - exists None. split; [reflexivity | discriminate].
  - exfalso. destruct Hready as (fields & days & -> & Hdays & Hall).
    rewrite (toggleBought_ready _ _ _ _ _ Hdays Hall) in E.
    destruct (findIndex _ days) as [dayPos |]; [| discriminate].
    destruct (nth_error days dayPos) as [day |]; [| discriminate].
    destruct (nth_error (snd (copyOf day)) itemIndex); discriminate.
Qed.

(** X27 at a menu with one day and one item. *)
Lemma toggleBought_keeps_ready_witness :
  exists r,
    toggleBought (Some (VNum 1)) 0
      (VObj [("days", VArr [VObj [("dayIndex", VNum 1);
                                  ("shoppingItems",
                                   VArr [VObj [("bought", VBool false)]])]])])
    = Ok r /\
    forall menu', r = Some menu' -> ready menu'.
Proof.
  apply toggleBought_keeps_ready; [| exact I].
  eexists; eexists. split; [reflexivity |]. split; [reflexivity |].
  repeat constructor. eexists; eexists. split; [reflexivity |].
  split; [reflexivity |]. repeat constructor.
  eexists; eexists. split; [reflexivity |]. split; [reflexivity | exact I].
Defined.

(** X28.  Toggling the same item twice gives back the menu: when
    [toggleBought] has changed a menu of the state, the same call on the
    new menu sets the menu that was there before. *)
Theorem toggleBought_twice (dayIndex : option value) (itemIndex : nat)
    (menu menu' : value) :
  ready menu -> primitive dayIndex ->
  toggleBought dayIndex itemIndex menu = Ok (Some menu') ->
  toggleBought dayIndex itemIndex menu' = Ok (Some menu).
Proof.
  intros Hready _ E.
  destruct (toggleBought_changes _ _ _ _ _ Hready E)
    as (fields & days & dayPos & f & items & item & -> & Hdays & Hall & Hfind
        & Hday & Hs & Hits & Hitem & ->).
  pose proof Hits as Hits'. rewrite Forall_forall in Hits'.
  destruct (toggled_item _ item (Hits' item (nth_error_In _ _ Hitem)))
    as (Hready' & Hback & _).
  set (items' := setAt itemIndex (toggled item) items).
  set (day' := VObj (set_field "shoppingItems" (VArr items') f)).
  assert (Hall' : Forall (dayWith (fun _ => True)) (setAt dayPos day' days)).
  { apply Forall_setAt; [| exact Hall].
    eexists; exists items'. split; [reflexivity |].
    split; [apply assoc_set_same |]. now apply Forall_setAt. }
  rewrite (toggleBought_ready _ dayIndex itemIndex _ (setAt dayPos day' days)
             (assoc_set_same _ _ _) Hall').
  rewrite (findIndex_setAt _ dayPos day' (VObj f) days Hday), Hfind;
    [| subst day'; cbn [get]; now rewrite assoc_set_other by discriminate].
  rewrite (nth_error_setAt dayPos day' (VObj f) days Hday).
  subst day'. cbn [copyOf fst snd]. rewrite assoc_set_same.
  subst items'. rewrite (nth_error_setAt itemIndex _ item items Hitem).
  cbv zeta.
  rewrite Hback, (setAt_twice itemIndex item (toggled item) items),
    (setAt_same _ _ _ Hitem).
  unfold dayObject. cbn [fst snd].
  rewrite (set_field_twice "shoppingItems"), (set_field_same _ _ _ Hs).
  rewrite (setAt_twice dayPos), (setAt_same _ _ _ Hday).
  now rewrite (set_field_twice "days"), (set_field_same _ _ _ Hdays).
Qed.

(** X29.  A toggle that changes the state flips the flag of one item and
    no other: the item at [itemIndex] of the first day whose [dayIndex] is
    the one given, also when a later day has the same [dayIndex]. *)
Theorem toggleBought_flips_one_flag (dayIndex : option value)
    (itemIndex : nat) (menu menu' : value) :
  ready menu -> primitive dayIndex ->
  toggleBought dayIndex itemIndex menu = Ok (Some menu') ->
  exists dayPos flag,
    dayPosition dayIndex menu = Some dayPos /\
    flagAt dayPos itemIndex menu = Some flag /\
    flagAt dayPos itemIndex menu' = Some (negb flag) /\
    forall p i, (p, i) <> (dayPos, itemIndex) ->
                flagAt p i menu' = flagAt p i menu.
Proof.
  intros Hready _ E.
  destruct (toggleBought_changes _ _ _ _ _ Hready E)
    as (fields & days & dayPos & f & items & item & -> & Hdays & Hall & Hfind
        & Hday & Hs & Hits & Hitem & ->).
  rewrite Forall_forall in Hits.
  destruct (toggled_item _ item (Hits item (nth_error_In _ _ Hitem)))
    as (_ & _ & Hflag).
  exists dayPos, (truthy_opt (get item "bought")).
  unfold dayPosition, flagAt. cbn [get]. rewrite assoc_set_same, Hdays.
  split; [exact Hfind |].
  rewrite Hday. cbn [get]. rewrite Hs, Hitem.
  split; [reflexivity |].
  rewrite (nth_error_setAt dayPos _ (VObj f) days Hday).
  cbn [get]. rewrite assoc_set_same.
  rewrite (nth_error_setAt itemIndex _ item items Hitem), Hflag.
  split; [reflexivity |].
  intros p i Hpi.
  destruct (Nat.eq_dec dayPos p) as [<- | Hp].
  - rewrite (nth_error_setAt dayPos _ (VObj f) days Hday), Hday.
    cbn [get]. rewrite assoc_set_same, Hs.
    rewrite nth_error_setAt_other; [reflexivity |].
    intros ->. now apply Hpi.
  - now rewrite nth_error_setAt_other.
Qed.

Lemma oneItemMenu_ready (b : bool) : ready (oneItemMenu b).
Proof.
  eexists; eexists. split; [reflexivity |]. split; [reflexivity |].
  repeat constructor. eexists; eexists. split; [reflexivity |].
  split; [reflexivity |]. repeat constructor.
  eexists; eexists. split; [reflexivity |]. split; [reflexivity | exact I].
Qed.

(** X28 at a menu with one day and one item. *)
Lemma toggleBought_twice_witness :
  toggleBought (Some (VNum 1)) 0 (oneItemMenu true) = Ok (Some (oneItemMenu false)).
Proof.
  apply (toggleBought_twice (Some (VNum 1)) 0 (oneItemMenu false)).
  - apply oneItemMenu_ready.
  - exact I.
  - reflexivity.
Defined.

(** X29 at a menu with one day and one item. *)
Lemma toggleBought_flips_one_flag_witness :
  exists dayPos flag,
    dayPosition (Some (VNum 1)) (oneItemMenu false) = Some dayPos /\
    flagAt dayPos 0 (oneItemMenu false) = Some flag /\
    flagAt dayPos 0 (oneItemMenu true) = Some (negb flag) /\
    forall p i, (p, i) <> (dayPos, 0) ->
                flagAt p i (oneItemMenu true) = flagAt p i (oneItemMenu false).
Proof.
  apply (toggleBought_flips_one_flag (Some (VNum 1)) 0).
  - apply oneItemMenu_ready.
  - exact I.
  - reflexivity.
Defined.

Lemma mapResult_ok {A B} (f : A -> result B) (l : list A) :
  (exists ys, mapResult f l = Ok ys) <-> forall x, In x l -> exists y, f x = Ok y.
Proof.
  induction l as [| x l IH]; cbn [mapResult].
  - split; [intros _ x [] | intros _; now exists []].
  - split.
    + intros [ys H]. destruct (f x) as [y | e] eqn:Ey; [| discriminate].
      cbn [rbind] in H.
      destruct (mapResult f l) as [ys' | e] eqn:El; [| discriminate].
      intros z [<- | Hz]; [now exists y |].
      apply IH; [now exists ys' | exact Hz].
    + intros H. destruct (H x (or_introl eq_refl)) as [y ->]. cbn [rbind].
      destruct IH as [_ IH]. destruct IH as [ys ->].
      * intros z Hz. apply H. now right.
      * now exists (y :: ys).
Qed.

Lemma enhanceDay_ok (day : value) :
  (exists d, enhanceDay day = Ok d) <-> shownDay day = true.
Proof.
  unfold enhanceDay, shownDay, listLike, prop.
  destruct day as [| b | n | s | items | fields]; cbn [rbind get].
  - split; [intros [d H]; discriminate | discriminate].
  - split; [reflexivity | intros _; eexists; reflexivity].
  - split; [reflexivity | intros _; eexists; reflexivity].
  - split; [reflexivity | intros _; eexists; reflexivity].
  - split; [reflexivity | intros _; eexists; reflexivity].
  - destruct (assoc "shoppingItems" fields) as [v |];
      [| split; [reflexivity | intros _; eexists; reflexivity]].
    cbn [or_else truthy_opt isArray].
    destruct v as [| b | n | s | items | fs]; cbn [truthy negb orb isArray mapArray].
    + split; [reflexivity | intros _; eexists; reflexivity].
    + destruct b; cbn [negb orb mapArray rbind];
        (split; [intros [d H]; first [discriminate | reflexivity]
                | intros H; first [discriminate | eexists; reflexivity]]).
    + destruct (negb (Qeq_bool n 0)); cbn [negb orb mapArray rbind];
        (split; [intros [d H]; first [discriminate | reflexivity]
                | intros H; first [discriminate | eexists; reflexivity]]).
    + destruct (negb (String.eqb s "")); cbn [negb orb mapArray rbind];
        (split; [intros [d H]; first [discriminate | reflexivity]
                | intros H; first [discriminate | eexists; reflexivity]]).
    + split; [reflexivity |]. intros _.
      assert (H : exists ys, mapResult (fun item => Ok (unbought item)) items = Ok ys).
      { apply mapResult_ok. intros x _. now eexists. }
      destruct H as [ys ->]. eexists; reflexivity.
    + split; [intros [d H]; discriminate | discriminate].
Qed.

(** X30.  The client takes a response into the state exactly when the
    response is not [null], its [days] are missing, falsy or an array, and
    every day can be shown; otherwise [handleGenerateMenu] fails with a
    [TypeError], which it reports as an error. *)
Theorem enhance_succeeds_iff (data : value) :
  (exists menu, enhance data = Ok menu) <->
  data <> VNull /\ listLike (get data "days") = true /\
  forall days day,
    get data "days" = Some (VArr days) -> In day days -> shownDay day = true.
Proof.
  unfold enhance, prop.
  destruct data as [| b | n | s | items | fields];
    try (cbn [get rbind or_else mapArray mapResult]; split;
         [intros _; split; [discriminate | split; [reflexivity | discriminate]]
         | intros _; eexists; reflexivity]).
  - split; [intros [m H]; discriminate | intros [H _]; contradiction].
  - cbn [get rbind]. unfold listLike.
    destruct (assoc "days" fields) as [v |];
      [| cbn; split;
         [intros _; split; [discriminate | split; [reflexivity | discriminate]]
         | intros _; eexists; reflexivity]].
    cbn [or_else truthy_opt isArray].
    destruct v as [| b | n | s | days | fs]; cbn [truthy].
    + cbn. split;
        [intros _; split; [discriminate | split; [reflexivity | discriminate]]
        | intros _; eexists; reflexivity].
    + destruct b; cbn;
        (split;
         [intros [m H]; first [discriminate
                              | split; [discriminate | split; [reflexivity | discriminate]]]
         | intros (_ & H & _); first [discriminate | eexists; reflexivity]]).
    + destruct (negb (Qeq_bool n 0)); cbn;
        (split;
         [intros [m H]; first [discriminate
                              | split; [discriminate | split; [reflexivity | discriminate]]]
         | intros (_ & H & _); first [discriminate | eexists; reflexivity]]).
    + destruct (negb (String.eqb s "")); cbn;
        (split;
         [intros [m H]; first [discriminate
                              | split; [discriminate | split; [reflexivity | discriminate]]]
         | intros (_ & H & _); first [discriminate | eexists; reflexivity]]).
    + cbn [negb orb mapArray]. split.
      * intros [m H].
        destruct (mapResult enhanceDay days) as [ys | e] eqn:E; [| discriminate].
        split; [discriminate |]. split; [reflexivity |].
        intros days' day Hd Hin. injection Hd as <-.
        apply enhanceDay_ok.
        apply (proj1 (mapResult_ok enhanceDay days)); [now exists ys | exact Hin].
      * intros (_ & _ & H).
        destruct (proj2 (mapResult_ok enhanceDay days)) as [ys ->].
        -- intros day Hin. apply enhanceDay_ok. now apply (H days).
        -- eexists; reflexivity.
    + cbn. split; [intros [m H]; discriminate | intros (_ & H & _); discriminate].
Qed.

(** X30 at a menu with one day and one item. *)
Lemma enhance_succeeds_iff_witness :
  exists menu, enhance (oneItemMenu true) = Ok menu.
Proof.
  apply enhance_succeeds_iff. split; [discriminate |]. split; [reflexivity |].
  intros days day H. injection H as <-. intros [<- | []]. reflexivity.
Defined.
